(** * create_spritesheets.py: a shallow embedding and its properties

    The script combines the frame images of an animation into one sprite
    sheet: one row per direction, one column per frame, cells of 104x104
    pixels.  The embedding follows the script function by function.

    - Python [int] is [Z].
    - A [str] is a [string], read as its UTF-8 bytes; comparing the bytes
      in lexicographic order orders [str] values as Python does, by code
      point.
    - A path is the list of its components below the script directory
      ([os.path.join p c] appends one component).
    - The filesystem below the script directory is a tree of directories
      ([gmap] from entry name to node) and files.  A file carries what
      PIL makes of it: [Some img] when it decodes to an image (converted
      to RGBA, as [paste] into an RGBA sheet does), [None] when it does not.
    - An image is its size and its pixel function.
    - [print] appends a line to the standard output; lines are kept as
      structured values, one constructor per format string of the script.
    - A computation maps a world (filesystem, output so far) to an outcome
      (a value or a raised exception) and the world it leaves behind.
    - The library calls fail as the kind of the node at their path makes
      them fail: nothing there, a plain file where a directory is needed,
      a directory where a file is needed, a file that is no image.  Other
      failures of the operating system (permissions, a full disk) are not
      modelled. *)

From Stdlib Require Import ZArith Ascii String List.
From stdpp Require Import base option list strings gmap sorting.

Local Open Scope string_scope.
Local Open Scope Z_scope.
Local Open Scope list_scope.
Set Warnings "-register-all".

(** ** Images *)

(** An RGBA pixel: four bytes. *)
Record Pixel := mkPixel { red : Z; green : Z; blue : Z; alpha : Z }.

(** The fill colour [(0, 0, 0, 0)] of [Image.new] in [create_spritesheet]. *)
Definition transparent : Pixel := mkPixel 0 0 0 0.

Record Image := mkImage {
  width : Z;
  height : Z;
  pixel : Z -> Z -> Pixel   (* meaningful for 0 <= x < width, 0 <= y < height *)
}.

Definition in_image (im : Image) (px py : Z) : bool :=
  (0 <=? px) && (px <? width im) && (0 <=? py) && (py <? height im).

(** [Image.new("RGBA", (w, h), color)] *)
Definition Image_new (size : Z * Z) (color : Pixel) : Image :=
  mkImage (fst size) (snd size) (fun _ _ => color).

(** The rectangle that [paste] of a [w] x [h] image at [(x, y)] covers. *)
Definition in_box (x y w h px py : Z) : bool :=
  (x <=? px) && (px <? x + w) && (y <=? py) && (py <? y + h).

(** [sheet.paste(frame, (x, y))]: without a mask the pixels of [frame]
    replace those of [sheet] in the box of the frame's own size at
    [(x, y)], clipped to the sheet. *)
Definition paste (sheet frame : Image) (box : Z * Z) : Image :=
  let x := fst box in
  let y := snd box in
  mkImage (width sheet) (height sheet)
    (fun px py =>
       if in_image sheet px py && in_box x y (width frame) (height frame) px py
       then pixel frame (px - x) (py - y)
       else pixel sheet px py).

(** ** The filesystem below the script directory *)

Definition Path := list string.

Inductive Node :=
| File (content : option Image)
| Dir (entries : gmap string Node).

(** [os.path.join(p, c)] for a single relative component [c]. *)
Definition path_join (p : Path) (c : string) : Path := p ++ [c].

(** [os.path.dirname(p)] *)
Definition dirname (p : Path) : Path := removelast p.

Fixpoint lookup_path (n : Node) (p : Path) : option Node :=
  match p with
  | [] => Some n
  | c :: p' =>
      match n with
      | File _ => None
      | Dir es =>
          match es !! c with
          | Some child => lookup_path child p'
          | None => None
          end
      end
  end.

(** ** Exceptions, output lines, worlds *)

Inductive Exn :=
| FileNotFoundError (p : Path)
| NotADirectoryError (p : Path)
| IsADirectoryError (p : Path)
| FileExistsError (p : Path)
| UnidentifiedImageError (p : Path)
| KeyError (k : string).

(** One constructor per [print] of the script. *)
Inductive Line :=
| WarnDirectoryNotFound (dir_path : Path)
    (* "  Warning: Directory not found: {dir_path}" *)
| AnimationFolderNotFound (animation_path : Path)
    (* "Animation folder not found: {animation_path}" *)
| Creating (animation_name source_folder : string)
    (* "\nCreating {animation_name}.png from {source_folder}..." *)
| DirectionFrames (direction : string) (n : Z)
    (* "  {direction}: {len(frames)} frames" *)
| NoFramesFound (animation_name : string)
    (* "  No frames found for {animation_name}" *)
| CreatingSheet (sheet_width sheet_height max_frames : Z)
    (* "  Creating {sheet_width}x{sheet_height} sprite sheet (...)" *)
| ErrorLoading (frame_path : Path) (e : Exn)
    (* "  Error loading {frame_path}: {e}" *)
| Saved (output_path : Path)
    (* "  Saved: {output_path}" *)
| Rule
    (* "=" * 60 *)
| Title
    (* "DefaultMale Sprite Sheet Generator" *)
| ScriptDirectory
    (* "Script directory: {script_dir}" *)
| OutputDirectory (output_dir : Path)
    (* "Output directory: {output_dir}" *)
| Done (success_count total : Z)
    (* "Done! Created {success_count}/{len(ANIMATIONS)} sprite sheets." *)
| SavedTo (output_dir : Path).
    (* "Sprite sheets saved to: {output_dir}" *)

Record World := mkWorld {
  fs : Node;
  stdout : list Line
}.

Inductive Outcome (A : Type) :=
| Ret (a : A)
| Exc (e : Exn).
Arguments Ret {A} a.
Arguments Exc {A} e.

Definition Py (A : Type) : Type := World -> Outcome A * World.

Definition ret {A} (a : A) : Py A := fun w => (Ret a, w).

Definition raise {A} (e : Exn) : Py A := fun w => (Exc e, w).

Definition bind {A B} (m : Py A) (k : A -> Py B) : Py B :=
  fun w =>
    match m w with
    | (Ret a, w') => k a w'
    | (Exc e, w') => (Exc e, w')
    end.

(** [try: m  except Exception as e: h e] *)
Definition try_except {A} (m : Py A) (h : Exn -> Py A) : Py A :=
  fun w =>
    match m w with
    | (Ret a, w') => (Ret a, w')
    | (Exc e, w') => h e w'
    end.

#[export] Instance Py_ret : MRet Py := @ret.
#[export] Instance Py_bind : MBind Py := fun A B k m => bind m k.

(** A [for] loop that threads the variables it assigns ([s]) through its
    iterations; an exception leaves the loop. *)
Fixpoint for_each {A S} (body : S -> A -> Py S) (s : S) (l : list A) : Py S :=
  match l with
  | [] => ret s
  | a :: l' => bind (body s a) (fun s' => for_each body s' l')
  end.

(** [enumerate(l)] *)
Fixpoint enumerate_from {A} (k : Z) (l : list A) : list (Z * A) :=
  match l with
  | [] => []
  | a :: l' => (k, a) :: enumerate_from (k + 1) l'
  end.

Definition enumerate {A} (l : list A) : list (Z * A) := enumerate_from 0 l.

(** [len(l)] *)
Definition len {A} (l : list A) : Z := Z.of_nat (length l).

(** ** Library calls *)

Definition print (l : Line) : Py unit :=
  fun w => (Ret tt, mkWorld (fs w) (stdout w ++ [l])).

(** [os.path.exists(p)] *)
Definition os_path_exists (p : Path) : Py bool :=
  fun w => (Ret (bool_decide (is_Some (lookup_path (fs w) p))), w).

(** [os.listdir(p)]: the entry names, in the order the system gives them. *)
Definition os_listdir (p : Path) : Py (list string) :=
  fun w =>
    match lookup_path (fs w) p with
    | Some (Dir es) => (Ret (map fst (map_to_list es)), w)
    | Some (File _) => (Exc (NotADirectoryError p), w)
    | None => (Exc (FileNotFoundError p), w)
    end.

(** [Image.open(p)], with the decoding that [paste] triggers.  For a
    file that is no image, [UnidentifiedImageError] stands for whichever
    exception PIL raises on opening or on loading it: the script catches
    every [Exception] alike and only prints it. *)
Definition Image_open (p : Path) : Py Image :=
  fun w =>
    match lookup_path (fs w) p with
    | Some (File (Some img)) => (Ret img, w)
    | Some (File None) => (Exc (UnidentifiedImageError p), w)
    | Some (Dir _) => (Exc (IsADirectoryError p), w)
    | None => (Exc (FileNotFoundError p), w)
    end.

(** The tree after [os.makedirs(p, exist_ok=True)] below node [n]. *)
Fixpoint makedirs (n : Node) (p q : Path) : Exn + Node :=
  match p with
  | [] =>
      match n with
      | Dir _ => inr n
      | File _ => inl (FileExistsError q)
      end
  | c :: p' =>
      match n with
      | File _ => inl (NotADirectoryError q)
      | Dir es =>
          match makedirs (default (Dir ∅) (es !! c)) p' q with
          | inr child => inr (Dir (<[c := child]> es))
          | inl e => inl e
          end
      end
  end.

Definition os_makedirs (p : Path) : Py unit :=
  fun w =>
    match makedirs (fs w) p p with
    | inr n => (Ret tt, mkWorld n (stdout w))
    | inl e => (Exc e, w)
    end.

(** The tree after a file is opened for writing at [p] below [n] and
    [data] is written to it. *)
Fixpoint write_file (n : Node) (p q : Path) (data : option Image) : Exn + Node :=
  match p with
  | [] =>
      match n with
      | File _ => inr (File data)
      | Dir _ => inl (IsADirectoryError q)
      end
  | c :: p' =>
      match n with
      | File _ => inl (NotADirectoryError q)
      | Dir es =>
          match es !! c, p' with
          | Some child, _ =>
              match write_file child p' q data with
              | inr child' => inr (Dir (<[c := child']> es))
              | inl e => inl e
              end
          | None, [] => inr (Dir (<[c := File data]> es))
          | None, _ :: _ => inl (FileNotFoundError q)
          end
      end
  end.

(** [sheet.save(p, "PNG")]: PNG stores an RGBA image without loss, so the
    file decodes to [sheet] again. *)
Definition Image_save (sheet : Image) (p : Path) : Py unit :=
  fun w =>
    match write_file (fs w) p p (Some sheet) with
    | inr n => (Ret tt, mkWorld n (stdout w))
    | inl e => (Exc e, w)
    end.

(** ** The script *)

Definition FRAME_WIDTH : Z := 104.
Definition FRAME_HEIGHT : Z := 104.

Definition DIRECTIONS : list string :=
  [ "south"; "south-east"; "east"; "north-east";
    "north"; "north-west"; "west"; "south-west" ].

(** Output name -> source folder name; a [dict], iterated in insertion
    order. *)
Definition ANIMATIONS : list (string * string) :=
  [ ("idle", "breathing-idle"); ("walk", "walk"); ("run", "running-6-frames") ].

(** [s.startswith(t)] *)
Definition startswith (s t : string) : bool := String.prefix t s.

(** [s.endswith(t)] *)
Definition endswith (s t : string) : bool :=
  (String.length t <=? String.length s)%nat &&
  String.eqb (String.substring (String.length s - String.length t) (String.length t) s) t.

(** The order of [str] comparison: lexicographic on the characters. *)
Definition str_le (s t : string) : Prop := String.leb s t = true.

#[export] Instance str_le_dec : RelDecision str_le.
Proof. intros s t. unfold str_le. apply _. Defined.

(** [files.sort()] *)
Definition sort (files : list string) : list string := merge_sort str_le files.

Definition is_frame_name (f : string) : bool :=
  startswith f "frame_" && endswith f ".png".

Definition get_frame_files (animation_path : Path) (direction : string)
  : Py (list Path) :=
  let dir_path := path_join animation_path direction in
  ex ← os_path_exists dir_path;
  if negb ex then
    print (WarnDirectoryNotFound dir_path);;
    mret []
  else
    names ← os_listdir dir_path;
    let files := List.filter is_frame_name names in
    let files := sort files in
    mret (map (path_join dir_path) files).

(** [d[k]] *)
Definition dict_get {V} (d : gmap string V) (k : string) : Py V :=
  match d !! k with
  | Some v => mret v
  | None => raise (KeyError k)
  end.

(** The body of the first loop of [create_spritesheet]; the loop assigns
    [max_frames] and [direction_frames]. *)
Definition scan_direction (animation_path : Path)
    (s : Z * gmap string (list Path)) (direction : string)
  : Py (Z * gmap string (list Path)) :=
  let '(max_frames, direction_frames) := s in
  frames ← get_frame_files animation_path direction;
  let direction_frames := <[direction := frames]> direction_frames in
  let max_frames := Z.max max_frames (len frames) in
  print (DirectionFrames direction (len frames));;
  mret (max_frames, direction_frames).

(** The body of the inner loop over [enumerate(frames)]; [paste] changes
    the sheet in place, so the loop threads the sheet. *)
Definition paste_frame (row : Z) (spritesheet : Image) (cf : Z * Path)
  : Py Image :=
  let '(col, frame_path) := cf in
  try_except
    (frame ← Image_open frame_path;
     let x := col * FRAME_WIDTH in
     let y := row * FRAME_HEIGHT in
     mret (paste spritesheet frame (x, y)))
    (fun e =>
       print (ErrorLoading frame_path e);;
       mret spritesheet).

(** The body of the outer loop over [enumerate(DIRECTIONS)]. *)
Definition paste_direction (direction_frames : gmap string (list Path))
    (spritesheet : Image) (rd : Z * string) : Py Image :=
  let '(row, direction) := rd in
  frames ← dict_get direction_frames direction;
  for_each (paste_frame row) spritesheet (enumerate frames).

Definition create_spritesheet (animation_name source_folder : string)
    (output_path : Path) : Py bool :=
  let animations_path := path_join [] "animations" in
  let animation_path := path_join animations_path source_folder in
  ex ← os_path_exists animation_path;
  if negb ex then
    print (AnimationFolderNotFound animation_path);;
    mret false
  else
    print (Creating animation_name source_folder);;
    '(max_frames, direction_frames) ←
      for_each (scan_direction animation_path) (0, ∅) DIRECTIONS;
    if max_frames =? 0 then
      print (NoFramesFound animation_name);;
      mret false
    else
      let sheet_width := max_frames * FRAME_WIDTH in
      let sheet_height := len DIRECTIONS * FRAME_HEIGHT in
      print (CreatingSheet sheet_width sheet_height max_frames);;
      let spritesheet := Image_new (sheet_width, sheet_height) transparent in
      spritesheet ←
        for_each (paste_direction direction_frames) spritesheet
                 (enumerate DIRECTIONS);
      os_makedirs (dirname output_path);;
      Image_save spritesheet output_path;;
      print (Saved output_path);;
      mret true.

Definition output_dir : Path := path_join [] "spritesheets".

(** The body of the loop of [main]; the loop assigns [success_count]. *)
Definition process_animation (success_count : Z) (a : string * string)
  : Py Z :=
  let '(output_name, source_folder) := a in
  let output_path := path_join output_dir (output_name ++ ".png")%string in
  ok ← create_spritesheet output_name source_folder output_path;
  let success_count :=
    if ok : bool then success_count + 1 else success_count in
  mret success_count.

Definition main : Py unit :=
  print Rule;;
  print Title;;
  print Rule;;
  print ScriptDirectory;;
  print (OutputDirectory output_dir);;
  let success_count := 0 in
  success_count ← for_each process_animation success_count ANIMATIONS;
  print Rule;;
  print (Done success_count (len ANIMATIONS));;
  print (SavedTo output_dir);;
  print Rule.

(** ** Reading the tree: what the script finds, as functions of the tree *)

(** The image that [Image.open] and [paste] get out of [p], if any. *)
Definition decode (root : Node) (p : Path) : option Image :=
  match lookup_path root p with
  | Some (File (Some img)) => Some img
  | _ => None
  end.

(** The exception of [Image.open] at [p] when there is no image. *)
Definition open_error (root : Node) (p : Path) : Exn :=
  match lookup_path root p with
  | Some (File _) => UnidentifiedImageError p
  | Some (Dir _) => IsADirectoryError p
  | None => FileNotFoundError p
  end.

(** The frame names of a direction directory, sorted. *)
Definition frame_names (root : Node) (dir_path : Path) : list string :=
  match lookup_path root dir_path with
  | Some (Dir es) => sort (List.filter is_frame_name (map fst (map_to_list es)))
  | _ => []
  end.

Definition frames_at (root : Node) (animation_path : Path) (direction : string)
  : list Path :=
  map (path_join (path_join animation_path direction))
      (frame_names root (path_join animation_path direction)).

(** The largest frame count of the directions [l], starting from [m]:
    the value of [max_frames] after the first loop. *)
Definition max_count (root : Node) (animation_path : Path)
    (l : list string) (m : Z) : Z :=
  fold_left (fun m d => Z.max m (len (frames_at root animation_path d))) l m.

(** The value of [direction_frames] after the first loop. *)
Definition frames_dict (root : Node) (animation_path : Path)
    (l : list string) (df : gmap string (list Path)) : gmap string (list Path) :=
  fold_left (fun df d => <[d := frames_at root animation_path d]> df) l df.

(** What one iteration of the first loop prints. *)
Definition scan_line (root : Node) (animation_path : Path) (d : string)
  : list Line :=
  match lookup_path root (path_join animation_path d) with
  | None => [WarnDirectoryNotFound (path_join animation_path d)]
  | Some _ => []
  end ++ [DirectionFrames d (len (frames_at root animation_path d))].

Definition scan_lines (root : Node) (animation_path : Path) (l : list string)
  : list Line :=
  flat_map (scan_line root animation_path) l.

(** A paste that the second loop attempts: row, column, frame file. *)
Definition Job : Type := Z * Z * Path.

Definition row_jobs (row : Z) (frames : list Path) : list Job :=
  map (fun cf : Z * Path => (row, fst cf, snd cf)) (enumerate frames).

(** The pastes of the second loop, in the order it attempts them. *)
Definition jobs_from (root : Node) (animation_path : Path)
    (rows : list (Z * string)) : list Job :=
  flat_map (fun rd : Z * string =>
              row_jobs (fst rd) (frames_at root animation_path (snd rd))) rows.

Definition jobs_of (root : Node) (animation_path : Path) : list Job :=
  jobs_from root animation_path (enumerate DIRECTIONS).

(** The effect of one attempt on the sheet. *)
Definition apply_job (root : Node) (sheet : Image) (j : Job) : Image :=
  let '(row, col, frame_path) := j in
  match decode root frame_path with
  | Some frame => paste sheet frame (col * FRAME_WIDTH, row * FRAME_HEIGHT)
  | None => sheet
  end.

(** What one attempt prints. *)
Definition job_line (root : Node) (j : Job) : list Line :=
  let '(_, _, frame_path) := j in
  match decode root frame_path with
  | Some _ => []
  | None => [ErrorLoading frame_path (open_error root frame_path)]
  end.

(** The folder of an animation, as [create_spritesheet] computes it. *)
Definition animation_path_of (source_folder : string) : Path :=
  path_join (path_join [] "animations") source_folder.

(** Every direction entry of the animation folder that exists can be
    listed: none of them is a plain file. *)
Definition listable (root : Node) (animation_path : Path) : Prop :=
  forall d c, d ∈ DIRECTIONS ->
    lookup_path root (path_join animation_path d) <> Some (File c).

(** The value of [max_frames] after the first loop. *)
Definition max_frames_of (root : Node) (animation_path : Path) : Z :=
  max_count root animation_path DIRECTIONS 0.

(** The sheet that [Image.new] allocates. *)
Definition blank_sheet (max_frames : Z) : Image :=
  Image_new (max_frames * FRAME_WIDTH, len DIRECTIONS * FRAME_HEIGHT) transparent.

(** The sheet after the second loop. *)
Definition sheet_of (root : Node) (animation_path : Path) : Image :=
  fold_left (apply_job root) (jobs_of root animation_path)
            (blank_sheet (max_frames_of root animation_path)).

(** What [create_spritesheet] prints up to the end of the second loop. *)
Definition compose_lines (root : Node) (animation_name source_folder : string)
  : list Line :=
  let animation_path := animation_path_of source_folder in
  let max_frames := max_frames_of root animation_path in
  [Creating animation_name source_folder] ++
  scan_lines root animation_path DIRECTIONS ++
  [CreatingSheet (max_frames * FRAME_WIDTH) (len DIRECTIONS * FRAME_HEIGHT)
                 max_frames] ++
  flat_map (job_line root) (jobs_of root animation_path).

(** Whether the attempt [j] paints the pixel [(px, py)] of a sheet that
    contains it: the frame decodes and its box covers the pixel. *)
Definition job_covers (root : Node) (j : Job) (px py : Z) : bool :=
  let '(row, col, frame_path) := j in
  match decode root frame_path with
  | Some frame =>
      in_box (col * FRAME_WIDTH) (row * FRAME_HEIGHT)
             (width frame) (height frame) px py
  | None => false
  end.

(** Row-major order of the attempts. *)
Definition job_lt (j j' : Job) : Prop :=
  fst (fst j) < fst (fst j') \/
  (fst (fst j) = fst (fst j') /\ snd (fst j) < snd (fst j')).

(** The pixel [(px, py)] lies in the cell of column [col] and row [row]. *)
Definition in_cell (col row px py : Z) : bool :=
  in_box (col * FRAME_WIDTH) (row * FRAME_HEIGHT) FRAME_WIDTH FRAME_HEIGHT px py.

(** The output location can be written: [os.makedirs] of its directory
    and opening the file for writing both succeed. *)
Definition writable (root : Node) (output_path : Path) : bool :=
  match makedirs root (dirname output_path) (dirname output_path) with
  | inr n =>
      match write_file n output_path output_path None with
      | inr _ => true
      | inl _ => false
      end
  | inl _ => false
  end.

(** The tree after [os.makedirs] of the directory of [output_path] and
    the save of [sheet] to it, when both succeed. *)
Definition saved (root : Node) (output_path : Path) (sheet : Image) : Node :=
  match makedirs root (dirname output_path) (dirname output_path) with
  | inr n =>
      match write_file n output_path output_path (Some sheet) with
      | inr n' => n'
      | inl _ => root
      end
  | inl _ => root
  end.

(** The output file of an animation, as [main] computes it. *)
Definition output_path_of (output_name : string) : Path :=
  path_join output_dir (output_name ++ ".png")%string.

(** The first loop of [create_spritesheet] completes and finds a frame:
    the source folder exists, every direction entry in it can be listed,
    and some direction has a frame file. *)
Definition has_frames (root : Node) (source_folder : string) : Prop :=
  is_Some (lookup_path root (animation_path_of source_folder)) /\
  listable root (animation_path_of source_folder) /\
  0 < max_frames_of root (animation_path_of source_folder).

(** The animation has frames and its sheet can be written. *)
Definition ready (root : Node) (output_name source_folder : string) : Prop :=
  has_frames root source_folder /\
  writable root (output_path_of output_name) = true.

(** Every frame of the animation that decodes has at most the size of a
    cell (the script documents frames of 104x104 pixels). *)
Definition frames_fit (root : Node) (animation_path : Path) : Prop :=
  forall j img,
    j ∈ jobs_of root animation_path ->
    decode root (snd j) = Some img ->
    width img <= FRAME_WIDTH /\ height img <= FRAME_HEIGHT.

(** The first loop stops at the first direction entry that is a plain
    file: [os.listdir] raises there.  The exception, and what the loop has
    printed before it. *)
Fixpoint scan_failure (root : Node) (animation_path : Path) (l : list string)
  : option (Exn * list Line) :=
  match l with
  | [] => None
  | d :: l' =>
      match lookup_path root (path_join animation_path d) with
      | Some (File _) =>
          Some (NotADirectoryError (path_join animation_path d), [])
      | _ =>
          match scan_failure root animation_path l' with
          | Some (e, lines) =>
              Some (e, scan_line root animation_path d ++ lines)
          | None => None
          end
      end
  end.

(** What [create_spritesheet] has done when it reaches the save, or
    leaves before it. *)
Inductive Verdict :=
| Skipped (lines : list Line)               (* [return False] *)
| Failed (e : Exn) (lines : list Line)      (* an exception of the first loop *)
| Composed (sheet : Image) (lines : list Line).

Definition verdict (root : Node) (animation_name source_folder : string)
  : Verdict :=
  let ap := animation_path_of source_folder in
  match lookup_path root ap with
  | None => Skipped [AnimationFolderNotFound ap]
  | Some _ =>
      match scan_failure root ap DIRECTIONS with
      | Some (e, lines) =>
          Failed e ([Creating animation_name source_folder] ++ lines)
      | None =>
          if max_frames_of root ap =? 0 then
            Skipped ([Creating animation_name source_folder] ++
                     scan_lines root ap DIRECTIONS ++
                     [NoFramesFound animation_name])
          else
            Composed (sheet_of root ap)
                     (compose_lines root animation_name source_folder)
      end
  end.

(** Two trees hold the same below [animations/]. *)
Definition same_inputs (root root' : Node) : Prop :=
  forall q, lookup_path root (path_join [] "animations" ++ q) =
            lookup_path root' (path_join [] "animations" ++ q).

(** What [main] prints before and after its loop. *)
Definition banner : list Line :=
  [Rule; Title; Rule; ScriptDirectory; OutputDirectory output_dir].

Definition summary (success_count : Z) : list Line :=
  [Rule; Done success_count (len ANIMATIONS); SavedTo output_dir; Rule].

(** ** Checks by computation *)

(** A check of [has_frames] by computation. *)
Definition has_framesb (root : Node) (source_folder : string) : bool :=
  let ap := animation_path_of source_folder in
  bool_decide (is_Some (lookup_path root ap)) &&
  match scan_failure root ap DIRECTIONS with None => true | Some _ => false end &&
  (0 <? max_frames_of root ap).

(** A check of [frames_fit] by computation. *)
Definition frames_fitb (root : Node) (animation_path : Path) : bool :=
  forallb (fun j : Job =>
             match decode root (snd j) with
             | Some img =>
                 (width img <=? FRAME_WIDTH) && (height img <=? FRAME_HEIGHT)
             | None => true
             end)
          (jobs_of root animation_path).

(** ** Example trees *)

Definition white : Pixel := mkPixel 255 255 255 255.
Definition red_px : Pixel := mkPixel 255 0 0 255.

(** A one-colour image. *)
Definition solid (w h : Z) (c : Pixel) : Image := mkImage w h (fun _ _ => c).

(** [animations/walk/south] holds two frames in the naming convention,
    one of which does not decode, and two other entries; no other
    direction and no other animation exists. *)
Definition walk_south : gmap string Node :=
  {[ "frame_00.png" := File (Some (solid 104 104 white));
     "frame_01.png" := File None;
     "notes.txt" := File None;
     "frame_02.jpg" := File None ]}.

Definition walk_only : Node :=
  Dir {[ "animations" := Dir {[ "walk" := Dir {[ "south" := Dir walk_south ]} ]} ]}.

(** Every frame of [animations/walk/south] fails to decode. *)
Definition walk_broken : Node :=
  Dir {[ "animations" :=
           Dir {[ "walk" :=
                    Dir {[ "south" :=
                             Dir {[ "frame_00.png" := File None;
                                    "frame_01.png" := File None ]} ]} ]} ]}.

(** [animations/walk] exists and has two direction directories without
    frames. *)
Definition walk_empty : Node :=
  Dir {[ "animations" :=
           Dir {[ "walk" :=
                    Dir {[ "south" := Dir {[ "notes.txt" := File None ]};
                           "north" := Dir ∅ ]} ]} ]}.

(** Three animations with one frame each; [spritesheets/walk.png] exists
    and is a directory. *)
Definition one_frame : Node :=
  Dir {[ "south" := Dir {[ "frame_00.png" := File (Some (solid 104 104 white)) ]} ]}.

Definition walk_png_is_directory : Node :=
  Dir {[ "animations" :=
           Dir {[ "breathing-idle" := one_frame;
                  "walk" := one_frame;
                  "running-6-frames" := one_frame ]};
         "spritesheets" := Dir {[ "walk.png" := Dir ∅ ]} ]}.

(** [animations/walk] is missing; the other two animations have a frame. *)
Definition walk_missing : Node :=
  Dir {[ "animations" :=
           Dir {[ "breathing-idle" := one_frame;
                  "running-6-frames" := one_frame ]} ]}.

(** [animations/walk/south] holds a frame of 208x104 pixels followed by
    a frame that does not decode. *)
Definition wide_then_broken : Node :=
  Dir {[ "animations" :=
           Dir {[ "walk" :=
                    Dir {[ "south" :=
                             Dir {[ "frame_00.png" :=
                                      File (Some (solid 208 104 white));
                                    "frame_01.png" := File None ]} ]} ]} ]}.

(** [animations/walk/south] holds a frame of 208x104 pixels followed by
    a frame of 50x50 pixels. *)
Definition wide_then_small : Node :=
  Dir {[ "animations" :=
           Dir {[ "walk" :=
                    Dir {[ "south" :=
                             Dir {[ "frame_00.png" :=
                                      File (Some (solid 208 104 white));
                                    "frame_01.png" :=
                                      File (Some (solid 50 50 red_px)) ]} ]} ]} ]}.

(** The example of the specification: [animations/walk/south] holds two
    opaque white frames of 104x104 pixels and nothing else exists. *)
Definition two_white_frames : Node :=
  Dir {[ "animations" :=
           Dir {[ "walk" :=
                    Dir {[ "south" :=
                             Dir {[ "frame_00.png" :=
                                      File (Some (solid 104 104 white));
                                    "frame_01.png" :=
                                      File (Some (solid 104 104 white)) ]} ]} ]} ]}.

(** ** Further conditions and example trees *)

(** The animation is skipped: its folder is missing, or exists and yields
    no frame in any direction. *)
Definition skips (root : Node) (source_folder : string) : Prop :=
  lookup_path root (animation_path_of source_folder) = None \/
  (is_Some (lookup_path root (animation_path_of source_folder)) /\
   listable root (animation_path_of source_folder) /\
   max_frames_of root (animation_path_of source_folder) = 0).

(** The "Saved" lines of an output, and the frame path that an "Error
    loading" line names. *)
Definition is_saved_line (l : Line) : bool :=
  match l with Saved _ => true | _ => false end.

Definition error_path (l : Line) : option Path :=
  match l with ErrorLoading frame_path _ => Some frame_path | _ => None end.

(** The frame file at [p] does not decode. *)
Definition undecodable (root : Node) (p : Path) : bool :=
  match decode root p with Some _ => false | None => true end.

(** [animations/walk] has a frame in [south]; its entry [east] is a plain
    file. *)
Definition east_is_file : Node :=
  Dir {[ "animations" :=
           Dir {[ "walk" :=
                    Dir {[ "south" :=
                             Dir {[ "frame_00.png" :=
                                      File (Some (solid 104 104 white)) ]};
                           "east" := File None ]} ]} ]}.

(** [animations/walk] is a plain file. *)
Definition walk_is_file : Node :=
  Dir {[ "animations" := Dir {[ "walk" := File None ]} ]}.

(** [animations/walk/south] holds a frame and a directory that is named
    like a frame. *)
Definition frame_named_directory : Node :=
  Dir {[ "animations" :=
           Dir {[ "walk" :=
                    Dir {[ "south" :=
                             Dir {[ "frame_00.png" :=
                                      File (Some (solid 104 104 white));
                                    "frame_01.png" := Dir ∅ ]} ]} ]} ]}.

(** Whether a node is a directory, as [os.path.isdir] tells. *)
Definition is_dir (n : Node) : bool :=
  match n with Dir _ => true | File _ => false end.

(** A tree without [animations]. *)
Definition no_animations : Node := Dir {[ "readme.txt" := File None ]}.

(** Two trees hold the same for an animation folder as far as the
    script looks at it: the folder exists in both or in neither; each of
    the eight direction entries is missing, a file or a directory in both;
    and each entry of those with a frame name is missing, a file or a
    directory in both and decodes to the same image, if to any. *)
Definition same_frames (root root' : Node) (animation_path : Path) : Prop :=
  (is_Some (lookup_path root animation_path) <->
   is_Some (lookup_path root' animation_path)) /\
  (forall d, d ∈ DIRECTIONS ->
     is_dir <$> lookup_path root (path_join animation_path d) =
     is_dir <$> lookup_path root' (path_join animation_path d)) /\
  (forall d f, d ∈ DIRECTIONS -> is_frame_name f = true ->
     is_dir <$> lookup_path root (path_join (path_join animation_path d) f) =
     is_dir <$> lookup_path root' (path_join (path_join animation_path d) f) /\
     decode root (path_join (path_join animation_path d) f) =
     decode root' (path_join (path_join animation_path d) f)).

(** The frames of [walk_only] without the other entries of [south], and
    with a direction [up] that the script does not know. *)
Definition plain_south : gmap string Node :=
  {[ "frame_00.png" := File (Some (solid 104 104 white));
     "frame_01.png" := File None ]}.

Definition walk_plain : Node :=
  Dir {[ "animations" :=
           Dir {[ "walk" :=
                    Dir {[ "south" := Dir plain_south;
                           "up" := Dir {[ "frame_00.png" :=
                                            File (Some (solid 104 104 red_px)) ]};
                           "license.txt" := File None ]} ]} ]}.

(** ** Strings *)

Lemma append_cons c s t : (String c s ++ t)%string = String c (s ++ t)%string.
Proof. reflexivity. Qed.

Lemma append_empty t : (EmptyString ++ t)%string = t.
Proof. reflexivity. Qed.

Lemma startswith_spec s t :
  startswith s t = true <-> exists r, s = (t ++ r)%string.
Proof.
  unfold startswith. revert s.
  induction t as [|c t IH]; intros s.
  - destruct s; simpl; split; eauto.
  - destruct s as [|c' s]; simpl.
    + split; [discriminate | intros [r Hr]; discriminate].
    + destruct (Ascii.ascii_dec c c') as [->|Hne].
      * rewrite IH. split; intros [r Hr]; exists r;
          rewrite append_cons in *; congruence.
      * split; [discriminate | intros [r Hr]; rewrite append_cons in Hr; congruence].
Qed.

Lemma substring_at_length pre t :
  String.substring (String.length pre) (String.length t) (pre ++ t)%string = t.
Proof.
  induction pre as [|c pre IH].
  - rewrite append_empty. simpl.
    induction t as [|c t IHt]; simpl; [reflexivity | by rewrite IHt].
  - rewrite append_cons. simpl. exact IH.
Qed.

Lemma string_split_at n s :
  (n <= String.length s)%nat ->
  s = (String.substring 0 n s ++ String.substring n (String.length s - n) s)%string.
Proof.
  revert n. induction s as [|c s IH]; intros n Hn.
  - destruct n; [reflexivity | simpl in Hn; lia].
  - destruct n as [|n].
    + simpl String.substring at 1. rewrite append_empty.
      simpl. f_equal.
      specialize (IH 0%nat ltac:(lia)).
      rewrite Nat.sub_0_r in IH.
      destruct s; simpl in *; [reflexivity | rewrite append_empty in IH; congruence].
    + simpl in *. rewrite append_cons. f_equal. apply IH. lia.
Qed.

Lemma string_length_app s t :
  String.length (s ++ t)%string = (String.length s + String.length t)%nat.
Proof.
  induction s; [reflexivity|]. rewrite append_cons. simpl. congruence.
Qed.

Lemma endswith_spec s t :
  endswith s t = true <-> exists r, s = (r ++ t)%string.
Proof.
  unfold endswith. rewrite andb_true_iff, Nat.leb_le, String.eqb_eq. split.
  - intros [Hlen Hsub].
    exists (String.substring 0 (String.length s - String.length t) s).
    pose proof (string_split_at (String.length s - String.length t) s
                  ltac:(lia)) as Hs.
    replace (String.length s - (String.length s - String.length t))%nat
      with (String.length t) in Hs by lia.
    by rewrite Hsub in Hs.
  - intros [r ->]. rewrite string_length_app. split; [lia|].
    replace (String.length r + String.length t - String.length t)%nat
      with (String.length r) by lia.
    apply substring_at_length.
Qed.

Lemma is_frame_name_spec f :
  is_frame_name f = true <->
  (exists r, f = ("frame_" ++ r)%string) /\ (exists r, f = (r ++ ".png")%string).
Proof.
  unfold is_frame_name.
  by rewrite andb_true_iff, startswith_spec, endswith_spec.
Qed.

(** The order of [str] is a total order. *)

Lemma ascii_compare_refl c : Ascii.compare c c = Eq.
Proof. unfold Ascii.compare. apply N.compare_refl. Qed.

Lemma ascii_compare_lt_trans a b c :
  Ascii.compare a b = Lt -> Ascii.compare b c = Lt -> Ascii.compare a c = Lt.
Proof. unfold Ascii.compare. rewrite !N.compare_lt_iff. lia. Qed.

Lemma string_compare_lt_trans s t u :
  String.compare s t = Lt -> String.compare t u = Lt -> String.compare s u = Lt.
Proof.
  revert t u. induction s as [|a s IH]; intros [|b t] [|c u]; simpl; try done.
  destruct (Ascii.compare a b) eqn:Hab; try done;
    destruct (Ascii.compare b c) eqn:Hbc; try done.
  - apply Ascii.compare_eq_iff in Hab, Hbc. subst.
    rewrite ascii_compare_refl. apply IH.
  - apply Ascii.compare_eq_iff in Hab. subst. by rewrite Hbc.
  - apply Ascii.compare_eq_iff in Hbc. subst. by rewrite Hab.
  - by rewrite (ascii_compare_lt_trans _ _ _ Hab Hbc).
Qed.

Lemma string_compare_refl s : String.compare s s = Eq.
Proof. induction s; simpl; [done|]. by rewrite ascii_compare_refl. Qed.

#[export] Instance str_le_total : Total str_le.
Proof. intros s t. apply String.leb_total. Qed.

#[export] Instance str_le_antisymm : AntiSymm (=) str_le.
Proof. intros s t. apply String.leb_antisym. Qed.

#[export] Instance str_le_trans : Transitive str_le.
Proof.
  intros s t u. unfold str_le, String.leb.
  destruct (String.compare s t) eqn:Hst; try done;
    destruct (String.compare t u) eqn:Htu; try done; intros _ _.
  - apply String.compare_eq_iff in Hst, Htu. subst.
    by rewrite string_compare_refl.
  - apply String.compare_eq_iff in Hst. subst. by rewrite Htu.
  - apply String.compare_eq_iff in Htu. subst. by rewrite Hst.
  - by rewrite (string_compare_lt_trans _ _ _ Hst Htu).
Qed.

(** [str_le] compares the first characters, then the rest. *)
Lemma str_le_cons a s b t :
  str_le (String a s) (String b t) <->
  Ascii.compare a b = Lt \/ (a = b /\ str_le s t).
Proof.
  unfold str_le, String.leb. simpl.
  destruct (Ascii.compare a b) eqn:Hab.
  - apply Ascii.compare_eq_iff in Hab. subst. split; [auto | intros [?|[_ ?]]; done].
  - split; auto.
  - split; [done | intros [?|[-> _]]; [done|]].
    by rewrite ascii_compare_refl in Hab.
Qed.

(** ** Running computations *)

Ltac py_unfold :=
  unfold mbind, Py_bind, mret, Py_ret, bind, ret, raise, try_except, print.

Lemma bind_run {A B} (m : Py A) (k : A -> Py B) w :
  (m ≫= k) w =
  match m w with
  | (Ret a, w') => k a w'
  | (Exc e, w') => (Exc e, w')
  end.
Proof. reflexivity. Qed.

Lemma for_each_app {A S} (body : S -> A -> Py S) s l1 l2 w :
  for_each body s (l1 ++ l2) w =
  match for_each body s l1 w with
  | (Ret s', w') => for_each body s' l2 w'
  | (Exc e, w') => (Exc e, w')
  end.
Proof.
  revert s w. induction l1 as [|a l1 IH]; intros s w; simpl; [done|].
  unfold bind. destruct (body s a w) as [[s'|e] w']; [apply IH | done].
Qed.

(** ** Frame discovery *)

Lemma get_frame_files_run animation_path direction w :
  get_frame_files animation_path direction w =
  match lookup_path (fs w) (path_join animation_path direction) with
  | None =>
      (Ret [], mkWorld (fs w)
                 (stdout w ++
                  [WarnDirectoryNotFound (path_join animation_path direction)]))
  | Some (Dir _) => (Ret (frames_at (fs w) animation_path direction), w)
  | Some (File _) =>
      (Exc (NotADirectoryError (path_join animation_path direction)), w)
  end.
Proof.
  unfold get_frame_files, frames_at, frame_names.
  py_unfold. unfold os_path_exists, os_listdir.
  destruct (lookup_path (fs w) (path_join animation_path direction))
    as [[c|es]|] eqn:Hl; simpl; by rewrite ?Hl.
Qed.

Lemma sort_elem_of (l : list string) f : f ∈ sort l <-> f ∈ l.
Proof. unfold sort. by rewrite merge_sort_Permutation. Qed.

Lemma frame_names_elem_of root dir_path es f :
  lookup_path root dir_path = Some (Dir es) ->
  f ∈ frame_names root dir_path <-> is_Some (es !! f) /\ is_frame_name f = true.
Proof.
  intros Hl. unfold frame_names. rewrite Hl, sort_elem_of.
  rewrite list_elem_of_In, filter_In, <- list_elem_of_In.
  rewrite list_elem_of_fmap. split.
  - intros [[[k v] [-> Hkv]] Hf]. split; [|done].
    apply elem_of_map_to_list in Hkv. eauto.
  - intros [[v Hv] Hf]. split; [|done].
    exists (f, v). split; [done|]. by apply elem_of_map_to_list.
Qed.

Lemma filter_NoDup {A} (p : A -> bool) (l : list A) :
  NoDup l -> NoDup (List.filter p l).
Proof.
  induction 1 as [|x l Hx Hl IH]; simpl; [constructor|].
  destruct (p x); [|done].
  constructor; [|done].
  rewrite list_elem_of_In, filter_In, <- list_elem_of_In. tauto.
Qed.

Lemma frame_names_NoDup root dir_path : NoDup (frame_names root dir_path).
Proof.
  unfold frame_names.
  destruct (lookup_path root dir_path) as [[c|es]|]; try constructor.
  unfold sort. rewrite merge_sort_Permutation.
  apply filter_NoDup, NoDup_fst_map_to_list.
Qed.

Lemma frame_names_sorted root dir_path :
  StronglySorted str_le (frame_names root dir_path).
Proof.
  unfold frame_names.
  destruct (lookup_path root dir_path) as [[c|es]|]; try constructor.
  apply StronglySorted_merge_sort; apply _.
Qed.

(** ** The two loops of [create_spritesheet] *)

Lemma print_run l w : print l w = (Ret (), mkWorld (fs w) (stdout w ++ [l])).
Proof. reflexivity. Qed.

Lemma world_eta w : mkWorld (fs w) (stdout w) = w.
Proof. by destruct w. Qed.

Lemma world_app_nil w : mkWorld (fs w) (stdout w ++ []) = w.
Proof. rewrite app_nil_r. apply world_eta. Qed.

Lemma frames_at_missing root animation_path d :
  lookup_path root (path_join animation_path d) = None ->
  frames_at root animation_path d = [].
Proof. intros Hl. unfold frames_at, frame_names. by rewrite Hl. Qed.

Lemma scan_directions_run animation_path l max_frames direction_frames w :
  (forall d c, d ∈ l ->
     lookup_path (fs w) (path_join animation_path d) <> Some (File c)) ->
  for_each (scan_direction animation_path) (max_frames, direction_frames) l w =
  (Ret (max_count (fs w) animation_path l max_frames,
        frames_dict (fs w) animation_path l direction_frames),
   mkWorld (fs w) (stdout w ++ scan_lines (fs w) animation_path l)).
Proof.
  revert max_frames direction_frames w.
  induction l as [|d l IH]; intros m df w Hok.
  - simpl. unfold ret. by rewrite world_app_nil.
  - simpl. unfold bind at 1. unfold scan_direction at 1.
    rewrite bind_run, get_frame_files_run.
    assert (forall c, lookup_path (fs w) (path_join animation_path d)
                      <> Some (File c)) as Hd
        by (intros c; apply Hok; left).
    destruct (lookup_path (fs w) (path_join animation_path d))
      as [[c|es]|] eqn:Hl.
    + by destruct (Hd c).
    + rewrite bind_run, print_run. py_unfold.
      rewrite IH by (intros; apply Hok; by right).
      simpl. unfold scan_line. rewrite Hl. simpl.
      by rewrite <- app_assoc.
    + rewrite bind_run, print_run. py_unfold.
      rewrite IH by (intros; apply Hok; by right).
      simpl. unfold scan_line. rewrite Hl. simpl.
      rewrite (frames_at_missing _ _ _ Hl).
      by rewrite <- !app_assoc.
Qed.

Lemma Image_open_run p w :
  Image_open p w =
  match decode (fs w) p with
  | Some img => (Ret img, w)
  | None => (Exc (open_error (fs w) p), w)
  end.
Proof.
  unfold Image_open, decode, open_error.
  by destruct (lookup_path (fs w) p) as [[[img|]|es]|].
Qed.

Lemma paste_frame_run row sheet col frame_path w :
  paste_frame row sheet (col, frame_path) w =
  (Ret (apply_job (fs w) sheet (row, col, frame_path)),
   mkWorld (fs w) (stdout w ++ job_line (fs w) (row, col, frame_path))).
Proof.
  unfold paste_frame, apply_job, job_line. py_unfold.
  rewrite Image_open_run.
  destruct (decode (fs w) frame_path) as [img|]; simpl; [|done].
  by rewrite world_app_nil.
Qed.

Lemma paste_frames_run row sheet (l : list (Z * Path)) w :
  for_each (paste_frame row) sheet l w =
  (Ret (fold_left (apply_job (fs w))
          (map (fun cf : Z * Path => (row, fst cf, snd cf)) l) sheet),
   mkWorld (fs w)
     (stdout w ++
      flat_map (job_line (fs w))
        (map (fun cf : Z * Path => (row, fst cf, snd cf)) l))).
Proof.
  revert sheet w. induction l as [|[col p] l IH]; intros sheet w.
  - simpl. unfold ret. by rewrite world_app_nil.
  - cbn [for_each]. unfold bind. rewrite paste_frame_run, IH.
    cbn [fs stdout map fold_left flat_map fst snd].
    by rewrite <- app_assoc.
Qed.

Lemma paste_directions_run root animation_path direction_frames rows sheet w :
  fs w = root ->
  (forall rd, rd ∈ rows ->
     direction_frames !! snd rd = Some (frames_at root animation_path (snd rd))) ->
  for_each (paste_direction direction_frames) sheet rows w =
  (Ret (fold_left (apply_job root) (jobs_from root animation_path rows) sheet),
   mkWorld root
     (stdout w ++
      flat_map (job_line root) (jobs_from root animation_path rows))).
Proof.
  revert sheet w. induction rows as [|[row d] rows IH]; intros sheet w Hw Hdf.
  - simpl. unfold ret. subst root. by rewrite world_app_nil.
  - cbn [for_each]. unfold bind. unfold paste_direction at 1.
    rewrite bind_run. unfold dict_get.
    pose proof (Hdf (row, d) ltac:(left)) as Hd. cbn [snd] in Hd.
    rewrite Hd. py_unfold.
    rewrite paste_frames_run, IH; cbn [fs stdout];
      [|done|intros; apply Hdf; by right].
    unfold jobs_from. cbn [flat_map fst snd]. fold (jobs_from root animation_path rows).
    unfold row_jobs. rewrite fold_left_app, flat_map_app, Hw.
    by rewrite <- app_assoc.
Qed.

Lemma frames_dict_other root animation_path l df d :
  d ∉ l -> frames_dict root animation_path l df !! d = df !! d.
Proof.
  revert df. induction l as [|d' l IH]; intros df Hd; [done|].
  simpl. rewrite IH by (intros ?; apply Hd; by right).
  apply lookup_insert_ne. intros ->. apply Hd. left.
Qed.

Lemma frames_dict_lookup root animation_path l df d :
  d ∈ l ->
  frames_dict root animation_path l df !! d = Some (frames_at root animation_path d).
Proof.
  revert df. induction l as [|d' l IH]; intros df Hd; [by inversion Hd|].
  simpl. destruct (decide (d ∈ l)) as [Hin|Hnin]; [by apply IH|].
  rewrite frames_dict_other by done.
  apply elem_of_cons in Hd as [->|?]; [|done].
  apply lookup_insert_eq.
Qed.

(** ** [create_spritesheet], case by case *)

Lemma os_path_exists_run p w :
  os_path_exists p w = (Ret (bool_decide (is_Some (lookup_path (fs w) p))), w).
Proof. reflexivity. Qed.

Lemma create_spritesheet_missing name src out w :
  lookup_path (fs w) (animation_path_of src) = None ->
  create_spritesheet name src out w =
  (Ret false,
   mkWorld (fs w)
     (stdout w ++ [AnimationFolderNotFound (animation_path_of src)])).
Proof.
  intros Hl. unfold create_spritesheet. fold (animation_path_of src).
  rewrite bind_run, os_path_exists_run, Hl.
  rewrite bool_decide_false by (by intros [? ?]).
  reflexivity.
Qed.

Lemma max_count_ge root ap l m : m <= max_count root ap l m.
Proof.
  revert m. induction l as [|d l IH]; intros m; simpl; [lia|].
  etrans; [|apply IH]. lia.
Qed.

Lemma enumerate_from_snd {A} k (l : list A) d :
  d ∈ map snd (enumerate_from k l) <-> d ∈ l.
Proof.
  revert k. induction l as [|a l IH]; intros k; simpl; [done|].
  by rewrite !elem_of_cons, IH.
Qed.

Lemma enumerate_snd_elem_of {A} (l : list A) rd :
  rd ∈ enumerate l -> snd rd ∈ l.
Proof.
  intros H. apply (enumerate_from_snd 0). unfold enumerate in H.
  apply list_elem_of_fmap. eauto.
Qed.

Lemma create_spritesheet_scanned name src out w :
  is_Some (lookup_path (fs w) (animation_path_of src)) ->
  listable (fs w) (animation_path_of src) ->
  create_spritesheet name src out w =
  let root := fs w in
  let ap := animation_path_of src in
  if max_frames_of root ap =? 0 then
    (Ret false,
     mkWorld root
       (stdout w ++ [Creating name src] ++ scan_lines root ap DIRECTIONS ++
        [NoFramesFound name]))
  else
    let w2 := mkWorld root (stdout w ++ compose_lines root name src) in
    (os_makedirs (dirname out);;
     Image_save (sheet_of root ap) out;;
     print (Saved out);;
     mret true) w2.
Proof.
  intros Hex Hls. unfold create_spritesheet. fold (animation_path_of src).
  rewrite bind_run, os_path_exists_run.
  rewrite bool_decide_true by done. cbn [negb].
  rewrite bind_run, print_run, bind_run.
  rewrite scan_directions_run by (cbn [fs]; intros; by apply Hls).
  cbn [fs stdout]. fold (max_frames_of (fs w) (animation_path_of src)).
  cbn zeta.
  destruct (max_frames_of (fs w) (animation_path_of src) =? 0) eqn:Hmax.
  - rewrite bind_run, print_run. cbn [fs stdout]. py_unfold.
    by rewrite <- !app_assoc.
  - rewrite bind_run, print_run. cbn [fs stdout]. rewrite bind_run.
    erewrite (paste_directions_run (fs w) (animation_path_of src)); cycle 1.
    + reflexivity.
    + intros rd Hrd. apply frames_dict_lookup.
      by apply enumerate_snd_elem_of.
    + cbn [fs stdout]. unfold compose_lines, sheet_of, jobs_of, blank_sheet.
      cbn zeta. by rewrite <- !app_assoc.
Qed.

(** ** Pixels of the composed sheet *)

Lemma apply_job_width root sheet j : width (apply_job root sheet j) = width sheet.
Proof. destruct j as [[row col] p]. simpl. by destruct (decode root p). Qed.

Lemma apply_job_height root sheet j : height (apply_job root sheet j) = height sheet.
Proof. destruct j as [[row col] p]. simpl. by destruct (decode root p). Qed.

Lemma fold_jobs_width root jobs sheet :
  width (fold_left (apply_job root) jobs sheet) = width sheet.
Proof.
  revert sheet. induction jobs as [|j jobs IH]; intros sheet; simpl; [done|].
  by rewrite IH, apply_job_width.
Qed.

Lemma fold_jobs_height root jobs sheet :
  height (fold_left (apply_job root) jobs sheet) = height sheet.
Proof.
  revert sheet. induction jobs as [|j jobs IH]; intros sheet; simpl; [done|].
  by rewrite IH, apply_job_height.
Qed.

Lemma apply_job_not_covered root sheet j px py :
  job_covers root j px py = false ->
  pixel (apply_job root sheet j) px py = pixel sheet px py.
Proof.
  destruct j as [[row col] p]. simpl.
  destruct (decode root p) as [img|]; [|done].
  simpl. intros ->. by rewrite andb_false_r.
Qed.

Lemma fold_jobs_not_covered root jobs sheet px py :
  (forall j, j ∈ jobs -> job_covers root j px py = false) ->
  pixel (fold_left (apply_job root) jobs sheet) px py = pixel sheet px py.
Proof.
  revert sheet. induction jobs as [|j jobs IH]; intros sheet Hj; simpl; [done|].
  rewrite IH by (intros; apply Hj; by right).
  apply apply_job_not_covered, Hj. left.
Qed.

Lemma apply_job_covered root sheet row col p img px py :
  decode root p = Some img ->
  in_image sheet px py = true ->
  in_box (col * FRAME_WIDTH) (row * FRAME_HEIGHT) (width img) (height img) px py
    = true ->
  pixel (apply_job root sheet (row, col, p)) px py =
  pixel img (px - col * FRAME_WIDTH) (py - row * FRAME_HEIGHT).
Proof. intros Hd Him Hbox. simpl. rewrite Hd. simpl. by rewrite Him, Hbox. Qed.

(** Positions in [enumerate]. *)
Lemma elem_of_enumerate_from {A} k (l : list A) i a :
  (i, a) ∈ enumerate_from k l <->
  exists n : nat, i = k + Z.of_nat n /\ l !! n = Some a.
Proof.
  revert k. induction l as [|b l IH]; intros k; simpl.
  - rewrite elem_of_nil. split; [done | by intros [n [_ ?]]].
  - rewrite elem_of_cons, IH. split.
    + intros [[= -> ->]|[n [-> Hn]]].
      * exists 0%nat. split; [lia | done].
      * exists (S n). split; [lia | done].
    + intros [[|n] [-> Hn]].
      * left. simpl in Hn. injection Hn as ->. f_equal. lia.
      * right. exists n. split; [lia | done].
Qed.

Lemma elem_of_enumerate {A} (l : list A) i a :
  (i, a) ∈ enumerate l <-> exists n : nat, i = Z.of_nat n /\ l !! n = Some a.
Proof. unfold enumerate. by rewrite elem_of_enumerate_from. Qed.

Lemma elem_of_row_jobs row frames j :
  j ∈ row_jobs row frames <->
  exists (n : nat) p, j = (row, Z.of_nat n, p) /\ frames !! n = Some p.
Proof.
  unfold row_jobs. rewrite list_elem_of_fmap. split.
  - intros [[i p] [-> H]]. apply elem_of_enumerate in H as [n [-> Hn]]. eauto.
  - intros [n [p [-> Hn]]]. exists (Z.of_nat n, p). split; [done|].
    apply elem_of_enumerate. eauto.
Qed.

Lemma elem_of_jobs_from root ap rows j :
  j ∈ jobs_from root ap rows <->
  exists rd, rd ∈ rows /\ j ∈ row_jobs (fst rd) (frames_at root ap (snd rd)).
Proof.
  unfold jobs_from. rewrite list_elem_of_In, in_flat_map.
  by setoid_rewrite list_elem_of_In.
Qed.

Lemma elem_of_jobs_of root ap j :
  j ∈ jobs_of root ap <->
  exists (r : nat) d (i : nat) p,
    j = (Z.of_nat r, Z.of_nat i, p) /\
    DIRECTIONS !! r = Some d /\ frames_at root ap d !! i = Some p.
Proof.
  unfold jobs_of. rewrite elem_of_jobs_from. split.
  - intros [[row d] [Hrd Hj]]. apply elem_of_enumerate in Hrd as [r [-> Hr]].
    apply elem_of_row_jobs in Hj as [i [p [-> Hp]]]. by exists r, d, i, p.
  - intros (r & d & i & p & -> & Hr & Hp). exists (Z.of_nat r, d). split.
    + apply elem_of_enumerate. eauto.
    + apply elem_of_row_jobs. eauto.
Qed.

Lemma enumerate_from_sorted {A} k (l : list A) :
  StronglySorted (fun x y : Z * A => fst x < fst y) (enumerate_from k l).
Proof.
  revert k. induction l as [|a l IH]; intros k; simpl; constructor; [apply IH|].
  apply Forall_forall. intros [i b] Hib.
  apply elem_of_enumerate_from in Hib as [n [-> _]]. simpl. lia.
Qed.

Lemma row_jobs_sorted row frames : StronglySorted job_lt (row_jobs row frames).
Proof.
  unfold row_jobs, enumerate.
  pose proof (enumerate_from_sorted 0 frames) as Hs.
  induction Hs as [|x l Hl IH Hx]; simpl; constructor; [done|].
  rewrite Forall_forall in Hx. apply Forall_forall. intros j Hj.
  apply list_elem_of_fmap in Hj as [y [-> Hy]].
  right. simpl. split; [done | by apply Hx].
Qed.

Lemma jobs_from_sorted root ap k (dirs : list string) :
  StronglySorted job_lt (jobs_from root ap (enumerate_from k dirs)).
Proof.
  revert k. induction dirs as [|d dirs IH]; intros k; [constructor|].
  unfold jobs_from. cbn [enumerate_from flat_map fst snd].
  fold (jobs_from root ap (enumerate_from (k + 1) dirs)).
  apply StronglySorted_app_2; [|apply row_jobs_sorted|apply IH].
  intros j1 j2 H1 H2.
  apply elem_of_row_jobs in H1 as (i & p & -> & _).
  apply elem_of_jobs_from in H2 as ([row d'] & Hrd & Hj).
  apply elem_of_enumerate_from in Hrd as [n [-> _]].
  apply elem_of_row_jobs in Hj as (i' & p' & -> & _).
  left. simpl. lia.
Qed.

Lemma jobs_of_sorted root ap : StronglySorted job_lt (jobs_of root ap).
Proof. apply jobs_from_sorted. Qed.

Lemma max_count_elem root ap l m d :
  d ∈ l -> len (frames_at root ap d) <= max_count root ap l m.
Proof.
  revert m. induction l as [|d' l IH]; intros m Hd; [by inversion Hd|].
  simpl. apply elem_of_cons in Hd as [->|Hd]; [|by apply IH].
  etrans; [|apply max_count_ge]. lia.
Qed.

Lemma max_count_attained root ap l m :
  max_count root ap l m = m \/
  exists d, d ∈ l /\ max_count root ap l m = len (frames_at root ap d).
Proof.
  revert m. induction l as [|d l IH]; intros m; simpl; [by left|].
  destruct (IH (Z.max m (len (frames_at root ap d)))) as [Heq|[d' [Hd' Heq]]].
  - rewrite Heq.
    destruct (Z.max_spec m (len (frames_at root ap d))) as [[_ ->]|[_ ->]].
    + right. exists d. split; [left | done].
    + by left.
  - right. exists d'. split; [by right | done].
Qed.

Lemma frame_index_lt_max root ap d (i : nat) p :
  d ∈ DIRECTIONS -> frames_at root ap d !! i = Some p ->
  Z.of_nat i < max_frames_of root ap.
Proof.
  intros Hd Hp. apply lookup_lt_Some in Hp.
  pose proof (max_count_elem root ap DIRECTIONS 0 d Hd) as Hle.
  unfold max_frames_of, len in *. lia.
Qed.

Lemma blank_sheet_width m : width (blank_sheet m) = m * FRAME_WIDTH.
Proof. reflexivity. Qed.

Lemma blank_sheet_height m : height (blank_sheet m) = 8 * FRAME_HEIGHT.
Proof. reflexivity. Qed.

Lemma sheet_of_width root ap :
  width (sheet_of root ap) = max_frames_of root ap * FRAME_WIDTH.
Proof. unfold sheet_of. by rewrite fold_jobs_width. Qed.

Lemma sheet_of_height root ap : height (sheet_of root ap) = 8 * FRAME_HEIGHT.
Proof. unfold sheet_of. by rewrite fold_jobs_height. Qed.

Lemma in_box_before x y w h px py :
  px < x \/ py < y -> in_box x y w h px py = false.
Proof.
  intros H. unfold in_box.
  destruct (x <=? px) eqn:Hx; [|done].
  destruct (y <=? py) eqn:Hy; [|by rewrite !andb_false_r].
  apply Z.leb_le in Hx, Hy. lia.
Qed.

(** A later attempt never paints into the cell of an earlier one. *)
Lemma later_job_misses_cell root j j' px py :
  job_lt j j' ->
  0 <= snd (fst j') ->
  in_cell (snd (fst j)) (fst (fst j)) px py = true ->
  job_covers root j' px py = false.
Proof.
  destruct j as [[r c] p], j' as [[r' c'] p']. unfold job_lt, in_cell. simpl.
  intros Hlt Hc' Hcell.
  destruct (decode root p') as [img|]; [|done].
  apply in_box_before.
  unfold in_box in Hcell. unfold FRAME_WIDTH, FRAME_HEIGHT in *.
  apply andb_true_iff in Hcell as [Hcell Hy2].
  apply andb_true_iff in Hcell as [Hcell Hy1].
  apply andb_true_iff in Hcell as [Hx1 Hx2].
  apply Z.leb_le in Hx1, Hy1. apply Z.ltb_lt in Hx2, Hy2.
  destruct Hlt as [Hlt|[-> Hlt]]; lia.
Qed.

(** The part of a decoded frame that lies in its own cell is in the
    final sheet. *)
Lemma sheet_own_pixel root ap (r : nat) d (i : nat) p img dx dy :
  DIRECTIONS !! r = Some d ->
  frames_at root ap d !! i = Some p ->
  decode root p = Some img ->
  0 <= dx < width img -> dx < FRAME_WIDTH ->
  0 <= dy < height img -> dy < FRAME_HEIGHT ->
  pixel (sheet_of root ap)
        (Z.of_nat i * FRAME_WIDTH + dx) (Z.of_nat r * FRAME_HEIGHT + dy) =
  pixel img dx dy.
Proof.
  intros Hr Hp Hdec Hdx Hdx' Hdy Hdy'.
  set (px := Z.of_nat i * FRAME_WIDTH + dx).
  set (py := Z.of_nat r * FRAME_HEIGHT + dy).
  set (j := (Z.of_nat r, Z.of_nat i, p) : Job).
  assert (j ∈ jobs_of root ap) as Hj
      by (apply elem_of_jobs_of; by exists r, d, i, p).
  destruct (list_elem_of_split _ _ Hj) as (pre & post & Hsplit).
  pose proof (jobs_of_sorted root ap) as Hsorted. rewrite Hsplit in Hsorted.
  apply StronglySorted_app_1_r, StronglySorted_cons in Hsorted as [Hpost _].
  rewrite Forall_forall in Hpost.
  assert (in_cell (Z.of_nat i) (Z.of_nat r) px py = true) as Hcell.
  { unfold in_cell, in_box, px, py, FRAME_WIDTH, FRAME_HEIGHT in *.
    repeat (apply andb_true_iff; split);
      first [apply Z.leb_le | apply Z.ltb_lt]; lia. }
  unfold sheet_of. rewrite Hsplit, fold_left_app. cbn [fold_left].
  rewrite fold_jobs_not_covered.
  - unfold j. rewrite (apply_job_covered _ _ _ _ _ img); [|done| |].
    + f_equal; unfold px, py; lia.
    + unfold in_image. rewrite fold_jobs_width, fold_jobs_height.
      rewrite blank_sheet_width, blank_sheet_height.
      pose proof (frame_index_lt_max root ap d i p
                    (list_elem_of_lookup_2 _ _ _ Hr) Hp) as Hi.
      apply lookup_lt_Some in Hr. change (length DIRECTIONS) with 8%nat in Hr.
      unfold px, py, FRAME_WIDTH, FRAME_HEIGHT in *.
      repeat (apply andb_true_iff; split);
        first [apply Z.leb_le | apply Z.ltb_lt]; nia.
    + unfold in_box, px, py, FRAME_WIDTH, FRAME_HEIGHT in *.
      repeat (apply andb_true_iff; split);
        first [apply Z.leb_le | apply Z.ltb_lt]; lia.
  - intros j' Hj'. apply (later_job_misses_cell root j); [by apply Hpost| |done].
    assert (j' ∈ jobs_of root ap) as Hin
        by (rewrite Hsplit; apply elem_of_app; right; by right).
    apply elem_of_jobs_of in Hin as (r' & d' & i' & p' & -> & _). simpl. lia.
Qed.

(** A pixel that no decoded frame covers keeps the colour of [Image.new]. *)
Lemma sheet_blank_pixel root ap px py :
  (forall j, j ∈ jobs_of root ap -> job_covers root j px py = false) ->
  pixel (sheet_of root ap) px py = transparent.
Proof. intros H. unfold sheet_of. by rewrite fold_jobs_not_covered. Qed.

(** ** Writing to the tree *)

Lemma makedirs_existing n p q es :
  lookup_path n p = Some (Dir es) -> makedirs n p q = inr n.
Proof.
  revert n. induction p as [|c p IH]; intros n Hl; simpl in *.
  - by injection Hl as ->.
  - destruct n as [?|es0]; [done|].
    destruct (es0 !! c) as [child|] eqn:Hc; [|done]. simpl.
    rewrite (IH _ Hl). by rewrite insert_id.
Qed.

Lemma makedirs_lookup n p q n' :
  makedirs n p q = inr n' -> exists es, lookup_path n' p = Some (Dir es).
Proof.
  revert n n'. induction p as [|c p IH]; intros n n' H; simpl in *.
  - destruct n as [?|es]; [done|]. injection H as <-. eauto.
  - destruct n as [?|es]; [done|].
    destruct (makedirs (default (Dir ∅) (es !! c)) p q) as [e|child] eqn:Hm;
      [done|].
    injection H as <-. rewrite lookup_insert_eq. eauto.
Qed.

Lemma makedirs_other n p q n' p' :
  makedirs n p q = inr n' -> ~ p' `prefix_of` p ->
  lookup_path n' p' = lookup_path n p'.
Proof.
  revert n n' p'. induction p as [|c p IH]; intros n n' p' H Hp'; simpl in *.
  - destruct n; [done|]. by injection H as <-.
  - destruct n as [?|es]; [done|].
    destruct (makedirs (default (Dir ∅) (es !! c)) p q) as [e|child] eqn:Hm;
      [done|].
    injection H as <-.
    destruct p' as [|c' p']; [destruct Hp'; apply prefix_nil|]. simpl.
    destruct (decide (c = c')) as [<-|Hne].
    + rewrite lookup_insert_eq.
      rewrite (IH _ _ p' Hm) by (intros Hpre; apply Hp'; by apply prefix_cons).
      destruct (es !! c) as [child0|]; simpl; [done|].
      destruct p'; [|done]. destruct Hp'. apply prefix_cons, prefix_nil.
    + by rewrite lookup_insert_ne.
Qed.

Lemma write_file_written n p q data n' :
  write_file n p q data = inr n' -> lookup_path n' p = Some (File data).
Proof.
  revert n n'. induction p as [|c p IH]; intros n n' H; simpl in *.
  - destruct n; [|done]. by injection H as <-.
  - destruct n as [?|es]; [done|].
    destruct (es !! c) as [child|] eqn:Hc.
    + destruct (write_file child p q data) as [e|child'] eqn:Hw; [done|].
      injection H as <-. rewrite lookup_insert_eq. eauto.
    + destruct p; [|done]. injection H as <-. by rewrite lookup_insert_eq.
Qed.

Lemma write_file_other n p q data n' p' :
  write_file n p q data = inr n' -> ~ p' `prefix_of` p ->
  lookup_path n' p' = lookup_path n p'.
Proof.
  revert n n' p'. induction p as [|c p IH]; intros n n' p' H Hp'; simpl in *.
  - destruct n; [|done]. injection H as <-.
    destruct p' as [|c' p']; [destruct Hp'; apply prefix_nil | done].
  - destruct n as [?|es]; [done|].
    destruct p' as [|c' p']; [destruct Hp'; apply prefix_nil|].
    destruct (es !! c) as [child|] eqn:Hc.
    + destruct (write_file child p q data) as [e|child'] eqn:Hw; [done|].
      injection H as <-. simpl.
      destruct (decide (c = c')) as [<-|Hne].
      * rewrite lookup_insert_eq, Hc.
        apply (IH _ _ _ Hw). intros Hpre. apply Hp'. by apply prefix_cons.
      * by rewrite lookup_insert_ne.
    + destruct p; [|done]. injection H as <-. simpl.
      destruct (decide (c = c')) as [<-|Hne].
      * rewrite lookup_insert_eq, Hc.
        destruct p'; [|done]. destruct Hp'. apply prefix_cons, prefix_nil.
      * by rewrite lookup_insert_ne.
Qed.

Lemma write_file_same n p q data :
  lookup_path n p = Some (File data) -> write_file n p q data = inr n.
Proof.
  revert n. induction p as [|c p IH]; intros n Hl; simpl in *.
  - by injection Hl as ->.
  - destruct n as [?|es]; [done|].
    destruct (es !! c) as [child|] eqn:Hc; [|done].
    rewrite (IH _ Hl). by rewrite insert_id.
Qed.

(** Whether the write succeeds does not depend on the data. *)
Lemma write_file_succeeds n p q data data' n' :
  write_file n p q data = inr n' -> exists n'', write_file n p q data' = inr n''.
Proof.
  revert n n'. induction p as [|c p IH]; intros n n' H; simpl in *.
  - destruct n; [eauto | done].
  - destruct n as [?|es]; [done|].
    destruct (es !! c) as [child|] eqn:Hc.
    + destruct (write_file child p q data) as [e|child'] eqn:Hw; [done|].
      destruct (IH _ _ Hw) as [n'' ->]. eauto.
    + destruct p; [eauto | done].
Qed.

Lemma dirname_prefix p : dirname p `prefix_of` p.
Proof.
  unfold dirname. induction p as [|c p IH]; [done|].
  destruct p as [|c' p]; [apply prefix_nil|].
  change (removelast (c :: c' :: p)) with (c :: removelast (c' :: p)).
  by apply prefix_cons.
Qed.

Lemma saved_lookup root out sheet :
  writable root out = true ->
  lookup_path (saved root out sheet) out = Some (File (Some sheet)).
Proof.
  unfold writable, saved.
  destruct (makedirs root (dirname out) (dirname out)) as [e|n]; [done|].
  destruct (write_file n out out None) as [e|n0] eqn:Hw; [done|]. intros _.
  destruct (write_file_succeeds _ _ _ _ (Some sheet) _ Hw) as [n' Hw'].
  rewrite Hw'. by apply write_file_written in Hw'.
Qed.

Lemma saved_other root out sheet p' :
  ~ p' `prefix_of` out ->
  lookup_path (saved root out sheet) p' = lookup_path root p'.
Proof.
  intros Hp'. unfold saved.
  destruct (makedirs root (dirname out) (dirname out)) as [e|n] eqn:Hm; [done|].
  destruct (write_file n out out (Some sheet)) as [e|n'] eqn:Hw; [done|].
  rewrite (write_file_other _ _ _ _ _ _ Hw Hp').
  apply (makedirs_other _ _ _ _ _ Hm).
  intros Hpre. apply Hp'. etrans; [done | apply dirname_prefix].
Qed.

Lemma save_run sheet out w :
  (os_makedirs (dirname out);;
   Image_save sheet out;;
   print (Saved out);;
   mret true) w =
  match makedirs (fs w) (dirname out) (dirname out) with
  | inl e => (Exc e, w)
  | inr n =>
      match write_file n out out (Some sheet) with
      | inl e => (Exc e, mkWorld n (stdout w))
      | inr n' => (Ret true, mkWorld n' (stdout w ++ [Saved out]))
      end
  end.
Proof.
  rewrite bind_run. unfold os_makedirs.
  destruct (makedirs (fs w) (dirname out) (dirname out)) as [e|n]; [done|].
  rewrite bind_run. unfold Image_save. cbn [fs stdout].
  by destruct (write_file n out out (Some sheet)) as [e|n'].
Qed.

Lemma save_run_writable sheet out w :
  writable (fs w) out = true ->
  (os_makedirs (dirname out);;
   Image_save sheet out;;
   print (Saved out);;
   mret true) w =
  (Ret true, mkWorld (saved (fs w) out sheet) (stdout w ++ [Saved out])).
Proof.
  intros Hw. rewrite save_run. unfold writable, saved in *.
  destruct (makedirs (fs w) (dirname out) (dirname out)) as [e|n]; [done|].
  destruct (write_file n out out None) as [e|n0] eqn:Hw0; [done|].
  destruct (write_file_succeeds _ _ _ _ (Some sheet) _ Hw0) as [n' ->]. done.
Qed.

Lemma save_run_unwritable sheet out w :
  writable (fs w) out = false ->
  exists e w',
    (os_makedirs (dirname out);;
     Image_save sheet out;;
     print (Saved out);;
     mret true) w = (Exc e, w') /\ stdout w' = stdout w /\
    (forall p, ~ p `prefix_of` dirname out ->
       lookup_path (fs w') p = lookup_path (fs w) p).
Proof.
  intros Hw. rewrite save_run. unfold writable in *.
  destruct (makedirs (fs w) (dirname out) (dirname out)) as [e|n] eqn:Hm;
    [by eauto|].
  destruct (write_file n out out (Some sheet)) as [e|n'] eqn:Hw1.
  - exists e. eexists. split_and!; [done..|].
    intros p Hp. cbn [fs]. by apply (makedirs_other _ _ _ _ _ Hm).
  - destruct (write_file_succeeds _ _ _ _ None _ Hw1) as [n0 Hw0].
    by rewrite Hw0 in Hw.
Qed.

Lemma create_spritesheet_composed name src out w :
  is_Some (lookup_path (fs w) (animation_path_of src)) ->
  listable (fs w) (animation_path_of src) ->
  0 < max_frames_of (fs w) (animation_path_of src) ->
  writable (fs w) out = true ->
  create_spritesheet name src out w =
  (Ret true,
   mkWorld (saved (fs w) out (sheet_of (fs w) (animation_path_of src)))
           (stdout w ++ compose_lines (fs w) name src ++ [Saved out])).
Proof.
  intros Hex Hls Hmax Hw.
  rewrite create_spritesheet_scanned by done. cbn zeta.
  destruct (Z.eqb_spec (max_frames_of (fs w) (animation_path_of src)) 0);
    [lia|].
  rewrite save_run_writable by done. cbn [fs stdout]. by rewrite <- app_assoc.
Qed.

Lemma create_spritesheet_empty name src out w :
  is_Some (lookup_path (fs w) (animation_path_of src)) ->
  listable (fs w) (animation_path_of src) ->
  max_frames_of (fs w) (animation_path_of src) = 0 ->
  create_spritesheet name src out w =
  (Ret false,
   mkWorld (fs w)
     (stdout w ++ [Creating name src] ++
      scan_lines (fs w) (animation_path_of src) DIRECTIONS ++
      [NoFramesFound name])).
Proof.
  intros Hex Hls Hmax.
  rewrite create_spritesheet_scanned by done. cbn zeta. by rewrite Hmax.
Qed.

(** ** [create_spritesheet] on any tree *)

Lemma scan_failure_None root ap l :
  scan_failure root ap l = None <->
  (forall d c, d ∈ l -> lookup_path root (path_join ap d) <> Some (File c)).
Proof.
  induction l as [|d l IH]; simpl.
  - split; [intros _ d c Hd; by inversion Hd | done].
  - split.
    + intros H d' c Hd'.
      destruct (lookup_path root (path_join ap d)) as [[c0|es]|] eqn:Hl;
        [done| |];
        (destruct (scan_failure root ap l) as [[e lg]|]; [done|];
         apply elem_of_cons in Hd' as [->|Hd'];
         [by rewrite Hl | by apply IH]).
    + intros H.
      assert (scan_failure root ap l = None) as ->
          by (apply IH; intros; apply H; by right).
      destruct (lookup_path root (path_join ap d)) as [[c0|es]|] eqn:Hl;
        [|done|done].
      destruct (H d c0 ltac:(left) Hl).
Qed.

Lemma scan_directions_fail ap l s w e lines :
  scan_failure (fs w) ap l = Some (e, lines) ->
  for_each (scan_direction ap) s l w =
  (Exc e, mkWorld (fs w) (stdout w ++ lines)).
Proof.
  revert s w e lines. induction l as [|d l IH]; intros [m df] w e lines H;
    [done|].
  cbn [for_each]. unfold bind at 1. unfold scan_direction at 1.
  rewrite bind_run, get_frame_files_run. simpl in H.
  destruct (lookup_path (fs w) (path_join ap d)) as [[c|es]|] eqn:Hl.
  - injection H as <- <-. by rewrite world_app_nil.
  - destruct (scan_failure (fs w) ap l) as [[e' lg]|] eqn:Hf; [|done].
    injection H as <- <-.
    rewrite bind_run, print_run. py_unfold.
    erewrite IH by (cbn [fs]; done). cbn [fs stdout].
    unfold scan_line. rewrite Hl. simpl. by rewrite <- app_assoc.
  - destruct (scan_failure (fs w) ap l) as [[e' lg]|] eqn:Hf; [|done].
    injection H as <- <-.
    rewrite bind_run, print_run. py_unfold.
    erewrite IH by (cbn [fs]; done). cbn [fs stdout].
    unfold scan_line. rewrite Hl, (frames_at_missing _ _ _ Hl). simpl.
    by rewrite <- !app_assoc.
Qed.

Lemma create_spritesheet_run name src out w :
  create_spritesheet name src out w =
  match verdict (fs w) name src with
  | Skipped lines => (Ret false, mkWorld (fs w) (stdout w ++ lines))
  | Failed e lines => (Exc e, mkWorld (fs w) (stdout w ++ lines))
  | Composed sheet lines =>
      (os_makedirs (dirname out);;
       Image_save sheet out;;
       print (Saved out);;
       mret true) (mkWorld (fs w) (stdout w ++ lines))
  end.
Proof.
  unfold verdict.
  destruct (lookup_path (fs w) (animation_path_of src)) as [n|] eqn:Hl;
    [|by apply create_spritesheet_missing].
  destruct (scan_failure (fs w) (animation_path_of src) DIRECTIONS)
    as [[e lines]|] eqn:Hf.
  - unfold create_spritesheet. fold (animation_path_of src).
    rewrite bind_run, os_path_exists_run, Hl.
    rewrite bool_decide_true by eauto. cbn [negb].
    rewrite bind_run, print_run, bind_run.
    erewrite scan_directions_fail by (cbn [fs]; done).
    cbn [fs stdout]. by rewrite <- app_assoc.
  - rewrite create_spritesheet_scanned;
      [|by rewrite Hl|unfold listable; by apply scan_failure_None].
    cbn zeta.
    by destruct (max_frames_of (fs w) (animation_path_of src) =? 0).
Qed.

(** ** What is read depends on the animation folder only *)

Section agree.
Variables (root root' : Node) (ap : Path).
Hypothesis Hagree :
  forall q, lookup_path root (ap ++ q) = lookup_path root' (ap ++ q).

Lemma agree_direction d :
  lookup_path root (path_join ap d) = lookup_path root' (path_join ap d).
Proof. apply Hagree. Qed.

Lemma agree_frame d f :
  lookup_path root (path_join (path_join ap d) f) =
  lookup_path root' (path_join (path_join ap d) f).
Proof. unfold path_join. rewrite <- app_assoc. apply Hagree. Qed.

Lemma frames_at_agree d : frames_at root ap d = frames_at root' ap d.
Proof. unfold frames_at, frame_names. by rewrite agree_direction. Qed.

Lemma scan_line_agree d : scan_line root ap d = scan_line root' ap d.
Proof. unfold scan_line. by rewrite agree_direction, frames_at_agree. Qed.

Lemma scan_lines_agree l : scan_lines root ap l = scan_lines root' ap l.
Proof.
  unfold scan_lines. induction l as [|d l IH]; simpl; [done|].
  by rewrite IH, scan_line_agree.
Qed.

Lemma max_count_agree l m : max_count root ap l m = max_count root' ap l m.
Proof.
  revert m. induction l as [|d l IH]; intros m; simpl; [done|].
  by rewrite IH, frames_at_agree.
Qed.

Lemma scan_failure_agree l : scan_failure root ap l = scan_failure root' ap l.
Proof.
  induction l as [|d l IH]; simpl; [done|].
  by rewrite IH, agree_direction, scan_line_agree.
Qed.

Lemma jobs_from_agree rows : jobs_from root ap rows = jobs_from root' ap rows.
Proof.
  unfold jobs_from. induction rows as [|rd rows IH]; simpl; [done|].
  by rewrite IH, frames_at_agree.
Qed.

Lemma job_path_agree j :
  j ∈ jobs_of root ap -> decode root (snd j) = decode root' (snd j) /\
                         open_error root (snd j) = open_error root' (snd j).
Proof.
  intros Hj. apply elem_of_jobs_of in Hj as (r & d & i & p & -> & _ & Hp).
  unfold frames_at in Hp. apply list_lookup_fmap_Some in Hp as [f [-> _]].
  unfold decode, open_error. cbn [snd]. by rewrite agree_frame.
Qed.

Lemma fold_jobs_agree jobs sheet :
  (forall j, j ∈ jobs -> j ∈ jobs_of root ap) ->
  fold_left (apply_job root) jobs sheet = fold_left (apply_job root') jobs sheet
  /\ flat_map (job_line root) jobs = flat_map (job_line root') jobs.
Proof.
  revert sheet. induction jobs as [|j jobs IH]; intros sheet Hj; [done|].
  cbn [fold_left flat_map].
  destruct (job_path_agree j (Hj j ltac:(left))) as [Hd He].
  assert (apply_job root sheet j = apply_job root' sheet j) as ->
      by (destruct j as [[r c] p]; simpl in *; by rewrite Hd).
  assert (job_line root j = job_line root' j) as ->
      by (destruct j as [[r c] p]; simpl in *; by rewrite Hd, He).
  destruct (IH (apply_job root' sheet j)) as [-> ->];
    [intros; apply Hj; by right | done].
Qed.

Lemma max_frames_of_agree : max_frames_of root ap = max_frames_of root' ap.
Proof. apply max_count_agree. Qed.

Lemma sheet_of_agree : sheet_of root ap = sheet_of root' ap.
Proof.
  unfold sheet_of. rewrite <- max_frames_of_agree.
  destruct (fold_jobs_agree (jobs_of root ap)
              (blank_sheet (max_frames_of root ap))) as [-> _]; [done|].
  unfold jobs_of. by rewrite jobs_from_agree.
Qed.

Lemma job_lines_agree :
  flat_map (job_line root) (jobs_of root ap) =
  flat_map (job_line root') (jobs_of root' ap).
Proof.
  destruct (fold_jobs_agree (jobs_of root ap)
              (blank_sheet 0)) as [_ ->]; [done|].
  unfold jobs_of. by rewrite jobs_from_agree.
Qed.
End agree.

Lemma verdict_agree root root' name src :
  (forall q, lookup_path root (animation_path_of src ++ q) =
             lookup_path root' (animation_path_of src ++ q)) ->
  verdict root name src = verdict root' name src.
Proof.
  intros H. unfold verdict, compose_lines. cbn zeta.
  pose proof (H []) as H0. rewrite !app_nil_r in H0.
  rewrite H0, (scan_failure_agree _ _ _ H), (max_frames_of_agree _ _ _ H),
    (scan_lines_agree _ _ _ H), (sheet_of_agree _ _ _ H),
    (job_lines_agree _ _ _ H).
  done.
Qed.

Lemma verdict_same_inputs root root' name src :
  same_inputs root root' -> verdict root name src = verdict root' name src.
Proof.
  intros H. apply verdict_agree. intros q.
  apply (H (src :: q)).
Qed.

(** ** The output directory *)

Lemma output_path_of_eq name :
  output_path_of name = ["spritesheets"; (name ++ ".png")%string].
Proof. reflexivity. Qed.

Lemma append_cancel_r s s' t : (s ++ t)%string = (s' ++ t)%string -> s = s'.
Proof.
  revert s'. induction s as [|c s IH]; intros [|c' s'] H.
  - done.
  - apply (f_equal String.length) in H.
    rewrite append_empty, string_length_app in H. simpl in H. lia.
  - apply (f_equal String.length) in H.
    rewrite append_empty, string_length_app in H. simpl in H. lia.
  - rewrite !append_cons in H. injection H as -> H. f_equal. by apply IH.
Qed.

Lemma inputs_not_prefix_output q name :
  ~ (path_join [] "animations" ++ q) `prefix_of` output_path_of name.
Proof. rewrite output_path_of_eq. intros [k Hk]. simpl in Hk. congruence. Qed.

Lemma output_not_prefix_output name name' :
  name <> name' -> ~ output_path_of name' `prefix_of` output_path_of name.
Proof.
  intros Hne [k Hk]. rewrite !output_path_of_eq in Hk. simpl in Hk.
  injection Hk as H _. apply append_cancel_r in H. congruence.
Qed.

Lemma writable_inv root f :
  writable root ["spritesheets"; f] = true ->
  exists es es',
    root = Dir es /\
    default (Dir ∅) (es !! "spritesheets") = Dir es' /\
    (forall x, es' !! f <> Some (Dir x)).
Proof.
  unfold writable. simpl.
  destruct root as [c|es]; [done|].
  destruct (default (Dir ∅) (es !! "spritesheets")) as [c|es'] eqn:Hd; [done|].
  rewrite lookup_insert_eq. intros H. exists es, es'. split_and!; [done..|].
  intros x Hx. rewrite Hx in H. done.
Qed.

Lemma saved_shape es es' f sheet :
  default (Dir ∅) (es !! "spritesheets") = Dir es' ->
  (forall x, es' !! f <> Some (Dir x)) ->
  writable (Dir es) ["spritesheets"; f] = true /\
  saved (Dir es) ["spritesheets"; f] sheet =
  Dir (<["spritesheets" := Dir (<[f := File (Some sheet)]> es')]> es).
Proof.
  intros Hd Hf. unfold writable, saved. simpl. rewrite Hd.
  rewrite !lookup_insert_eq.
  destruct (es' !! f) as [[c|x]|] eqn:Hl.
  - by rewrite insert_insert_eq.
  - by destruct (Hf x).
  - by rewrite insert_insert_eq.
Qed.

Lemma writable_preserved root name name' sheet :
  name <> name' ->
  writable root (output_path_of name) = true ->
  writable root (output_path_of name') = true ->
  writable (saved root (output_path_of name) sheet) (output_path_of name') = true.
Proof.
  rewrite !output_path_of_eq. intros Hne Hw Hw'.
  apply writable_inv in Hw as (es & es' & -> & Hd & Hf).
  apply writable_inv in Hw' as (es0 & es0' & [= <-] & Hd' & Hf').
  rewrite Hd in Hd'. injection Hd' as <-.
  destruct (saved_shape es es' (name ++ ".png") sheet Hd Hf) as [_ ->].
  refine (proj1 (saved_shape _ (<[(name ++ ".png")%string :=
                                   File (Some sheet)]> es') _ sheet _ _)).
  - by rewrite lookup_insert_eq.
  - intros x. rewrite lookup_insert_ne; [apply Hf'|].
    intros H. by apply append_cancel_r in H.
Qed.

Lemma saved_same_inputs root name sheet :
  same_inputs root (saved root (output_path_of name) sheet).
Proof.
  intros q. symmetry. apply saved_other, inputs_not_prefix_output.
Qed.

(** ** Which attempt decides a pixel *)

Lemma in_box_true x y w h px py :
  in_box x y w h px py = true <-> x <= px < x + w /\ y <= py < y + h.
Proof.
  unfold in_box. rewrite !andb_true_iff, !Z.leb_le, !Z.ltb_lt. lia.
Qed.

Lemma in_image_true im px py :
  in_image im px py = true <-> 0 <= px < width im /\ 0 <= py < height im.
Proof.
  unfold in_image. rewrite !andb_true_iff, !Z.leb_le, !Z.ltb_lt. lia.
Qed.

Lemma in_cell_true col row px py :
  in_cell col row px py = true <->
  col * FRAME_WIDTH <= px < col * FRAME_WIDTH + FRAME_WIDTH /\
  row * FRAME_HEIGHT <= py < row * FRAME_HEIGHT + FRAME_HEIGHT.
Proof. apply in_box_true. Qed.

Lemma in_cell_unique col row col' row' px py :
  in_cell col row px py = true -> in_cell col' row' px py = true ->
  col = col' /\ row = row'.
Proof.
  rewrite !in_cell_true. unfold FRAME_WIDTH, FRAME_HEIGHT. lia.
Qed.

(** The last attempt that covers a pixel of the sheet decides it. *)
Lemma sheet_last_writer root ap (r i : nat) d p img px py :
  DIRECTIONS !! r = Some d ->
  frames_at root ap d !! i = Some p ->
  decode root p = Some img ->
  in_image (sheet_of root ap) px py = true ->
  in_box (Z.of_nat i * FRAME_WIDTH) (Z.of_nat r * FRAME_HEIGHT)
         (width img) (height img) px py = true ->
  (forall j', j' ∈ jobs_of root ap ->
     job_lt (Z.of_nat r, Z.of_nat i, p) j' -> job_covers root j' px py = false) ->
  pixel (sheet_of root ap) px py =
  pixel img (px - Z.of_nat i * FRAME_WIDTH) (py - Z.of_nat r * FRAME_HEIGHT).
Proof.
  intros Hr Hp Hdec Him Hbox Hlater.
  set (j := (Z.of_nat r, Z.of_nat i, p) : Job) in *.
  assert (j ∈ jobs_of root ap) as Hj
      by (apply elem_of_jobs_of; by exists r, d, i, p).
  destruct (list_elem_of_split _ _ Hj) as (pre & post & Hsplit).
  pose proof (jobs_of_sorted root ap) as Hsorted. rewrite Hsplit in Hsorted.
  apply StronglySorted_app_1_r, StronglySorted_cons in Hsorted as [Hpost _].
  rewrite Forall_forall in Hpost.
  assert (in_image (fold_left (apply_job root) pre
                      (blank_sheet (max_frames_of root ap))) px py = true)
    as Him'.
  { unfold in_image in *.
    rewrite sheet_of_width, sheet_of_height in Him.
    by rewrite fold_jobs_width, fold_jobs_height. }
  unfold sheet_of. rewrite Hsplit, fold_left_app. cbn [fold_left].
  rewrite fold_jobs_not_covered.
  - by apply apply_job_covered.
  - intros j' Hj'. apply Hlater; [|by apply Hpost].
    rewrite Hsplit. apply elem_of_app. right. by right.
Qed.

Lemma fit_job_in_cell root row col p img px py :
  decode root p = Some img ->
  width img <= FRAME_WIDTH -> height img <= FRAME_HEIGHT ->
  job_covers root (row, col, p) px py = true ->
  in_cell col row px py = true.
Proof.
  intros Hd Hw Hh. simpl. rewrite Hd, in_cell_true, in_box_true. lia.
Qed.

(** With frames of at most the cell size, a pixel of a cell that the
    frame of that cell does not cover is transparent in the final sheet. *)
Lemma cell_blank_if_fit root ap (r i : nat) px py :
  frames_fit root ap ->
  in_cell (Z.of_nat i) (Z.of_nat r) px py = true ->
  (forall d p, DIRECTIONS !! r = Some d -> frames_at root ap d !! i = Some p ->
     job_covers root (Z.of_nat r, Z.of_nat i, p) px py = false) ->
  pixel (sheet_of root ap) px py = transparent.
Proof.
  intros Hfit Hcell Hown. apply sheet_blank_pixel. intros j Hj.
  destruct (job_covers root j px py) eqn:Hc; [|done].
  pose proof Hj as Hj'.
  apply elem_of_jobs_of in Hj' as (r' & d' & i' & p' & -> & Hr' & Hp').
  destruct (decode root p') as [img|] eqn:Hd; [|by simpl in Hc; rewrite Hd in Hc].
  destruct (Hfit _ img Hj Hd) as [Hw Hh].
  pose proof (fit_job_in_cell _ _ _ _ _ _ _ Hd Hw Hh Hc) as Hcell'.
  destruct (in_cell_unique _ _ _ _ _ _ Hcell Hcell') as [Hi Hrr].
  apply Nat2Z.inj in Hi, Hrr. subst i' r'.
  by rewrite (Hown d' p' Hr' Hp') in Hc.
Qed.

(** ** The batch loop *)

Lemma process_animation_run cnt name src w :
  process_animation cnt (name, src) w =
  match create_spritesheet name src (output_path_of name) w with
  | (Ret ok, w') => (Ret (if ok then cnt + 1 else cnt), w')
  | (Exc e, w') => (Exc e, w')
  end.
Proof.
  unfold process_animation. rewrite bind_run. fold (output_path_of name).
  by destruct (create_spritesheet name src (output_path_of name) w)
    as [[ok|e] w'].
Qed.

Lemma batch_step cnt name src rest w :
  for_each process_animation cnt ((name, src) :: rest) w =
  match create_spritesheet name src (output_path_of name) w with
  | (Ret ok, w') =>
      for_each process_animation (if ok then cnt + 1 else cnt) rest w'
  | (Exc e, w') => (Exc e, w')
  end.
Proof.
  cbn [for_each]. unfold bind. rewrite process_animation_run.
  by destruct (create_spritesheet name src (output_path_of name) w)
    as [[ok|e] w'].
Qed.

Lemma main_run w :
  main w =
  match for_each process_animation 0 ANIMATIONS
          (mkWorld (fs w) (stdout w ++ banner)) with
  | (Ret cnt, w') => (Ret (), mkWorld (fs w') (stdout w' ++ summary cnt))
  | (Exc e, w') => (Exc e, w')
  end.
Proof.
  unfold main. do 5 (rewrite bind_run, print_run; cbn [fs stdout]).
  rewrite bind_run, <- !app_assoc. cbn [app]. fold banner.
  destruct (for_each process_animation 0 ANIMATIONS
              (mkWorld (fs w) (stdout w ++ banner))) as [[cnt|e] w']; [|done].
  do 3 (rewrite bind_run, print_run; cbn [fs stdout]).
  rewrite print_run. cbn [fs stdout]. by rewrite <- !app_assoc.
Qed.

Lemma create_spritesheet_effect name src w r w' :
  create_spritesheet name src (output_path_of name) w = (r, w') ->
  (exists lines, stdout w' = stdout w ++ lines) /\
  (forall p, ~ p `prefix_of` output_path_of name ->
     lookup_path (fs w') p = lookup_path (fs w) p).
Proof.
  rewrite create_spritesheet_run.
  destruct (verdict (fs w) name src) as [lg|e lg|sheet lg].
  - intros [= <- <-]. eauto.
  - intros [= <- <-]. eauto.
  - rewrite save_run. cbn [fs stdout].
    destruct (makedirs (fs w) (dirname (output_path_of name))
                (dirname (output_path_of name))) as [e|n] eqn:Hm.
    { intros [= <- <-]. eauto. }
    assert (forall p, ~ p `prefix_of` output_path_of name ->
              lookup_path n p = lookup_path (fs w) p) as Hn.
    { intros p Hp. apply (makedirs_other _ _ _ _ _ Hm).
      intros Hpre. apply Hp. etrans; [done | apply dirname_prefix]. }
    destruct (write_file n (output_path_of name) (output_path_of name)
                (Some sheet)) as [e|n'] eqn:Hw.
    + intros [= <- <-]. cbn [fs stdout]. eauto.
    + intros [= <- <-]. cbn [fs stdout]. split.
      * exists (lg ++ [Saved (output_path_of name)]). by rewrite app_assoc.
      * intros p Hp. rewrite (write_file_other _ _ _ _ _ _ Hw Hp). by apply Hn.
Qed.

Lemma create_spritesheet_same_inputs name src w r w' :
  create_spritesheet name src (output_path_of name) w = (r, w') ->
  same_inputs (fs w) (fs w').
Proof.
  intros H q. symmetry.
  apply (create_spritesheet_effect _ _ _ _ _ H), inputs_not_prefix_output.
Qed.

Lemma has_frames_same_inputs root root' src :
  same_inputs root root' -> has_frames root src -> has_frames root' src.
Proof.
  intros H (Hex & Hls & Hmax).
  assert (forall q, lookup_path root (animation_path_of src ++ q) =
                    lookup_path root' (animation_path_of src ++ q)) as Hag
      by (intros q; apply (H (src :: q))).
  split_and!.
  - pose proof (Hag []) as H0. rewrite !app_nil_r in H0. by rewrite <- H0.
  - intros d c Hd. rewrite <- (agree_direction _ _ _ Hag). by apply Hls.
  - by rewrite <- (max_frames_of_agree _ _ _ Hag).
Qed.

Lemma ready_run name src w :
  ready (fs w) name src ->
  create_spritesheet name src (output_path_of name) w =
  (Ret true,
   mkWorld (saved (fs w) (output_path_of name)
              (sheet_of (fs w) (animation_path_of src)))
           (stdout w ++ compose_lines (fs w) name src ++
            [Saved (output_path_of name)])).
Proof.
  intros [(Hex & Hls & Hmax) Hw]. by apply create_spritesheet_composed.
Qed.

Lemma ready_preserved root name src name' src' :
  name <> name' ->
  ready root name src -> ready root name' src' ->
  ready (saved root (output_path_of name)
           (sheet_of root (animation_path_of src))) name' src'.
Proof.
  intros Hne [_ Hw] [Hf' Hw']. split.
  - eapply has_frames_same_inputs; [apply saved_same_inputs | done].
  - by apply writable_preserved.
Qed.

Lemma batch_all_ready anims cnt w :
  NoDup (map fst anims) ->
  (forall a, a ∈ anims -> ready (fs w) (fst a) (snd a)) ->
  exists w' lines,
    for_each process_animation cnt anims w = (Ret (cnt + len anims), w') /\
    stdout w' = stdout w ++ lines /\
    same_inputs (fs w) (fs w') /\
    (forall name, name ∉ map fst anims ->
       writable (fs w) (output_path_of name) = true ->
       writable (fs w') (output_path_of name) = true) /\
    (forall p, (forall a, a ∈ anims -> ~ p `prefix_of` output_path_of (fst a)) ->
       lookup_path (fs w') p = lookup_path (fs w) p).
Proof.
  revert cnt w. induction anims as [|[name src] anims IH]; intros cnt w Hnd Hr.
  - exists w, []. simpl. unfold ret, len. simpl.
    rewrite Z.add_0_r, app_nil_r. done.
  - apply NoDup_cons in Hnd as [Hname Hnd]. cbn [map fst] in *.
    pose proof (Hr (name, src) ltac:(left)) as Hready. cbn [fst snd] in Hready.
    rewrite batch_step, (ready_run _ _ _ Hready).
    set (w1 := mkWorld _ _).
    destruct (IH (cnt + 1) w1 Hnd) as (w' & lines & Hrun & Hout & Hin & Hwr & Hlk).
    { intros [name' src'] Ha. cbn [fst snd]. unfold w1. cbn [fs].
      apply ready_preserved; [|done|by apply (Hr (name', src')); right].
      intros ->. apply Hname. apply list_elem_of_fmap. by exists (name', src'). }
    exists w', (compose_lines (fs w) name src ++
                [Saved (output_path_of name)] ++ lines).
    split_and!.
    + rewrite Hrun. do 2 f_equal. unfold len. cbn [length]. lia.
    + rewrite Hout. unfold w1. cbn [stdout]. by rewrite <- !app_assoc.
    + intros q. rewrite <- (Hin q). unfold w1. cbn [fs].
      apply saved_same_inputs.
    + intros name' Hn' Hw'. apply not_elem_of_cons in Hn' as [Hne Hn'].
      apply Hwr; [done|]. unfold w1. cbn [fs].
      destruct Hready as [_ Hw]. by apply writable_preserved.
    + intros p Hp. rewrite Hlk by (intros a Ha; apply Hp; by right).
      unfold w1. cbn [fs]. apply saved_other.
      apply (Hp (name, src)). left.
Qed.

Lemma has_framesb_spec root src :
  has_framesb root src = true -> has_frames root src.
Proof.
  unfold has_framesb, has_frames. cbn zeta.
  rewrite !andb_true_iff, bool_decide_eq_true, Z.ltb_lt.
  intros [[Hex Hsc] Hmax]. split_and!; [done| |done].
  unfold listable. apply scan_failure_None.
  by destruct (scan_failure root (animation_path_of src) DIRECTIONS).
Qed.

Lemma lookup_path_app n p q :
  lookup_path n (p ++ q) = lookup_path n p ≫= fun m => lookup_path m q.
Proof.
  revert n. induction p as [|c p IH]; intros n; simpl; [done|].
  destruct n as [?|es]; [done|]. destruct (es !! c); [apply IH | done].
Qed.

Lemma frame_has_frames root src (r i : nat) d p :
  listable root (animation_path_of src) ->
  DIRECTIONS !! r = Some d ->
  frames_at root (animation_path_of src) d !! i = Some p ->
  has_frames root src.
Proof.
  intros Hls Hr Hp. split_and!; [|done|].
  - unfold frames_at, frame_names, path_join in Hp.
    rewrite lookup_path_app in Hp.
    destruct (lookup_path root (animation_path_of src)); [by eauto|].
    simpl in Hp. done.
  - pose proof (frame_index_lt_max root _ d i p
                  (list_elem_of_lookup_2 _ _ _ Hr) Hp). lia.
Qed.

Lemma DIRECTIONS_NoDup : NoDup DIRECTIONS.
Proof. apply (bool_decide_unpack (NoDup DIRECTIONS)). vm_compute. exact I. Qed.

Lemma frames_fitb_spec root ap : frames_fitb root ap = true -> frames_fit root ap.
Proof.
  unfold frames_fitb, frames_fit. rewrite forallb_forall.
  intros H j img Hj Hd. apply list_elem_of_In in Hj.
  specialize (H j Hj). rewrite Hd in H.
  apply andb_true_iff in H as [Hw Hh]. apply Z.leb_le in Hw, Hh. done.
Qed.

Lemma ANIMATIONS_NoDup : NoDup (map fst ANIMATIONS).
Proof.
  apply (bool_decide_unpack (NoDup (map fst ANIMATIONS))). vm_compute. exact I.
Qed.

Lemma batch_one_absent anims pre name src post cnt w :
  anims = pre ++ (name, src) :: post ->
  NoDup (map fst anims) ->
  lookup_path (fs w) (animation_path_of src) = None ->
  (forall a, a ∈ pre ++ post -> ready (fs w) (fst a) (snd a)) ->
  exists w' lines,
    for_each process_animation cnt anims w = (Ret (cnt + (len anims - 1)), w') /\
    stdout w' = stdout w ++ lines /\
    AnimationFolderNotFound (animation_path_of src) ∈ lines /\
    lookup_path (fs w') (output_path_of name) =
      lookup_path (fs w) (output_path_of name).
Proof.
  intros -> Hnd Habs Hready.
  rewrite map_app in Hnd. cbn [map fst] in Hnd.
  apply NoDup_app in Hnd as (Hpre & Hdisj & Hpost).
  apply NoDup_cons in Hpost as [Hname Hpost].
  assert (forall a, a ∈ pre ++ post -> fst a <> name) as Hne.
  { intros a Ha Heq. apply elem_of_app in Ha as [Ha|Ha].
    - apply (Hdisj name); [|left].
      rewrite <- Heq. apply list_elem_of_fmap. eauto.
    - apply Hname. rewrite <- Heq. apply list_elem_of_fmap. eauto. }
  destruct (batch_all_ready pre cnt w Hpre) as (w1 & l1 & Hrun1 & Hout1 & Hin1 & Hwr1 & Hlk1).
  { intros a Ha. apply Hready, elem_of_app. by left. }
  assert (lookup_path (fs w1) (animation_path_of src) = None) as Habs1.
  { rewrite <- Habs. symmetry. apply (Hin1 [src]). }
  set (w2 := mkWorld (fs w1)
               (stdout w1 ++ [AnimationFolderNotFound (animation_path_of src)])).
  destruct (batch_all_ready post (cnt + len pre) w2 Hpost)
    as (w3 & l3 & Hrun3 & Hout3 & Hin3 & Hwr3 & Hlk3).
  { intros [name' src'] Ha. cbn [fst snd]. unfold w2. cbn [fs].
    destruct (Hready (name', src')) as [Hf Hw]; [apply elem_of_app; by right|].
    cbn [fst snd] in *. split.
    - by eapply has_frames_same_inputs.
    - apply Hwr1; [|done]. intros Hin. apply (Hdisj name'); [done|].
      right. apply list_elem_of_fmap. by exists (name', src'). }
  exists w3, (l1 ++ [AnimationFolderNotFound (animation_path_of src)] ++ l3).
  split_and!.
  - rewrite for_each_app, Hrun1, batch_step.
    rewrite (create_spritesheet_missing _ _ _ _ Habs1). fold w2.
    rewrite Hrun3. do 2 f_equal. unfold len.
    rewrite length_app. cbn [length]. lia.
  - rewrite Hout3. unfold w2. cbn [stdout]. rewrite Hout1.
    by rewrite <- !app_assoc.
  - rewrite !elem_of_app, list_elem_of_singleton. auto.
  - rewrite Hlk3, Hlk1; [done| |].
    + intros a Ha. apply output_not_prefix_output.
      apply Hne, elem_of_app. by left.
    + intros a Ha. apply output_not_prefix_output.
      apply Hne, elem_of_app. by right.
Qed.

(** ** Running the batch again *)

Lemma lookup_parent_dir n p c x :
  lookup_path n (p ++ [c]) = Some x -> exists es, lookup_path n p = Some (Dir es).
Proof.
  rewrite lookup_path_app.
  destruct (lookup_path n p) as [[?|es]|]; simpl; [done|by eauto|done].
Qed.

Lemma output_dirname name : dirname (output_path_of name) = output_dir.
Proof. reflexivity. Qed.

Lemma save_again sheet name w :
  lookup_path (fs w) (output_path_of name) = Some (File (Some sheet)) ->
  (os_makedirs (dirname (output_path_of name));;
   Image_save sheet (output_path_of name);;
   print (Saved (output_path_of name));;
   mret true) w =
  (Ret true, mkWorld (fs w) (stdout w ++ [Saved (output_path_of name)])).
Proof.
  intros Hl. rewrite save_run.
  destruct (lookup_parent_dir (fs w) output_dir _ _ Hl) as [es Hdir].
  rewrite output_dirname, (makedirs_existing _ _ _ _ Hdir).
  by rewrite (write_file_same _ _ _ _ Hl).
Qed.

Lemma create_spritesheet_again_ret name src w ok wa w2 :
  create_spritesheet name src (output_path_of name) w = (Ret ok, wa) ->
  same_inputs (fs wa) (fs w2) ->
  lookup_path (fs w2) (output_path_of name) =
    lookup_path (fs wa) (output_path_of name) ->
  exists w3,
    create_spritesheet name src (output_path_of name) w2 = (Ret ok, w3) /\
    fs w3 = fs w2.
Proof.
  intros Hrun Hin Hlk.
  assert (same_inputs (fs w) (fs w2)) as Hin'.
  { intros q. rewrite <- (Hin q).
    apply (create_spritesheet_same_inputs _ _ _ _ _ Hrun). }
  rewrite create_spritesheet_run in Hrun.
  rewrite create_spritesheet_run, <- (verdict_same_inputs _ _ name src Hin').
  destruct (verdict (fs w) name src) as [lg|e lg|sheet lg].
  - injection Hrun as <- <-. eauto.
  - discriminate Hrun.
  - rewrite save_run in Hrun. cbn [fs stdout] in Hrun.
    destruct (makedirs (fs w) _ _) as [e|n]; [discriminate Hrun|].
    destruct (write_file n _ _ _) as [e|n'] eqn:Hw; [discriminate Hrun|].
    injection Hrun as <- <-. cbn [fs] in *.
    apply write_file_written in Hw. rewrite Hw in Hlk.
    rewrite save_again by done. eauto.
Qed.

Lemma create_spritesheet_again_exc name src w e wa w2 :
  create_spritesheet name src (output_path_of name) w = (Exc e, wa) ->
  fs w2 = fs wa ->
  exists w3,
    create_spritesheet name src (output_path_of name) w2 = (Exc e, w3) /\
    fs w3 = fs w2.
Proof.
  intros Hrun Hfs.
  assert (same_inputs (fs w) (fs w2)) as Hin'.
  { intros q. rewrite Hfs.
    apply (create_spritesheet_same_inputs _ _ _ _ _ Hrun). }
  rewrite create_spritesheet_run in Hrun.
  rewrite create_spritesheet_run, <- (verdict_same_inputs _ _ name src Hin').
  destruct (verdict (fs w) name src) as [lg|e' lg|sheet lg].
  - discriminate Hrun.
  - injection Hrun as <- <-. eauto.
  - rewrite save_run in Hrun. cbn [fs stdout] in Hrun.
    rewrite save_run. cbn [fs stdout].
    destruct (makedirs (fs w) _ _) as [e'|n] eqn:Hm.
    { injection Hrun as <- <-. cbn [fs] in Hfs. rewrite Hfs, Hm. eauto. }
    destruct (write_file n _ _ _) as [e'|n'] eqn:Hw; [|discriminate Hrun].
    injection Hrun as <- <-. cbn [fs] in Hfs. rewrite Hfs.
    destruct (makedirs_lookup _ _ _ _ Hm) as [es Hdir].
    rewrite (makedirs_existing _ _ _ _ Hdir), Hw. eauto.
Qed.

Lemma batch_effect anims cnt w r w1 :
  for_each process_animation cnt anims w = (r, w1) ->
  forall p, (forall a, a ∈ anims -> ~ p `prefix_of` output_path_of (fst a)) ->
    lookup_path (fs w1) p = lookup_path (fs w) p.
Proof.
  revert cnt w. induction anims as [|[name src] anims IH]; intros cnt w Hrun p Hp.
  - by injection Hrun as _ <-.
  - rewrite batch_step in Hrun.
    destruct (create_spritesheet name src (output_path_of name) w)
      as [[ok|e] wa] eqn:Hcs.
    + rewrite (IH _ _ Hrun) by (intros a Ha; apply Hp; by right).
      apply (create_spritesheet_effect _ _ _ _ _ Hcs).
      apply (Hp (name, src)). left.
    + injection Hrun as _ <-.
      apply (create_spritesheet_effect _ _ _ _ _ Hcs).
      apply (Hp (name, src)). left.
Qed.

Lemma batch_again anims cnt w r w1 w2 :
  NoDup (map fst anims) ->
  for_each process_animation cnt anims w = (r, w1) ->
  fs w2 = fs w1 ->
  exists w3,
    for_each process_animation cnt anims w2 = (r, w3) /\ fs w3 = fs w1.
Proof.
  revert cnt w w2. induction anims as [|[name src] anims IH];
    intros cnt w w2 Hnd Hrun Hfs.
  - injection Hrun as <- <-. exists w2. done.
  - apply NoDup_cons in Hnd as [Hname Hnd]. cbn [map fst] in *.
    rewrite batch_step in Hrun. rewrite batch_step.
    destruct (create_spritesheet name src (output_path_of name) w)
      as [[ok|e] wa] eqn:Hcs.
    + destruct (create_spritesheet_again_ret _ _ _ _ _ w2 Hcs)
        as (w3 & -> & Hfs3).
      * intros q. rewrite Hfs. symmetry.
        apply (batch_effect _ _ _ _ _ Hrun).
        intros a _. apply inputs_not_prefix_output.
      * rewrite Hfs. apply (batch_effect _ _ _ _ _ Hrun).
        intros [name' src'] Ha. cbn [fst]. apply output_not_prefix_output.
        intros <-. apply Hname. apply list_elem_of_fmap.
        by exists (name', src').
      * apply (IH _ _ _ Hnd Hrun). by rewrite Hfs3.
    + injection Hrun as <- <-.
      destruct (create_spritesheet_again_exc _ _ _ _ _ w2 Hcs Hfs)
        as (w3 & -> & Hfs3).
      exists w3. by rewrite Hfs3.
Qed.

Lemma main_outcome w :
  fst (main w) =
    match fst (for_each process_animation 0 ANIMATIONS
                 (mkWorld (fs w) (stdout w ++ banner))) with
    | Ret _ => Ret ()
    | Exc e => Exc e
    end /\
  fs (snd (main w)) =
    fs (snd (for_each process_animation 0 ANIMATIONS
               (mkWorld (fs w) (stdout w ++ banner)))).
Proof.
  rewrite main_run.
  by destruct (for_each process_animation 0 ANIMATIONS
                 (mkWorld (fs w) (stdout w ++ banner))) as [[cnt|e] w'].
Qed.

Lemma create_spritesheet_same_inputs_same name src out w w' :
  same_inputs (fs w) (fs w') ->
  writable (fs w) out = true ->
  writable (fs w') out = true ->
  fst (create_spritesheet name src out w) =
    fst (create_spritesheet name src out w') /\
  (exists lines,
     stdout (snd (create_spritesheet name src out w)) = stdout w ++ lines /\
     stdout (snd (create_spritesheet name src out w')) = stdout w' ++ lines) /\
  (fst (create_spritesheet name src out w) = Ret true ->
   exists sheet,
     lookup_path (fs (snd (create_spritesheet name src out w))) out =
       Some (File (Some sheet)) /\
     lookup_path (fs (snd (create_spritesheet name src out w'))) out =
       Some (File (Some sheet))).
Proof.
  intros Hin Hw Hw'. rewrite !create_spritesheet_run.
  rewrite <- (verdict_same_inputs _ _ name src Hin).
  destruct (verdict (fs w) name src) as [lg|e lg|sheet lg].
  - split_and!; [done|by eauto|done].
  - split_and!; [done|by eauto|done].
  - rewrite !save_run_writable by done. cbn [fst snd fs stdout].
    split_and!; [done| |].
    + exists (lg ++ [Saved out]). by rewrite !app_assoc.
    + intros _. exists sheet. by rewrite !saved_lookup.
Qed.

(** ** A worked example *)

(** On [two_white_frames] the script saves a [walk.png] of 208x832 pixels
    whose row 0 is white in both columns and whose other rows are
    transparent, and reports one sheet of three. *)
Example two_white_frames_sheet :
  exists sheet w',
    main (mkWorld two_white_frames []) = (Ret (), w') /\
    Done 1 3 ∈ stdout w' /\
    lookup_path (fs w') ["spritesheets"; "walk.png"] = Some (File (Some sheet)) /\
    width sheet = 208 /\ height sheet = 832 /\
    (forall px py, 0 <= px < 208 -> 0 <= py < 832 ->
       pixel sheet px py = if py <? 104 then white else transparent).
Proof.
  set (w := mkWorld two_white_frames []).
  set (sheet :=
         match lookup_path (fs (snd (main w))) ["spritesheets"; "walk.png"] with
         | Some (File (Some sheet)) => sheet
         | _ => blank_sheet 0
         end).
  exists sheet, (snd (main w)).
  assert (pixel sheet =
          fun px py =>
            if in_image (blank_sheet 2) px py && in_box 104 0 104 104 px py
            then white
            else if in_image (blank_sheet 2) px py && in_box 0 0 104 104 px py
                 then white else transparent) as Hpx
      by (vm_compute; reflexivity).
  split_and!.
  - assert (fst (main w) = Ret ()) as Hret by (vm_compute; reflexivity).
    destruct (main w) as [o w'']. simpl in *. by subst.
  - apply list_elem_of_In. vm_compute.
    repeat (first [left; reflexivity | right]).
  - vm_compute. reflexivity.
  - vm_compute. reflexivity.
  - vm_compute. reflexivity.
  - intros px py Hx Hy. rewrite Hpx.
    assert (in_image (blank_sheet 2) px py = true) as ->
        by (apply in_image_true;
            rewrite blank_sheet_width, blank_sheet_height;
            unfold FRAME_WIDTH, FRAME_HEIGHT; lia).
    cbn [andb]. unfold in_box.
    destruct (Z.ltb_spec py 104);
      repeat match goal with
             | |- context [?a <=? ?b] => destruct (Z.leb_spec a b)
             | |- context [?a <? ?b] => destruct (Z.ltb_spec a b)
             end; simpl; try reflexivity; lia.
Qed.

(** * The claims *)

(** C1, as the script behaves.  [create_spritesheet] has no handler
    around [os.makedirs] and [save], and [main] has none around
    [create_spritesheet].  When an animation reaches the save and the
    output location cannot be written, the exception leaves
    [create_spritesheet] and [main]: the run ends there with that
    exception.  The script has printed nothing about the error and prints no
    summary, the remaining animations are not processed, and nothing
    outside the output directory path has changed; what earlier animations
    have written stays. *)
Theorem write_error_propagates (w : World) (pre post : list (string * string))
    (name src : string) (cnt : Z) (w1 : World) :
  ANIMATIONS = pre ++ (name, src) :: post ->
  for_each process_animation 0 pre (mkWorld (fs w) (stdout w ++ banner)) =
    (Ret cnt, w1) ->
  has_frames (fs w1) src ->
  writable (fs w1) (output_path_of name) = false ->
  exists e w2,
    create_spritesheet name src (output_path_of name) w1 = (Exc e, w2) /\
    main w = (Exc e, w2) /\
    stdout w2 = stdout w1 ++ compose_lines (fs w1) name src /\
    (forall p, ~ p `prefix_of` output_dir ->
       lookup_path (fs w2) p = lookup_path (fs w1) p).
Proof.
  intros Hsplit Hpre (Hex & Hls & Hmax) Hw.
  pose proof (create_spritesheet_scanned name src (output_path_of name) w1
                Hex Hls) as Hrun.
  cbn zeta in Hrun.
  destruct (Z.eqb_spec (max_frames_of (fs w1) (animation_path_of src)) 0);
    [lia|].
  destruct (save_run_unwritable
              (sheet_of (fs w1) (animation_path_of src))
              (output_path_of name)
              (mkWorld (fs w1) (stdout w1 ++ compose_lines (fs w1) name src)) Hw)
    as (e & w2 & Hsave & Hout & Hlk).
  rewrite Hsave in Hrun.
  exists e, w2. split_and!; [exact Hrun| |exact Hout|exact Hlk].
  rewrite main_run, Hsplit, for_each_app, Hpre, batch_step. by rewrite Hrun.
Qed.

(** At [walk_png_is_directory]: the idle sheet is saved, the save of the
    walk sheet fails. *)
Lemma write_error_propagates_walk_png :
  exists e w2,
    main (mkWorld walk_png_is_directory []) = (Exc e, w2) /\
    (forall p, ~ p `prefix_of` output_dir ->
       lookup_path (fs w2) p =
       lookup_path
         (fs (snd (for_each process_animation 0 [("idle", "breathing-idle")]
                     (mkWorld walk_png_is_directory banner)))) p).
Proof.
  destruct (write_error_propagates (mkWorld walk_png_is_directory [])
              [("idle", "breathing-idle")] [("run", "running-6-frames")]
              "walk" "walk" 1
              (snd (for_each process_animation 0 [("idle", "breathing-idle")]
                      (mkWorld walk_png_is_directory banner))))
    as (e & w2 & _ & Hmain & _ & Hlk).
  - reflexivity.
  - vm_compute. reflexivity.
  - apply has_framesb_spec. vm_compute. reflexivity.
  - vm_compute. reflexivity.
  - exists e, w2. split; [exact Hmain | exact Hlk].
Defined.

(** C1, as stated, fails.  In [walk_png_is_directory] every animation
    has a frame, and [spritesheets/walk.png] is a directory.  [main] writes
    [idle.png], the save of the walk sheet raises, and the exception ends
    [main]: the last line of the output is the one printed before the
    second loop of the walk animation, no summary line is printed, and the
    run animation, whose frames are in place, is never processed. *)
Lemma write_error_ends_batch :
  fst (main (mkWorld walk_png_is_directory [])) =
    Exc (IsADirectoryError ["spritesheets"; "walk.png"]) /\
  last (stdout (snd (main (mkWorld walk_png_is_directory [])))) =
    Some (CreatingSheet 104 832 1) /\
  (forall c t, Done c t ∉ stdout (snd (main (mkWorld walk_png_is_directory [])))) /\
  has_frames walk_png_is_directory "running-6-frames" /\
  lookup_path (fs (snd (main (mkWorld walk_png_is_directory []))))
    ["spritesheets"; "run.png"] = None /\
  ~ (exists w', main (mkWorld walk_png_is_directory []) = (Ret (), w')).
Proof.
  assert (fst (main (mkWorld walk_png_is_directory [])) =
          Exc (IsADirectoryError ["spritesheets"; "walk.png"])) as Hexc
      by (vm_compute; reflexivity).
  split_and!.
  - exact Hexc.
  - vm_compute. reflexivity.
  - intros c t Hin.
    apply list_elem_of_In in Hin.
    apply (in_map (fun l => match l with Done _ _ => true | _ => false end))
      in Hin.
    vm_compute in Hin. clear Hexc. intuition discriminate.
  - apply has_framesb_spec. vm_compute. reflexivity.
  - vm_compute. reflexivity.
  - intros [w' Hrun]. rewrite Hrun in Hexc. discriminate Hexc.
Qed.

(** C2.  Frame placement.  Let [d] be the direction at position [r] of
    [DIRECTIONS], its only position there, and [p] the frame file at
    position [i] of the sorted frames of [d], decoding to [img].  The
    loops reach [p] with [row = r] and [col = i], and the loop body pastes
    [img] at the cell origin [(i * 104, r * 104)], which lies on the sheet.
    In the sheet that is saved, the part of the frame inside its cell is
    at that place: pixel [(dx, dy)] of the frame is pixel
    [(i * 104 + dx, r * 104 + dy)] of the sheet.  All of this is a function
    of the tree. *)
Theorem frame_placement (w : World) (name src : string) (out : Path)
    (r i : nat) (d : string) (p : Path) (img : Image) :
  let ap := animation_path_of src in
  let x := Z.of_nat i * 104 in
  let y := Z.of_nat r * 104 in
  listable (fs w) ap ->
  writable (fs w) out = true ->
  DIRECTIONS !! r = Some d ->
  frames_at (fs w) ap d !! i = Some p ->
  decode (fs w) p = Some img ->
  (forall r', DIRECTIONS !! r' = Some d -> r' = r) /\
  (Z.of_nat r, d) ∈ enumerate DIRECTIONS /\
  (Z.of_nat i, p) ∈ enumerate (frames_at (fs w) ap d) /\
  (forall sheet0 w0, fs w0 = fs w ->
     paste_frame (Z.of_nat r) sheet0 (Z.of_nat i, p) w0 =
       (Ret (paste sheet0 img (x, y)), w0)) /\
  exists sheet w',
    create_spritesheet name src out w = (Ret true, w') /\
    lookup_path (fs w') out = Some (File (Some sheet)) /\
    in_image sheet x y = true /\
    (forall dx dy,
       0 <= dx < Z.min (width img) 104 ->
       0 <= dy < Z.min (height img) 104 ->
       pixel sheet (x + dx) (y + dy) = pixel img dx dy).
Proof.
  cbn zeta. intros Hls Hw Hr Hp Hdec.
  pose proof (frame_has_frames _ _ _ _ _ _ Hls Hr Hp) as (Hex & _ & Hmax).
  split_and!.
  - intros r' Hr'. by apply (NoDup_lookup _ _ _ _ DIRECTIONS_NoDup Hr' Hr).
  - apply elem_of_enumerate. eauto.
  - apply elem_of_enumerate. eauto.
  - intros sheet0 w0 Hw0. rewrite <- Hw0 in Hdec.
    rewrite paste_frame_run. simpl. rewrite Hdec. by rewrite world_app_nil.
  - exists (sheet_of (fs w) (animation_path_of src)). eexists. split_and!.
    + by apply create_spritesheet_composed.
    + cbn [fs]. by apply saved_lookup.
    + apply in_image_true. rewrite sheet_of_width, sheet_of_height.
      pose proof (frame_index_lt_max _ _ d i p
                    (list_elem_of_lookup_2 _ _ _ Hr) Hp) as Hi.
      apply lookup_lt_Some in Hr. change (length DIRECTIONS) with 8%nat in Hr.
      unfold FRAME_WIDTH, FRAME_HEIGHT. lia.
    + intros dx dy Hdx Hdy.
      apply (sheet_own_pixel _ _ r d i p img); unfold FRAME_WIDTH, FRAME_HEIGHT;
        try done; lia.
Qed.

(** At [walk_only]: the first frame of [south] fills cell (0, 0). *)
Lemma frame_placement_walk_only :
  exists sheet w',
    create_spritesheet "walk" "walk" ["spritesheets"; "walk.png"]
      (mkWorld walk_only []) = (Ret true, w') /\
    lookup_path (fs w') ["spritesheets"; "walk.png"] = Some (File (Some sheet)) /\
    (forall dx dy, 0 <= dx < 104 -> 0 <= dy < 104 ->
       pixel sheet (0 + dx) (0 + dy) = white).
Proof.
  destruct (frame_placement (mkWorld walk_only []) "walk" "walk"
              ["spritesheets"; "walk.png"] 0 0 "south"
              ["animations"; "walk"; "south"; "frame_00.png"]
              (solid 104 104 white))
    as (_ & _ & _ & _ & sheet & w' & Hrun & Hfile & _ & Hpx).
  - unfold listable. apply scan_failure_None. vm_compute. reflexivity.
  - vm_compute. reflexivity.
  - reflexivity.
  - vm_compute. reflexivity.
  - vm_compute. reflexivity.
  - exists sheet, w'. split_and!; [exact Hrun | exact Hfile |].
    intros dx dy Hdx Hdy. rewrite Hpx; [reflexivity | simpl; lia..].
Defined.

(** C3.  The canvas.  When the first loop completes and finds a frame,
    [max_frames] is the largest frame count of the eight directions, and
    the canvas that [Image.new] allocates is [max_frames * 104] wide and
    [8 * 104 = 832] high with every pixel transparent.  The second loop
    starts from this canvas and keeps its size, and its result is the
    sheet that [create_spritesheet] goes on to save. *)
Theorem canvas_size (w : World) (name src : string) (out : Path) :
  has_frames (fs w) src ->
  let ap := animation_path_of src in
  let max_frames := max_frames_of (fs w) ap in
  (forall d, d ∈ DIRECTIONS -> len (frames_at (fs w) ap d) <= max_frames) /\
  (exists d, d ∈ DIRECTIONS /\ max_frames = len (frames_at (fs w) ap d)) /\
  exists direction_frames canvas sheet w1 w2,
    for_each (scan_direction ap) (0, ∅) DIRECTIONS
      (mkWorld (fs w) (stdout w ++ [Creating name src])) =
      (Ret (max_frames, direction_frames), w1) /\
    canvas = Image_new (max_frames * FRAME_WIDTH, len DIRECTIONS * FRAME_HEIGHT)
               transparent /\
    width canvas = max_frames * 104 /\
    height canvas = 832 /\
    (forall px py, pixel canvas px py = transparent) /\
    for_each (paste_direction direction_frames) canvas (enumerate DIRECTIONS)
      (mkWorld (fs w1)
         (stdout w1 ++ [CreatingSheet (max_frames * 104) 832 max_frames])) =
      (Ret sheet, w2) /\
    width sheet = max_frames * 104 /\
    height sheet = 832 /\
    create_spritesheet name src out w =
      (os_makedirs (dirname out);;
       Image_save sheet out;;
       print (Saved out);;
       mret true) w2.
Proof.
  intros (Hex & Hls & Hmax). cbn zeta.
  set (ap := animation_path_of src). set (root := fs w).
  split_and!.
  - intros d Hd. by apply max_count_elem.
  - destruct (max_count_attained root ap DIRECTIONS 0) as [H0|H]; [|done].
    unfold max_frames_of in Hmax. fold ap root in Hmax. lia.
  - exists (frames_dict root ap DIRECTIONS ∅),
           (blank_sheet (max_frames_of root ap)),
           (sheet_of root ap),
           (mkWorld root (stdout w ++ [Creating name src] ++
                          scan_lines root ap DIRECTIONS)),
           (mkWorld root (stdout w ++ compose_lines root name src)).
    split_and!; try done.
    + rewrite scan_directions_run by (cbn [fs]; intros; by apply Hls).
      cbn [fs stdout]. by rewrite <- app_assoc.
    + cbn [fs stdout].
      rewrite (paste_directions_run root ap); [|done|].
      * cbn [stdout]. unfold sheet_of, jobs_of, compose_lines. cbn zeta.
        fold ap root. by rewrite <- !app_assoc.
      * intros rd Hrd. apply frames_dict_lookup.
        by apply enumerate_snd_elem_of.
    + apply sheet_of_width.
    + apply sheet_of_height.
    + rewrite create_spritesheet_scanned by done. cbn zeta. fold ap root.
      destruct (Z.eqb_spec (max_frames_of root ap) 0); [|done].
      unfold max_frames_of in Hmax. fold ap root in Hmax.
      unfold max_frames_of in *. lia.
Qed.

(** At [walk_only]. *)
Lemma canvas_size_walk_only :
  exists direction_frames canvas sheet w1 w2,
    for_each (scan_direction ["animations"; "walk"]) (0, ∅) DIRECTIONS
      (mkWorld walk_only [Creating "walk" "walk"]) =
      (Ret (max_frames_of walk_only ["animations"; "walk"], direction_frames),
       w1) /\
    width canvas = max_frames_of walk_only ["animations"; "walk"] * 104 /\
    height canvas = 832 /\
    (forall px py, pixel canvas px py = transparent) /\
    width sheet = max_frames_of walk_only ["animations"; "walk"] * 104 /\
    height sheet = 832 /\
    create_spritesheet "walk" "walk" ["spritesheets"; "walk.png"]
      (mkWorld walk_only []) =
      (os_makedirs ["spritesheets"];;
       Image_save sheet ["spritesheets"; "walk.png"];;
       print (Saved ["spritesheets"; "walk.png"]);;
       mret true) w2.
Proof.
  destruct (canvas_size (mkWorld walk_only []) "walk" "walk"
              ["spritesheets"; "walk.png"])
    as (_ & _ & df & canvas & sheet & w1 & w2 & H1 & _ & H3 & H4 & H5 & _ &
        H7 & H8 & H9).
  - apply has_framesb_spec. vm_compute. reflexivity.
  - exists df, canvas, sheet, w1, w2. split_and!; assumption.
Defined.

(** C4.  No frames.  When the source folder exists and the first loop
    completes with [max_frames = 0], [create_spritesheet] prints the
    "no frames" line, returns [False] and leaves the tree as it is: it
    writes no file and creates no directory.  No exception is raised, and
    the batch loop goes on to the remaining animations with the same
    count. *)
Theorem no_frames_fails (w : World) (name src : string) (out : Path) :
  is_Some (lookup_path (fs w) (animation_path_of src)) ->
  listable (fs w) (animation_path_of src) ->
  max_frames_of (fs w) (animation_path_of src) = 0 ->
  exists w',
    create_spritesheet name src out w = (Ret false, w') /\
    fs w' = fs w /\
    (exists lines, stdout w' = stdout w ++ lines ++ [NoFramesFound name]) /\
    (forall cnt rest,
       for_each process_animation cnt ((name, src) :: rest) w =
       for_each process_animation cnt rest
         (mkWorld (fs w)
            (stdout w ++ [Creating name src] ++
             scan_lines (fs w) (animation_path_of src) DIRECTIONS ++
             [NoFramesFound name]))).
Proof.
  intros Hex Hls Hmax. eexists. split_and!.
  - by apply create_spritesheet_empty.
  - done.
  - cbn [stdout]. eexists ([Creating name src] ++ _). by rewrite <- app_assoc.
  - intros cnt rest. rewrite batch_step.
    by rewrite create_spritesheet_empty.
Qed.

(** At [walk_empty]. *)
Lemma no_frames_fails_walk_empty :
  exists w',
    create_spritesheet "walk" "walk" ["spritesheets"; "walk.png"]
      (mkWorld walk_empty []) = (Ret false, w') /\
    fs w' = walk_empty /\
    (exists lines, stdout w' = [] ++ lines ++ [NoFramesFound "walk"]).
Proof.
  destruct (no_frames_fails (mkWorld walk_empty []) "walk" "walk"
              ["spritesheets"; "walk.png"])
    as (w' & Hrun & Hfs & Hout & _).
  - vm_compute. eauto.
  - unfold listable. apply scan_failure_None. vm_compute. reflexivity.
  - vm_compute. reflexivity.
  - exists w'. split_and!; assumption.
Defined.

(** C5.  A missing source folder.  When the source folder of one
    animation does not exist and each of the other animations has frames
    and a writable output location, [main] returns normally: the missing
    animation is reported on the output and nothing is written for it, its
    [False] adds nothing to the count while each of the others adds one,
    and the summary line reads [total - 1] of [total]. *)
Theorem absent_folder_skipped (w : World) (name src : string) :
  (name, src) ∈ ANIMATIONS ->
  lookup_path (fs w) (animation_path_of src) = None ->
  (forall name' src', (name', src') ∈ ANIMATIONS -> name' <> name ->
     ready (fs w) name' src') ->
  exists w',
    main w = (Ret (), w') /\
    AnimationFolderNotFound (animation_path_of src) ∈ stdout w' /\
    Done (len ANIMATIONS - 1) (len ANIMATIONS) ∈ stdout w' /\
    lookup_path (fs w') (output_path_of name) =
      lookup_path (fs w) (output_path_of name).
Proof.
  intros Hin Habs Hothers.
  destruct (list_elem_of_split _ _ Hin) as (pre & post & Hsplit).
  pose proof ANIMATIONS_NoDup as Hnd.
  destruct (batch_one_absent ANIMATIONS pre name src post 0
              (mkWorld (fs w) (stdout w ++ banner)) Hsplit Hnd Habs)
    as (w' & lines & Hrun & Hout & Hlog & Hlk).
  { intros [name' src'] Ha. cbn [fst snd fs]. apply Hothers.
    - rewrite Hsplit. rewrite elem_of_app, elem_of_cons.
      apply elem_of_app in Ha. tauto.
    - intros ->. rewrite Hsplit, map_app in Hnd. cbn [map fst] in Hnd.
      apply NoDup_app in Hnd as (_ & Hdisj & Hpost).
      apply NoDup_cons in Hpost as [Hname _].
      apply elem_of_app in Ha as [Ha|Ha].
      + apply (Hdisj name); [|left]. apply list_elem_of_fmap.
        by exists (name, src').
      + apply Hname. apply list_elem_of_fmap. by exists (name, src'). }
  exists (mkWorld (fs w') (stdout w' ++ summary (len ANIMATIONS - 1))).
  split_and!.
  - rewrite main_run, Hrun. by rewrite Z.add_0_l.
  - cbn [stdout]. rewrite Hout. cbn [stdout]. rewrite !elem_of_app. auto.
  - cbn [stdout]. rewrite elem_of_app. right. unfold summary.
    rewrite !elem_of_cons. auto.
  - exact Hlk.
Qed.

(** At [walk_missing]: two sheets of three. *)
Lemma absent_folder_skipped_walk_missing :
  exists w',
    main (mkWorld walk_missing []) = (Ret (), w') /\
    AnimationFolderNotFound ["animations"; "walk"] ∈ stdout w' /\
    Done 2 3 ∈ stdout w' /\
    lookup_path (fs w') ["spritesheets"; "walk.png"] = None.
Proof.
  apply (absent_folder_skipped (mkWorld walk_missing []) "walk" "walk").
  - right. left.
  - vm_compute. reflexivity.
  - intros name' src' Hin Hne.
    apply elem_of_cons in Hin as [[= -> ->]|Hin];
      [split; [apply has_framesb_spec|]; vm_compute; reflexivity|].
    apply elem_of_cons in Hin as [[= -> ->]|Hin]; [by destruct Hne|].
    apply elem_of_cons in Hin as [[= -> ->]|Hin];
      [split; [apply has_framesb_spec|]; vm_compute; reflexivity|].
    by apply elem_of_nil in Hin.
Defined.




(** C7, as the script behaves.  Frame discovery, for each of the three
    things that can be at the direction path.  When it is a directory,
    [get_frame_files] returns, without printing, the paths of exactly
    those of its entries whose names start with "frame_" and end with
    ".png", each once, in the lexicographic order of the names.  When
    nothing exists there it prints the warning and returns the empty
    list.  When it is a plain file, [os.path.exists] is true, so no
    warning is printed and [os.listdir] raises [NotADirectoryError], which
    [get_frame_files] does not catch.  In all three cases the tree is left
    as it is. *)
Theorem get_frame_files_discovers (w : World) (animation_path : Path)
    (direction : string) :
  let dir_path := path_join animation_path direction in
  (forall es, lookup_path (fs w) dir_path = Some (Dir es) ->
     exists files,
       get_frame_files animation_path direction w =
         (Ret (map (path_join dir_path) files), w) /\
       (forall f, f ∈ files <->
          is_Some (es !! f) /\
          (exists r, f = ("frame_" ++ r)%string) /\
          (exists r, f = (r ++ ".png")%string)) /\
       NoDup files /\
       StronglySorted str_le files) /\
  (lookup_path (fs w) dir_path = None ->
     get_frame_files animation_path direction w =
       (Ret [], mkWorld (fs w)
                  (stdout w ++ [WarnDirectoryNotFound dir_path]))) /\
  (forall c, lookup_path (fs w) dir_path = Some (File c) ->
     get_frame_files animation_path direction w =
       (Exc (NotADirectoryError dir_path), w)).
Proof.
  cbn zeta. split_and!.
  - intros es Hl.
    exists (frame_names (fs w) (path_join animation_path direction)).
    split_and!.
    + by rewrite get_frame_files_run, Hl.
    + intros f. rewrite (frame_names_elem_of _ _ es) by done.
      by rewrite is_frame_name_spec.
    + apply frame_names_NoDup.
    + apply frame_names_sorted.
  - intros Hl. by rewrite get_frame_files_run, Hl.
  - intros c Hl. by rewrite get_frame_files_run, Hl.
Qed.

(** At [walk_only]: [south] is a directory, [north] does not exist; at
    [east_is_file]: [east] is a plain file. *)
Lemma get_frame_files_discovers_walk_south :
  (exists files,
     get_frame_files ["animations"; "walk"] "south" (mkWorld walk_only []) =
       (Ret (map (path_join ["animations"; "walk"; "south"]) files),
        mkWorld walk_only []) /\
     (forall f, f ∈ files <->
        is_Some (walk_south !! f) /\
        (exists r, f = ("frame_" ++ r)%string) /\
        (exists r, f = (r ++ ".png")%string)) /\
     NoDup files /\
     StronglySorted str_le files) /\
  get_frame_files ["animations"; "walk"] "north" (mkWorld walk_only []) =
    (Ret [], mkWorld walk_only
               [WarnDirectoryNotFound ["animations"; "walk"; "north"]]) /\
  get_frame_files ["animations"; "walk"] "east" (mkWorld east_is_file []) =
    (Exc (NotADirectoryError ["animations"; "walk"; "east"]),
     mkWorld east_is_file []).
Proof.
  split_and!.
  - apply (proj1 (get_frame_files_discovers (mkWorld walk_only [])
                    ["animations"; "walk"] "south") walk_south).
    vm_compute. reflexivity.
  - apply (proj1 (proj2 (get_frame_files_discovers (mkWorld walk_only [])
                           ["animations"; "walk"] "north"))).
    vm_compute. reflexivity.
  - apply (proj2 (proj2 (get_frame_files_discovers (mkWorld east_is_file [])
                           ["animations"; "walk"] "east")) None).
    vm_compute. reflexivity.
Defined.

(** C7, as stated, fails.  In [east_is_file] the entry [east] of
    [animations/walk] is a plain file.  For the direction label [east],
    [get_frame_files] prints no diagnostic and does not return: it raises
    [NotADirectoryError], and the call of [create_spritesheet] that asked
    for the frames ends with that exception too. *)
Lemma get_frame_files_raises_on_plain_file :
  "east" ∈ DIRECTIONS /\
  lookup_path east_is_file ["animations"; "walk"; "east"] = Some (File None) /\
  get_frame_files ["animations"; "walk"] "east" (mkWorld east_is_file []) =
    (Exc (NotADirectoryError ["animations"; "walk"; "east"]),
     mkWorld east_is_file []) /\
  ~ (exists files w',
       get_frame_files ["animations"; "walk"] "east"
         (mkWorld east_is_file []) = (Ret files, w')) /\
  fst (create_spritesheet "walk" "walk" (output_path_of "walk")
         (mkWorld east_is_file [])) =
    Exc (NotADirectoryError ["animations"; "walk"; "east"]).
Proof.
  assert (get_frame_files ["animations"; "walk"] "east"
            (mkWorld east_is_file []) =
          (Exc (NotADirectoryError ["animations"; "walk"; "east"]),
           mkWorld east_is_file [])) as Hrun by (vm_compute; reflexivity).
  split_and!.
  - unfold DIRECTIONS. right. right. left.
  - vm_compute. reflexivity.
  - exact Hrun.
  - intros (files & w' & Hret). rewrite Hrun in Hret. discriminate Hret.
  - vm_compute. reflexivity.
Qed.

(** C8.  Running twice.  What [create_spritesheet] composes depends on
    the tree below [animations/] only: on two trees that hold the same
    there, with writable output locations, it ends in the same way, prints
    the same lines and, when it saves, saves the same sheet, whatever the
    output so far and the rest of the tree.  A second run of [main] on the
    tree that a first run has left ends in the same way as the first and
    leaves the tree as it found it: every sheet it saves is the one that is
    there already. *)
Theorem main_twice (w : World) :
  (forall name src out w',
     same_inputs (fs w) (fs w') ->
     writable (fs w) out = true ->
     writable (fs w') out = true ->
     fst (create_spritesheet name src out w) =
       fst (create_spritesheet name src out w') /\
     (exists lines,
        stdout (snd (create_spritesheet name src out w)) = stdout w ++ lines /\
        stdout (snd (create_spritesheet name src out w')) = stdout w' ++ lines) /\
     (fst (create_spritesheet name src out w) = Ret true ->
      exists sheet,
        lookup_path (fs (snd (create_spritesheet name src out w))) out =
          Some (File (Some sheet)) /\
        lookup_path (fs (snd (create_spritesheet name src out w'))) out =
          Some (File (Some sheet)))) /\
  fst (main (snd (main w))) = fst (main w) /\
  fs (snd (main (snd (main w)))) = fs (snd (main w)).
Proof.
  split; [intros; by apply create_spritesheet_same_inputs_same|].
  destruct (main_outcome w) as [Ho Hf].
  destruct (main_outcome (snd (main w))) as [Ho2 Hf2].
  destruct (for_each process_animation 0 ANIMATIONS
              (mkWorld (fs w) (stdout w ++ banner))) as [r w1] eqn:Hrun.
  cbn [fst snd] in Ho, Hf.
  destruct (batch_again ANIMATIONS 0 _ r w1
              (mkWorld (fs (snd (main w))) (stdout (snd (main w)) ++ banner))
              ANIMATIONS_NoDup Hrun Hf) as (w3 & Hrun2 & Hfs3).
  rewrite Hrun2 in Ho2, Hf2. cbn [fst snd] in Ho2, Hf2.
  split; congruence.
Qed.

(** C9.  Success does not depend on decoding.  When the first loop
    completes and finds a frame file and the output location can be
    written, [create_spritesheet] saves a sheet to the output path and
    returns [True], whatever the frames decode to, and the batch loop
    counts the animation as a success.  The saved sheet has the full
    size, a positive number [max_frames] of cells wide and 8 cells high,
    that is [max_frames * 104] by 832 pixels, the same as when every
    frame decodes.  When no frame decodes at all, every pixel of it is
    transparent. *)
Theorem undecodable_frames_still_succeed (w : World) (name src : string) :
  has_frames (fs w) src ->
  writable (fs w) (output_path_of name) = true ->
  exists sheet w',
    create_spritesheet name src (output_path_of name) w = (Ret true, w') /\
    lookup_path (fs w') (output_path_of name) = Some (File (Some sheet)) /\
    Saved (output_path_of name) ∈ stdout w' /\
    (forall cnt, process_animation cnt (name, src) w = (Ret (cnt + 1), w')) /\
    0 < max_frames_of (fs w) (animation_path_of src) /\
    width sheet = max_frames_of (fs w) (animation_path_of src) * 104 /\
    height sheet = 832 /\
    ((forall d p, d ∈ DIRECTIONS ->
        p ∈ frames_at (fs w) (animation_path_of src) d ->
        decode (fs w) p = None) ->
     forall px py, pixel sheet px py = transparent).
Proof.
  intros (Hex & Hls & Hmax) Hw.
  exists (sheet_of (fs w) (animation_path_of src)). eexists.
  pose proof (create_spritesheet_composed name src _ w Hex Hls Hmax Hw) as Hrun.
  split_and!.
  - exact Hrun.
  - cbn [fs]. by apply saved_lookup.
  - cbn [stdout]. rewrite !elem_of_app, list_elem_of_singleton. auto.
  - intros cnt. by rewrite process_animation_run, Hrun.
  - exact Hmax.
  - apply sheet_of_width.
  - apply sheet_of_height.
  - intros Hnone px py. apply sheet_blank_pixel. intros j Hj.
    apply elem_of_jobs_of in Hj as (r & d & i & p & -> & Hr & Hp).
    simpl. rewrite (Hnone d p); [done| |].
    + by apply list_elem_of_lookup_2 in Hr.
    + by apply list_elem_of_lookup_2 in Hp.
Qed.

(** At [walk_broken]: two frames, neither decodes; the sheet is 208 by
    832 pixels. *)
Lemma undecodable_frames_still_succeed_walk_broken :
  exists sheet w',
    create_spritesheet "walk" "walk" (output_path_of "walk")
      (mkWorld walk_broken []) = (Ret true, w') /\
    lookup_path (fs w') (output_path_of "walk") = Some (File (Some sheet)) /\
    (forall cnt,
       process_animation cnt ("walk", "walk") (mkWorld walk_broken []) =
       (Ret (cnt + 1), w')) /\
    width sheet = 208 /\
    height sheet = 832 /\
    (forall px py, pixel sheet px py = transparent).
Proof.
  destruct (undecodable_frames_still_succeed (mkWorld walk_broken [])
              "walk" "walk")
    as (sheet & w' & Hrun & Hfile & _ & Hcnt & _ & Hwd & Hht & Hblank).
  - apply has_framesb_spec. vm_compute. reflexivity.
  - vm_compute. reflexivity.
  - exists sheet, w'.
    split_and!; [exact Hrun | exact Hfile | exact Hcnt | | exact Hht |].
    { rewrite Hwd.
      assert (max_frames_of (fs (mkWorld walk_broken []))
                (animation_path_of "walk") = 2) as ->
          by (vm_compute; reflexivity).
      reflexivity. }
    apply Hblank. clear Hrun Hfile Hcnt Hblank Hwd Hht. intros d p Hd Hp.
    apply list_elem_of_fmap in Hp as [f [-> Hf]].
    cbn [fs] in *.
    repeat (apply elem_of_cons in Hd as [->|Hd];
            [vm_compute in Hf;
             repeat (apply elem_of_cons in Hf as [->|Hf]; [reflexivity|]);
             by apply elem_of_nil in Hf|]).
    by apply elem_of_nil in Hd.
Defined.

(** C10, as the script behaves.  The size of a frame is never compared
    with the cell size.  The loop body pastes every frame that decodes at
    its cell origin [(i * 104, r * 104)] with the frame's own width and
    height: on the sheet, the pixels in the box of that size are replaced
    by the frame's and all others are kept, whatever cell they belong to.
    In the saved sheet, the part of the frame inside its own cell is the
    frame's; a pixel of the frame's box beyond its cell, on the sheet, is
    the frame's unless a later paste covers it; and the part of the cell
    that a smaller frame does not cover is transparent when no decoded
    frame of the animation is larger than a cell.  Whatever the sizes, a
    pixel of the saved sheet is transparent when the box of no decoded
    frame covers it, and otherwise it is the pixel of the last frame, in
    the order of the pastes, whose box covers it. *)
Theorem frame_size_not_checked (w : World) (name src : string) (out : Path)
    (r i : nat) (d : string) (p : Path) (img : Image) :
  let ap := animation_path_of src in
  let x := Z.of_nat i * 104 in
  let y := Z.of_nat r * 104 in
  listable (fs w) ap ->
  writable (fs w) out = true ->
  DIRECTIONS !! r = Some d ->
  frames_at (fs w) ap d !! i = Some p ->
  decode (fs w) p = Some img ->
  (forall sheet0 w0, fs w0 = fs w ->
     paste_frame (Z.of_nat r) sheet0 (Z.of_nat i, p) w0 =
       (Ret (paste sheet0 img (x, y)), w0)) /\
  (forall sheet0 px py, in_image sheet0 px py = true ->
     pixel (paste sheet0 img (x, y)) px py =
     if in_box x y (width img) (height img) px py
     then pixel img (px - x) (py - y)
     else pixel sheet0 px py) /\
  exists sheet w',
    create_spritesheet name src out w = (Ret true, w') /\
    lookup_path (fs w') out = Some (File (Some sheet)) /\
    width sheet = max_frames_of (fs w) ap * 104 /\
    height sheet = 832 /\
    (forall dx dy,
       0 <= dx < Z.min (width img) 104 ->
       0 <= dy < Z.min (height img) 104 ->
       pixel sheet (x + dx) (y + dy) = pixel img dx dy) /\
    (forall px py,
       in_image sheet px py = true ->
       in_box x y (width img) (height img) px py = true ->
       (forall j', j' ∈ jobs_of (fs w) ap ->
          job_lt (Z.of_nat r, Z.of_nat i, p) j' ->
          job_covers (fs w) j' px py = false) ->
       pixel sheet px py = pixel img (px - x) (py - y)) /\
    (frames_fit (fs w) ap ->
     forall px py,
       in_cell (Z.of_nat i) (Z.of_nat r) px py = true ->
       in_box x y (width img) (height img) px py = false ->
       pixel sheet px py = transparent) /\
    (forall px py,
       (forall j, j ∈ jobs_of (fs w) ap ->
          job_covers (fs w) j px py = false) ->
       pixel sheet px py = transparent) /\
    (forall (r' i' : nat) d' p' img' px py,
       DIRECTIONS !! r' = Some d' ->
       frames_at (fs w) ap d' !! i' = Some p' ->
       decode (fs w) p' = Some img' ->
       in_image sheet px py = true ->
       in_box (Z.of_nat i' * 104) (Z.of_nat r' * 104)
              (width img') (height img') px py = true ->
       (forall j', j' ∈ jobs_of (fs w) ap ->
          job_lt (Z.of_nat r', Z.of_nat i', p') j' ->
          job_covers (fs w) j' px py = false) ->
       pixel sheet px py =
       pixel img' (px - Z.of_nat i' * 104) (py - Z.of_nat r' * 104)).
Proof.
  cbn zeta. intros Hls Hw Hr Hp Hdec.
  pose proof (frame_has_frames _ _ _ _ _ _ Hls Hr Hp) as (Hex & _ & Hmax).
  split_and!.
  - intros sheet0 w0 Hw0. rewrite <- Hw0 in Hdec.
    rewrite paste_frame_run. simpl. rewrite Hdec. by rewrite world_app_nil.
  - intros sheet0 px py Him. simpl. by rewrite Him.
  - exists (sheet_of (fs w) (animation_path_of src)). eexists. split_and!.
    + by apply create_spritesheet_composed.
    + cbn [fs]. by apply saved_lookup.
    + apply sheet_of_width.
    + apply sheet_of_height.
    + intros dx dy Hdx Hdy.
      apply (sheet_own_pixel _ _ r d i p img);
        unfold FRAME_WIDTH, FRAME_HEIGHT; try done; lia.
    + intros px py Him Hbox Hlater.
      by apply (sheet_last_writer _ _ r i d p img).
    + intros Hfit px py Hcell Hbox.
      apply (cell_blank_if_fit _ _ r i); [done..|].
      intros d0 p0 Hr0 Hp0. rewrite Hr in Hr0. injection Hr0 as <-.
      rewrite Hp in Hp0. injection Hp0 as <-. simpl. by rewrite Hdec.
    + intros px py Hnone. by apply sheet_blank_pixel.
    + intros r' i' d' p' img' px py Hr' Hp' Hdec' Him Hbox Hlater.
      by apply (sheet_last_writer _ _ r' i' d' p' img').
Qed.

(** At [wide_then_small]: the first frame of [south] is 208 pixels wide
    and shows in cell (1, 0). *)
Lemma frame_size_not_checked_wide_then_small :
  exists sheet w',
    create_spritesheet "walk" "walk" (output_path_of "walk")
      (mkWorld wide_then_small []) = (Ret true, w') /\
    lookup_path (fs w') (output_path_of "walk") = Some (File (Some sheet)) /\
    (forall dx dy, 0 <= dx < 104 -> 0 <= dy < 104 ->
       pixel sheet (0 + dx) (0 + dy) = white) /\
    in_cell 1 0 200 0 = true /\
    pixel sheet 200 0 = white.
Proof.
  destruct (frame_size_not_checked (mkWorld wide_then_small []) "walk" "walk"
              (output_path_of "walk") 0 0 "south"
              ["animations"; "walk"; "south"; "frame_00.png"]
              (solid 208 104 white))
    as (_ & _ & sheet & w' & Hrun & Hfile & Hwd & Hht & Hown & Hpast & _).
  - unfold listable. apply scan_failure_None. vm_compute. reflexivity.
  - vm_compute. reflexivity.
  - reflexivity.
  - vm_compute. reflexivity.
  - vm_compute. reflexivity.
  - exists sheet, w'. split_and!; [exact Hrun | exact Hfile | | reflexivity |].
    + intros dx dy Hdx Hdy. rewrite Hown; [reflexivity | simpl; lia..].
    + assert (in_image sheet 200 0 = true) as Him.
      { apply in_image_true. rewrite Hwd, Hht.
        assert (max_frames_of (fs (mkWorld wide_then_small []))
                  (animation_path_of "walk") = 2) as ->
            by (vm_compute; reflexivity).
        lia. }
      rewrite Hpast; [reflexivity | exact Him | reflexivity |].
      clear Hrun Hfile Hown Hpast Him Hwd Hht.
      intros j' Hj' Hlt.
      assert (jobs_of (fs (mkWorld wide_then_small []))
                (animation_path_of "walk") =
              [(0, 0, ["animations"; "walk"; "south"; "frame_00.png"]);
               (0, 1, ["animations"; "walk"; "south"; "frame_01.png"])]) as Hjobs
          by (vm_compute; reflexivity).
      rewrite Hjobs in Hj'.
      apply elem_of_cons in Hj' as [->|Hj'].
      { unfold job_lt in Hlt. simpl in Hlt. lia. }
      apply elem_of_cons in Hj' as [->|Hj']; [|inversion Hj'].
      clear Hlt. vm_compute. reflexivity.
Defined.

(** C10, as stated, fails in its last part.  In [wide_then_small] the
    second frame of [south] is 50x50 pixels and decodes.  No pixel of its
    cell, column 1 of row 0, is transparent in the saved sheet: the frame
    has painted 50x50 pixels red, and the rest of the cell is the white
    right half of the first frame, which is 208 pixels wide. *)
Lemma small_frame_cell_not_transparent :
  frames_at wide_then_small (animation_path_of "walk") "south" !! 1%nat =
    Some ["animations"; "walk"; "south"; "frame_01.png"] /\
  decode wide_then_small ["animations"; "walk"; "south"; "frame_01.png"] =
    Some (solid 50 50 red_px) /\
  exists sheet w',
    create_spritesheet "walk" "walk" (output_path_of "walk")
      (mkWorld wide_then_small []) = (Ret true, w') /\
    lookup_path (fs w') (output_path_of "walk") = Some (File (Some sheet)) /\
    (forall px py, in_cell 1 0 px py = true ->
       pixel sheet px py = red_px \/ pixel sheet px py = white) /\
    (forall px py, in_cell 1 0 px py = true -> pixel sheet px py <> transparent).
Proof.
  assert (ready wide_then_small "walk" "walk") as Hready
      by (split; [apply has_framesb_spec|]; vm_compute; reflexivity).
  assert (forall px py, in_cell 1 0 px py = true ->
            pixel (sheet_of wide_then_small (animation_path_of "walk")) px py
              = red_px \/
            pixel (sheet_of wide_then_small (animation_path_of "walk")) px py
              = white) as Hcol.
  { intros px py Hcell. apply in_cell_true in Hcell.
    unfold FRAME_WIDTH, FRAME_HEIGHT in Hcell.
    unfold sheet_of.
    assert (jobs_of wide_then_small (animation_path_of "walk") =
            [(0, 0, ["animations"; "walk"; "south"; "frame_00.png"]);
             (0, 1, ["animations"; "walk"; "south"; "frame_01.png"])]) as ->
        by (vm_compute; reflexivity).
    assert (max_frames_of wide_then_small (animation_path_of "walk") = 2)
      as -> by (vm_compute; reflexivity).
    cbv [fold_left apply_job].
    assert (decode wide_then_small
              ["animations"; "walk"; "south"; "frame_01.png"] =
            Some (solid 50 50 red_px)) as -> by (vm_compute; reflexivity).
    assert (decode wide_then_small
              ["animations"; "walk"; "south"; "frame_00.png"] =
            Some (solid 208 104 white)) as -> by (vm_compute; reflexivity).
    cbn [paste pixel solid width height fst snd].
    assert (in_image (blank_sheet 2) px py = true) as ->
        by (apply in_image_true;
            rewrite blank_sheet_width, blank_sheet_height;
            unfold FRAME_WIDTH, FRAME_HEIGHT; lia).
    assert (in_box (0 * FRAME_WIDTH) (0 * FRAME_HEIGHT) 208 104 px py = true)
      as -> by (apply in_box_true; unfold FRAME_WIDTH, FRAME_HEIGHT; lia).
    cbn [andb].
    destruct (in_image _ px py && in_box _ _ 50 50 px py); auto. }
  split_and!; [vm_compute; reflexivity..|].
  exists (sheet_of wide_then_small (animation_path_of "walk")). eexists.
  split_and!.
  - by apply ready_run.
  - cbn [fs]. apply saved_lookup, Hready.
  - exact Hcol.
  - intros px py Hcell. destruct (Hcol px py Hcell) as [-> | ->]; discriminate.
Qed.

(** * Further properties *)

Lemma scan_failure_first root ap pre d post c :
  (forall d' c', d' ∈ pre ->
     lookup_path root (path_join ap d') <> Some (File c')) ->
  lookup_path root (path_join ap d) = Some (File c) ->
  scan_failure root ap (pre ++ d :: post) =
  Some (NotADirectoryError (path_join ap d), scan_lines root ap pre).
Proof.
  intros Hpre Hd. induction pre as [|d' pre IH]; simpl.
  - by rewrite Hd.
  - rewrite IH by (intros; apply Hpre; by right).
    destruct (lookup_path root (path_join ap d')) as [[c'|es]|] eqn:Hl;
      [|done..].
    by destruct (Hpre d' c' ltac:(left)).
Qed.

(** X1.  A direction entry that is a plain file.  [get_frame_files] tests
    the direction path with [os.path.exists] only, so for a plain file it
    goes on to [os.listdir], which raises [NotADirectoryError].  Nothing
    catches it: at the first such entry in the order of [DIRECTIONS],
    [create_spritesheet] ends with that exception after the lines of the
    directions before it, the tree is unchanged, and the batch loop ends
    with the same exception. *)
Theorem direction_file_raises (w : World) (name src : string)
    (pre post : list string) (d : string) (c : option Image) :
  let ap := animation_path_of src in
  DIRECTIONS = pre ++ d :: post ->
  (forall d' c', d' ∈ pre ->
     lookup_path (fs w) (path_join ap d') <> Some (File c')) ->
  lookup_path (fs w) (path_join ap d) = Some (File c) ->
  get_frame_files ap d w = (Exc (NotADirectoryError (path_join ap d)), w) /\
  let w' := mkWorld (fs w)
              (stdout w ++ [Creating name src] ++ scan_lines (fs w) ap pre) in
  create_spritesheet name src (output_path_of name) w =
    (Exc (NotADirectoryError (path_join ap d)), w') /\
  (forall cnt rest,
     for_each process_animation cnt ((name, src) :: rest) w =
     (Exc (NotADirectoryError (path_join ap d)), w')).
Proof.
  cbn zeta. intros Hsplit Hpre Hd.
  assert (create_spritesheet name src (output_path_of name) w =
          (Exc (NotADirectoryError (path_join (animation_path_of src) d)),
           mkWorld (fs w)
             (stdout w ++ [Creating name src] ++
              scan_lines (fs w) (animation_path_of src) pre))) as Hrun.
  { rewrite create_spritesheet_run. unfold verdict.
    rewrite Hsplit, (scan_failure_first _ _ _ _ _ c Hpre Hd).
    destruct (lookup_path (fs w) (animation_path_of src)) eqn:Hap; [done|].
    unfold path_join in Hd. rewrite lookup_path_app, Hap in Hd. done. }
  split_and!.
  - by rewrite get_frame_files_run, Hd.
  - exact Hrun.
  - intros cnt rest. by rewrite batch_step, Hrun.
Qed.

(** At [east_is_file]: [south] is scanned, [south-east] is missing, [east]
    raises. *)
Lemma direction_file_raises_east :
  create_spritesheet "walk" "walk" (output_path_of "walk")
    (mkWorld east_is_file []) =
  (Exc (NotADirectoryError ["animations"; "walk"; "east"]),
   mkWorld east_is_file
     ([Creating "walk" "walk"] ++
      scan_lines east_is_file ["animations"; "walk"] ["south"; "south-east"])).
Proof.
  apply (direction_file_raises (mkWorld east_is_file []) "walk" "walk"
           ["south"; "south-east"]
           ["north-east"; "north"; "north-west"; "west"; "south-west"]
           "east" None).
  - reflexivity.
  - intros d' c' Hd'.
    apply elem_of_cons in Hd' as [->|Hd']; [vm_compute; discriminate|].
    apply elem_of_cons in Hd' as [->|Hd']; [vm_compute; discriminate|].
    inversion Hd'.
  - vm_compute. reflexivity.
Defined.

(** X2.  The animation path is a plain file.  [os.path.exists] is true
    for it, so [create_spritesheet] does not report a missing folder: it
    scans the eight directions, none of which exists below a file, prints a
    warning and a zero count for each, then the "no frames" line, and
    returns [False] without touching the tree. *)
Theorem folder_is_plain_file (w : World) (name src : string) (out : Path)
    (c : option Image) :
  let ap := animation_path_of src in
  lookup_path (fs w) ap = Some (File c) ->
  create_spritesheet name src out w =
  (Ret false,
   mkWorld (fs w)
     (stdout w ++ [Creating name src] ++
      flat_map (fun d => [WarnDirectoryNotFound (path_join ap d);
                          DirectionFrames d 0]) DIRECTIONS ++
      [NoFramesFound name])).
Proof.
  cbn zeta. intros Hap.
  assert (forall d, lookup_path (fs w) (path_join (animation_path_of src) d)
                    = None) as Hnone.
  { intros d. unfold path_join. by rewrite lookup_path_app, Hap. }
  assert (forall l,
            scan_lines (fs w) (animation_path_of src) l =
            flat_map (fun d =>
                        [WarnDirectoryNotFound
                           (path_join (animation_path_of src) d);
                         DirectionFrames d 0]) l) as Hlines.
  { induction l as [|d l IH]; [done|]. unfold scan_lines in *. simpl.
    rewrite IH. unfold scan_line.
    by rewrite Hnone, (frames_at_missing _ _ _ (Hnone d)). }
  assert (forall l m, 0 <= m ->
            max_count (fs w) (animation_path_of src) l m = m) as Hmax.
  { induction l as [|d l IH]; intros m Hm; simpl; [done|].
    rewrite (frames_at_missing _ _ _ (Hnone d)). unfold len. simpl.
    rewrite IH; lia. }
  rewrite create_spritesheet_empty, Hlines; [done| | |].
  - by rewrite Hap.
  - intros d c' _. by rewrite Hnone.
  - by apply Hmax.
Qed.

(** At [walk_is_file]. *)
Lemma folder_is_plain_file_walk :
  fst (create_spritesheet "walk" "walk" (output_path_of "walk")
         (mkWorld walk_is_file [])) = Ret false /\
  fs (snd (create_spritesheet "walk" "walk" (output_path_of "walk")
             (mkWorld walk_is_file []))) = walk_is_file.
Proof.
  rewrite (folder_is_plain_file (mkWorld walk_is_file []) "walk" "walk"
             (output_path_of "walk") None).
  - split; reflexivity.
  - vm_compute. reflexivity.
Defined.

Lemma string_ltb_iff g f :
  String.ltb g f = true <-> str_le g f /\ g <> f.
Proof.
  unfold String.ltb, str_le, String.leb.
  destruct (String.compare g f) eqn:Hc.
  - apply String.compare_eq_iff in Hc. split; [done | by intros [_ ?]].
  - split; [|done]. intros _. split; [done|].
    intros ->. by rewrite string_compare_refl in Hc.
  - split; [done | by intros [? _]].
Qed.

Lemma sorted_position (l : list string) (i : nat) f :
  StronglySorted str_le l -> NoDup l -> l !! i = Some f ->
  length (List.filter (fun g => String.ltb g f) l) = i.
Proof.
  intros Hs. revert i. induction Hs as [|x l Hs IH Hx]; intros i Hnd Hi;
    [done|].
  apply NoDup_cons in Hnd as [Hxl Hnd]. rewrite Forall_forall in Hx.
  destruct i as [|i]; simpl in Hi.
  - injection Hi as ->. simpl.
    destruct (String.ltb f f) eqn:Hff;
      [apply string_ltb_iff in Hff as [_ ?]; done|].
    assert (List.filter (fun g => String.ltb g f) l = []) as ->; [|done].
    clear IH Hs Hnd. induction l as [|y l IHl]; [done|]. simpl.
    destruct (String.ltb y f) eqn:Hy.
    + apply string_ltb_iff in Hy as [Hyf Hne].
      destruct Hne. apply (anti_symm str_le); [done|]. apply Hx. left.
    + apply IHl; [intros; apply Hx; by right|].
      intros ?. apply Hxl. by right.
  - simpl.
    assert (String.ltb x f = true) as ->.
    { apply string_ltb_iff. split.
      - apply Hx. by apply list_elem_of_lookup_2 in Hi.
      - intros ->. apply Hxl. by apply list_elem_of_lookup_2 in Hi. }
    simpl. f_equal. by apply IH.
Qed.

Lemma filter_length_Permutation {A} (p : A -> bool) (l l' : list A) :
  l ≡ₚ l' -> length (List.filter p l) = length (List.filter p l').
Proof.
  induction 1 as [|x l l' _ IH|x y l|l l' l'' _ IH1 _ IH2]; simpl.
  - done.
  - destruct (p x); simpl; congruence.
  - destruct (p x), (p y); reflexivity.
  - congruence.
Qed.

Lemma filter_filter_andb {A} (p q : A -> bool) (l : list A) :
  List.filter q (List.filter p l) = List.filter (fun a => p a && q a) l.
Proof.
  induction l as [|a l IH]; simpl; [done|].
  destruct (p a); simpl; [destruct (q a)|]; by rewrite IH.
Qed.

(** X3.  The column of a frame.  The position of a frame file in the
    list that [get_frame_files] returns, which is the column it is pasted
    into, is the number of frame names of its directory that come strictly
    before its own name in the order of [str]. *)
Theorem frame_column_is_rank (w : World) (animation_path : Path)
    (direction : string) (names : list string) :
  let dir_path := path_join animation_path direction in
  os_listdir dir_path w = (Ret names, w) ->
  exists paths,
    get_frame_files animation_path direction w = (Ret paths, w) /\
    forall (i : nat) f,
      paths !! i = Some (path_join dir_path f) ->
      Z.of_nat i =
      len (List.filter (fun g => is_frame_name g && String.ltb g f) names).
Proof.
  cbn zeta. intros Hls. unfold os_listdir in Hls.
  destruct (lookup_path (fs w) (path_join animation_path direction))
    as [[c|es]|] eqn:Hl; [done| |done].
  injection Hls as <-.
  exists (frames_at (fs w) animation_path direction). split.
  - by rewrite get_frame_files_run, Hl.
  - intros i f Hi. unfold frames_at in Hi.
    apply list_lookup_fmap_Some in Hi as (f' & Heq & Hf').
    apply app_inj_tail in Heq as [_ <-].
    unfold len. f_equal.
    rewrite <- (sorted_position _ i f (frame_names_sorted _ _)
                  (frame_names_NoDup _ _) Hf').
    unfold frame_names. rewrite Hl, <- filter_filter_andb.
    apply filter_length_Permutation. unfold sort.
    by rewrite merge_sort_Permutation.
Qed.

(** At [walk_only]: [frame_01.png] is in column 1 of [south]. *)
Lemma frame_column_is_rank_walk_only :
  exists paths,
    get_frame_files ["animations"; "walk"] "south" (mkWorld walk_only []) =
      (Ret paths, mkWorld walk_only []) /\
    forall (i : nat) f,
      paths !! i = Some ["animations"; "walk"; "south"; f] ->
      Z.of_nat i =
      len (List.filter (fun g => is_frame_name g && String.ltb g f)
             (map fst (map_to_list walk_south))).
Proof.
  apply (frame_column_is_rank (mkWorld walk_only []) ["animations"; "walk"]
           "south" (map fst (map_to_list walk_south))).
  vm_compute. reflexivity.
Defined.

(** X4.  The shape of a frame name.  A directory entry is taken as a
    frame exactly when its name is "frame_", then any characters, then
    ".png": the prefix and the suffix do not overlap, so the name has at
    least ten characters. *)
Theorem frame_name_shape (f : string) :
  is_frame_name f = true <->
  exists m, f = ("frame_" ++ m ++ ".png")%string.
Proof.
  rewrite is_frame_name_spec. split.
  - intros [[r ->] [r' Hr']].
    destruct r' as [|c1 [|c2 [|c3 [|c4 [|c5 [|c6 m]]]]]];
      rewrite ?append_cons, ?append_empty in Hr';
      try discriminate Hr'.
    injection Hr' as _ _ _ _ _ _ ->. by exists m.
  - intros [m ->]. split; [by eexists|].
    exists ("frame_" ++ m)%string.
    by rewrite ?append_cons, ?append_empty.
Qed.

Lemma prefix_of_output p name :
  p `prefix_of` output_path_of name ->
  p = [] \/ p = output_dir \/ p = output_path_of name.
Proof.
  rewrite output_path_of_eq. intros [k Hk].
  destruct p as [|a [|b [|c p]]]; simpl in Hk.
  - by left.
  - injection Hk as <- _. right. by left.
  - injection Hk as <- <- _. right. by right.
  - apply (f_equal length) in Hk. simpl in Hk. rewrite length_app in Hk. lia.
Qed.

(** X5.  What [main] touches.  Whatever the tree and however the run
    ends, [main] leaves every path as it was except the script directory
    itself, [spritesheets] and the output files of the animations: nothing
    below [animations] is changed, and nothing else is created. *)
Theorem main_footprint (w : World) (p : Path) :
  p <> [] ->
  p <> output_dir ->
  (forall name src, (name, src) ∈ ANIMATIONS -> p <> output_path_of name) ->
  lookup_path (fs (snd (main w))) p = lookup_path (fs w) p.
Proof.
  intros Hroot Hdir Hout.
  rewrite (proj2 (main_outcome w)).
  destruct (for_each process_animation 0 ANIMATIONS
              (mkWorld (fs w) (stdout w ++ banner))) as [r w1] eqn:Hrun.
  cbn [snd]. rewrite (batch_effect _ _ _ _ _ Hrun); [done|].
  intros [name src] Ha Hpre. cbn [fst] in Hpre.
  destruct (prefix_of_output _ _ Hpre) as [?|[?|?]]; [done..|].
  by apply (Hout name src).
Qed.

(** At [walk_only]: the frame [south/frame_00.png] after [main]. *)
Lemma main_footprint_walk_only :
  lookup_path (fs (snd (main (mkWorld walk_only []))))
    ["animations"; "walk"; "south"; "frame_00.png"] =
  lookup_path walk_only ["animations"; "walk"; "south"; "frame_00.png"].
Proof.
  apply (main_footprint (mkWorld walk_only [])).
  - discriminate.
  - discriminate.
  - intros name src _. rewrite output_path_of_eq. discriminate.
Defined.

Lemma scan_lines_not_saved root ap l :
  List.filter is_saved_line (scan_lines root ap l) = [].
Proof.
  unfold scan_lines. induction l as [|d l IH]; [done|].
  cbn [flat_map]. rewrite List.filter_app, IH, app_nil_r.
  unfold scan_line. by destruct (lookup_path root (path_join ap d)).
Qed.

Lemma job_lines_not_saved root jobs :
  List.filter is_saved_line (flat_map (job_line root) jobs) = [].
Proof.
  induction jobs as [|[[row col] p] jobs IH]; [done|].
  cbn [flat_map]. rewrite List.filter_app, IH, app_nil_r.
  unfold job_line. by destruct (decode root p).
Qed.

Lemma compose_lines_not_saved root name src :
  List.filter is_saved_line (compose_lines root name src) = [].
Proof.
  unfold compose_lines. cbn zeta.
  rewrite !List.filter_app, scan_lines_not_saved, job_lines_not_saved.
  reflexivity.
Qed.

Lemma scan_failure_not_saved root ap l e lines :
  scan_failure root ap l = Some (e, lines) ->
  List.filter is_saved_line lines = [].
Proof.
  revert e lines. induction l as [|d l IH]; intros e lines H; [done|].
  cbn [scan_failure] in H.
  assert (match scan_failure root ap l with
          | Some (e, lines) => Some (e, scan_line root ap d ++ lines)
          | None => None
          end = Some (e, lines) -> List.filter is_saved_line lines = []) as Hrec.
  { destruct (scan_failure root ap l) as [[e' lines']|]; [|done].
    intros [= <- <-]. rewrite List.filter_app, (IH _ _ eq_refl), app_nil_r.
    pose proof (scan_lines_not_saved root ap [d]) as Hd.
    unfold scan_lines in Hd. cbn [flat_map] in Hd.
    by rewrite app_nil_r in Hd. }
  destruct (lookup_path root (path_join ap d)) as [[c|es]|]; [|by auto..].
  by injection H as <- <-.
Qed.

Ltac out_lines :=
  match goal with
  | |- (_, mkWorld _ (_ ++ ?l)) = _ -> _ =>
      intros [= <- <-]; exists l; split; [reflexivity|]
  end.

Lemma create_spritesheet_saved_lines name src out w r w' :
  create_spritesheet name src out w = (r, w') ->
  exists lines,
    stdout w' = stdout w ++ lines /\
    List.filter is_saved_line lines =
      match r with Ret true => [Saved out] | _ => [] end.
Proof.
  rewrite create_spritesheet_run. unfold verdict.
  destruct (lookup_path (fs w) (animation_path_of src)) as [n|].
  2: { by out_lines. }
  destruct (scan_failure (fs w) (animation_path_of src) DIRECTIONS)
    as [[e lines]|] eqn:Hf.
  { out_lines.
    cbn [app List.filter is_saved_line].
    apply (scan_failure_not_saved _ _ _ _ _ Hf). }
  destruct (max_frames_of (fs w) (animation_path_of src) =? 0).
  { out_lines.
    rewrite !List.filter_app, scan_lines_not_saved. reflexivity. }
  rewrite save_run. cbn [fs stdout].
  destruct (makedirs (fs w) (dirname out) (dirname out)) as [e|n0].
  { out_lines.
    apply compose_lines_not_saved. }
  destruct (write_file n0 out out _) as [e|n'].
  - out_lines. apply compose_lines_not_saved.
  - intros [= <- <-]. cbn [stdout].
    exists (compose_lines (fs w) name src ++ [Saved out]).
    split; [by rewrite app_assoc|].
    by rewrite List.filter_app, compose_lines_not_saved.
Qed.

Lemma batch_counts_saved anims cnt w r w1 :
  for_each process_animation cnt anims w = (Ret r, w1) ->
  exists lines,
    stdout w1 = stdout w ++ lines /\
    r = cnt + len (List.filter is_saved_line lines) /\
    len (List.filter is_saved_line lines) <= len anims.
Proof.
  revert cnt w. induction anims as [|[name src] anims IH]; intros cnt w Hrun.
  - injection Hrun as <- <-. exists []. rewrite app_nil_r.
    unfold len. simpl. split_and!; [done|lia|lia].
  - rewrite batch_step in Hrun.
    destruct (create_spritesheet name src (output_path_of name) w)
      as [[ok|e] wa] eqn:Hcs; [|discriminate Hrun].
    destruct (create_spritesheet_saved_lines _ _ _ _ _ _ Hcs)
      as (l1 & Hout1 & Hs1).
    destruct (IH _ _ Hrun) as (l2 & Hout2 & Hr & Hle).
    exists (l1 ++ l2). rewrite Hout2, Hout1, List.filter_app, Hs1.
    unfold len in *. rewrite length_app. cbn [length].
    split_and!; [by rewrite app_assoc| |].
    + destruct ok; simpl in *; lia.
    + destruct ok; simpl in *; lia.
Qed.

(** X6.  The summary tells the truth.  When [main] returns, its output
    is the banner, the lines of the animations and the summary, and the
    count in the summary is the number of "Saved" lines printed in
    between; it is at most the number of animations. *)
Theorem summary_counts_saved_lines (w : World) :
  fst (main w) = Ret () ->
  exists lines cnt,
    stdout (snd (main w)) = stdout w ++ banner ++ lines ++ summary cnt /\
    cnt = len (List.filter is_saved_line lines) /\
    0 <= cnt <= len ANIMATIONS.
Proof.
  rewrite main_run.
  destruct (for_each process_animation 0 ANIMATIONS
              (mkWorld (fs w) (stdout w ++ banner))) as [[cnt|e] w1] eqn:Hrun;
    [|discriminate].
  intros _. cbn [snd fs stdout].
  destruct (batch_counts_saved _ _ _ _ _ Hrun) as (lines & Hout & Hcnt & Hle).
  cbn [stdout] in Hout. exists lines, cnt.
  rewrite Hout, <- !app_assoc. split_and!; [done|lia| |lia].
  unfold len in *. lia.
Qed.

(** At [two_white_frames], where one sheet is saved. *)
Lemma summary_counts_saved_lines_two_white_frames :
  exists lines cnt,
    stdout (snd (main (mkWorld two_white_frames []))) =
      [] ++ banner ++ lines ++ summary cnt /\
    cnt = len (List.filter is_saved_line lines) /\
    0 <= cnt <= len ANIMATIONS.
Proof.
  apply (summary_counts_saved_lines (mkWorld two_white_frames [])).
  vm_compute. reflexivity.
Defined.

Lemma frame_exists root ap d p :
  p ∈ frames_at root ap d -> is_Some (lookup_path root p).
Proof.
  unfold frames_at. intros H. apply list_elem_of_fmap in H as [f [-> Hf]].
  destruct (lookup_path root (path_join ap d)) as [[c|es]|] eqn:Hl.
  - unfold frame_names in Hf. rewrite Hl in Hf. by apply elem_of_nil in Hf.
  - pose proof (proj1 (frame_names_elem_of _ _ _ f Hl) Hf) as [[n Hn] _].
    unfold path_join at 1. rewrite lookup_path_app, Hl. simpl.
    rewrite Hn. eauto.
  - unfold frame_names in Hf. rewrite Hl in Hf. by apply elem_of_nil in Hf.
Qed.

Lemma row_jobs_error_lines root row k frames :
  flat_map (job_line root)
    (map (fun cf : Z * Path => (row, fst cf, snd cf)) (enumerate_from k frames)) =
  map (fun p => ErrorLoading p (open_error root p))
      (List.filter (undecodable root) frames).
Proof.
  revert k. induction frames as [|p frames IH]; intros k; [done|].
  cbn [enumerate_from map flat_map fst snd List.filter].
  rewrite IH. unfold job_line, undecodable.
  by destruct (decode root p).
Qed.

Lemma jobs_from_error_lines root ap k l :
  flat_map (job_line root) (jobs_from root ap (enumerate_from k l)) =
  map (fun p => ErrorLoading p (open_error root p))
      (List.filter (undecodable root) (flat_map (frames_at root ap) l)).
Proof.
  revert k. induction l as [|d l IH]; intros k; [done|].
  unfold jobs_from. cbn [enumerate_from flat_map fst snd].
  fold (jobs_from root ap (enumerate_from (k + 1) l)).
  rewrite flat_map_app, IH, List.filter_app, map_app.
  f_equal. apply row_jobs_error_lines.
Qed.

Lemma scan_lines_no_error_path root ap l :
  omap error_path (scan_lines root ap l) = [].
Proof.
  unfold scan_lines. induction l as [|d l IH]; [done|].
  cbn [flat_map]. rewrite omap_app, IH, app_nil_r.
  unfold scan_line. by destruct (lookup_path root (path_join ap d)).
Qed.

Lemma error_paths_all root (l : list Path) :
  omap error_path (map (fun p => ErrorLoading p (open_error root p)) l) = l.
Proof. induction l as [|p l IH]; [done|]. csimpl. by rewrite IH. Qed.

Lemma compose_lines_error_paths root name src :
  omap error_path (compose_lines root name src) =
  List.filter (undecodable root)
    (flat_map (frames_at root (animation_path_of src)) DIRECTIONS).
Proof.
  unfold compose_lines. cbn zeta.
  rewrite !omap_app, scan_lines_no_error_path.
  unfold jobs_of, enumerate. rewrite jobs_from_error_lines, error_paths_all.
  reflexivity.
Qed.

(** X7.  The "Error loading" lines of a run that saves a sheet.  The
    paths they name are, in the order of the directions and of the frames,
    those of the frame files found that do not decode, each once.  Every
    such path is an entry of the tree that the listing has found, in one
    of the eight directions: the line is never about a missing file. *)
Theorem error_lines_are_undecodable_frames (w w' : World) (name src : string)
    (out : Path) :
  create_spritesheet name src out w = (Ret true, w') ->
  exists lines,
    stdout w' = stdout w ++ lines /\
    omap error_path lines =
      List.filter (undecodable (fs w))
        (flat_map (frames_at (fs w) (animation_path_of src)) DIRECTIONS) /\
    forall p, p ∈ omap error_path lines ->
      (exists d, d ∈ DIRECTIONS /\
                 p ∈ frames_at (fs w) (animation_path_of src) d) /\
      is_Some (lookup_path (fs w) p) /\
      decode (fs w) p = None.
Proof.
  rewrite create_spritesheet_run.
  destruct (verdict (fs w) name src) as [lg|e lg|sheet lg] eqn:Hv;
    [discriminate..|].
  assert (lg = compose_lines (fs w) name src) as ->.
  { unfold verdict in Hv.
    destruct (lookup_path (fs w) (animation_path_of src)); [|discriminate Hv].
    destruct (scan_failure (fs w) (animation_path_of src) DIRECTIONS)
      as [[e l]|]; [discriminate Hv|].
    destruct (max_frames_of (fs w) (animation_path_of src) =? 0);
      [discriminate Hv|].
    by injection Hv as _ <-. }
  clear Hv. rewrite save_run. cbn [fs stdout].
  destruct (makedirs (fs w) (dirname out) (dirname out)) as [e|n];
    [discriminate|].
  destruct (write_file n out out (Some sheet)) as [e|n']; [discriminate|].
  intros [= <-]. cbn [stdout].
  exists (compose_lines (fs w) name src ++ [Saved out]).
  assert (omap error_path (compose_lines (fs w) name src ++ [Saved out]) =
          List.filter (undecodable (fs w))
            (flat_map (frames_at (fs w) (animation_path_of src))
               DIRECTIONS)) as Herr.
  { rewrite omap_app, compose_lines_error_paths. apply app_nil_r. }
  split_and!; [by rewrite app_assoc|exact Herr|].
  intros p Hin. rewrite Herr in Hin.
  apply list_elem_of_In, filter_In in Hin as [Hp Hun].
  apply in_flat_map in Hp as [d [Hd Hp]]. apply list_elem_of_In in Hd, Hp.
  split_and!.
  - by exists d.
  - by apply (frame_exists _ (animation_path_of src) d).
  - unfold undecodable in Hun. by destruct (decode (fs w) p).
Qed.

(** At [frame_named_directory], where [frame_01.png] is a directory. *)
Lemma error_lines_are_undecodable_frames_directory :
  exists lines,
    stdout (snd (create_spritesheet "walk" "walk" (output_path_of "walk")
                   (mkWorld frame_named_directory []))) = [] ++ lines /\
    omap error_path lines =
      List.filter (undecodable frame_named_directory)
        (flat_map (frames_at frame_named_directory
                     (animation_path_of "walk")) DIRECTIONS) /\
    forall p, p ∈ omap error_path lines ->
      (exists d, d ∈ DIRECTIONS /\
                 p ∈ frames_at frame_named_directory
                       (animation_path_of "walk") d) /\
      is_Some (lookup_path frame_named_directory p) /\
      decode frame_named_directory p = None.
Proof.
  apply (error_lines_are_undecodable_frames
           (mkWorld frame_named_directory [])
           (snd (create_spritesheet "walk" "walk" (output_path_of "walk")
                   (mkWorld frame_named_directory []))) "walk" "walk"
           (output_path_of "walk")).
  vm_compute. reflexivity.
Defined.

(** X8.  Every pixel of the saved sheet, for frames of at most the cell
    size.  The pixel at offset [(dx, dy)] of the cell in column [i] of row
    [r] is the pixel [(dx, dy)] of the frame at position [i] of direction
    [r] when that frame exists, decodes and is large enough to have such a
    pixel; in every other case it is transparent.  In particular a
    direction with fewer frames than the longest one, or without a
    directory, leaves the rest of its row transparent. *)
Theorem sheet_pixels_when_frames_fit (w : World) (name src : string)
    (out : Path) (r i : nat) (dx dy : Z) :
  let ap := animation_path_of src in
  has_frames (fs w) src ->
  writable (fs w) out = true ->
  frames_fit (fs w) ap ->
  0 <= dx < FRAME_WIDTH ->
  0 <= dy < FRAME_HEIGHT ->
  exists sheet w',
    create_spritesheet name src out w = (Ret true, w') /\
    lookup_path (fs w') out = Some (File (Some sheet)) /\
    pixel sheet (Z.of_nat i * FRAME_WIDTH + dx) (Z.of_nat r * FRAME_HEIGHT + dy) =
      match (DIRECTIONS !! r ≫= fun d => frames_at (fs w) ap d !! i)
            ≫= decode (fs w) with
      | Some img => if in_image img dx dy then pixel img dx dy else transparent
      | None => transparent
      end.
Proof.
  cbn zeta. intros (Hex & Hls & Hmax) Hw Hfit Hdx Hdy.
  exists (sheet_of (fs w) (animation_path_of src)). eexists. split_and!.
  { by apply create_spritesheet_composed. }
  { cbn [fs]. by apply saved_lookup. }
  assert (in_cell (Z.of_nat i) (Z.of_nat r)
            (Z.of_nat i * FRAME_WIDTH + dx) (Z.of_nat r * FRAME_HEIGHT + dy) =
          true) as Hcell by (apply in_cell_true; lia).
  assert (forall img, in_image img dx dy = false ->
            in_box (Z.of_nat i * FRAME_WIDTH) (Z.of_nat r * FRAME_HEIGHT)
              (width img) (height img)
              (Z.of_nat i * FRAME_WIDTH + dx) (Z.of_nat r * FRAME_HEIGHT + dy) =
            false) as Hout.
  { intros img Him. apply not_true_is_false. intros Hbox.
    apply in_box_true in Hbox.
    assert (in_image img dx dy = true) by (apply in_image_true; lia).
    congruence. }
  destruct (DIRECTIONS !! r) as [d|] eqn:Hr; cbn [mbind option_bind].
  2: { apply (cell_blank_if_fit _ _ r i); [done..|].
       intros d0 p0 Hr0. by rewrite Hr in Hr0. }
  destruct (frames_at (fs w) (animation_path_of src) d !! i) as [p|] eqn:Hp;
    cbn [mbind option_bind].
  2: { apply (cell_blank_if_fit _ _ r i); [done..|].
       intros d0 p0 Hr0 Hp0. rewrite Hr in Hr0. injection Hr0 as <-.
       by rewrite Hp in Hp0. }
  destruct (decode (fs w) p) as [img|] eqn:Hdec.
  2: { apply (cell_blank_if_fit _ _ r i); [done..|].
       intros d0 p0 Hr0 Hp0. rewrite Hr in Hr0. injection Hr0 as <-.
       rewrite Hp in Hp0. injection Hp0 as <-. simpl. by rewrite Hdec. }
  destruct (in_image img dx dy) eqn:Him.
  - apply in_image_true in Him.
    apply (sheet_own_pixel _ _ r d i p img); try done; lia.
  - apply (cell_blank_if_fit _ _ r i); [done..|].
    intros d0 p0 Hr0 Hp0. rewrite Hr in Hr0. injection Hr0 as <-.
    rewrite Hp in Hp0. injection Hp0 as <-. simpl. rewrite Hdec.
    by apply Hout.
Qed.

(** At [walk_only]: in row 0 the first cell is the white frame and the
    second, whose frame does not decode, is transparent. *)
Lemma sheet_pixels_when_frames_fit_walk_only :
  exists sheet w',
    create_spritesheet "walk" "walk" (output_path_of "walk")
      (mkWorld walk_only []) = (Ret true, w') /\
    lookup_path (fs w') (output_path_of "walk") = Some (File (Some sheet)) /\
    pixel sheet (Z.of_nat 0 * FRAME_WIDTH + 5) (Z.of_nat 0 * FRAME_HEIGHT + 7) =
      white.
Proof.
  apply (sheet_pixels_when_frames_fit (mkWorld walk_only []) "walk" "walk"
           (output_path_of "walk") 0 0 5 7).
  - apply has_framesb_spec. vm_compute. reflexivity.
  - vm_compute. reflexivity.
  - apply frames_fitb_spec. vm_compute. reflexivity.
  - unfold FRAME_WIDTH. lia.
  - unfold FRAME_HEIGHT. lia.
Defined.

Lemma scan_failure_Some root ap l e lines :
  scan_failure root ap l = Some (e, lines) ->
  exists d c, d ∈ l /\ lookup_path root (path_join ap d) = Some (File c) /\
              e = NotADirectoryError (path_join ap d).
Proof.
  revert e lines. induction l as [|d l IH]; intros e lines H; [done|].
  cbn [scan_failure] in H.
  assert (match scan_failure root ap l with
          | Some (e, lines) => Some (e, scan_line root ap d ++ lines)
          | None => None
          end = Some (e, lines) ->
          exists d0 c, d0 ∈ d :: l /\
            lookup_path root (path_join ap d0) = Some (File c) /\
            e = NotADirectoryError (path_join ap d0)) as Hrec.
  { destruct (scan_failure root ap l) as [[e' lines']|]; [|done].
    intros [= <- <-]. destruct (IH _ _ eq_refl) as (d0 & c & Hd0 & Hl & He).
    exists d0, c. split_and!; [by right|done..]. }
  destruct (lookup_path root (path_join ap d)) as [[c|es]|] eqn:Hl;
    [|by auto..].
  injection H as <- <-. exists d, c. split_and!; [by left|done..].
Qed.

(** X9.  The exceptions of [create_spritesheet].  Called as [main] calls
    it, [create_spritesheet] raises in three cases only: a direction entry
    of the animation folder is a plain file, [spritesheets] is a plain
    file, or the output file is a directory.  In each of them the tree is
    left as it was. *)
Theorem create_spritesheet_raises_only (w w' : World) (name src : string)
    (e : Exn) :
  create_spritesheet name src (output_path_of name) w = (Exc e, w') ->
  fs w' = fs w /\
  ((exists d c,
      d ∈ DIRECTIONS /\
      lookup_path (fs w) (path_join (animation_path_of src) d) =
        Some (File c) /\
      e = NotADirectoryError (path_join (animation_path_of src) d)) \/
   (exists c,
      lookup_path (fs w) output_dir = Some (File c) /\
      e = FileExistsError output_dir) \/
   (exists es,
      lookup_path (fs w) (output_path_of name) = Some (Dir es) /\
      e = IsADirectoryError (output_path_of name))).
Proof.
  rewrite create_spritesheet_run. unfold verdict.
  destruct (lookup_path (fs w) (animation_path_of src)) as [n|] eqn:Hl;
    [|discriminate].
  destruct (scan_failure (fs w) (animation_path_of src) DIRECTIONS)
    as [[e' lines]|] eqn:Hf.
  { intros [= <- <-]. split; [done|]. left.
    apply (scan_failure_Some _ _ _ _ _ Hf). }
  destruct (max_frames_of (fs w) (animation_path_of src) =? 0);
    [discriminate|].
  rewrite save_run, output_dirname. cbn [fs stdout].
  generalize (sheet_of (fs w) (animation_path_of src)).
  generalize (stdout w ++ compose_lines (fs w) name src).
  intros printed sheet.
  destruct (fs w) as [c|es] eqn:Hroot; [discriminate Hl|].
  rewrite output_path_of_eq. unfold output_dir, path_join.
  cbn [app makedirs write_file lookup_path].
  destruct (es !! "spritesheets") as [[c|es']|] eqn:Hss; simpl.
  - intros [= <- <-]. split; [done|]. right. left. by exists c.
  - rewrite lookup_insert_eq.
    destruct (es' !! (name ++ ".png")%string) as [[c|x]|] eqn:Hout;
      [discriminate| |discriminate].
    intros [= <- <-]. cbn [fs]. split; [by rewrite insert_id|].
    right. right. by exists x.
  - rewrite lookup_insert_eq, lookup_empty. discriminate.
Qed.

(** At [walk_png_is_directory], where [spritesheets/walk.png] is a
    directory. *)
Lemma create_spritesheet_raises_only_walk_png :
  fs (snd (create_spritesheet "walk" "walk" (output_path_of "walk")
             (mkWorld walk_png_is_directory []))) = walk_png_is_directory /\
  ((exists d c,
      d ∈ DIRECTIONS /\
      lookup_path walk_png_is_directory
        (path_join (animation_path_of "walk") d) = Some (File c) /\
      IsADirectoryError (output_path_of "walk") =
        NotADirectoryError (path_join (animation_path_of "walk") d)) \/
   (exists c,
      lookup_path walk_png_is_directory output_dir = Some (File c) /\
      IsADirectoryError (output_path_of "walk") = FileExistsError output_dir) \/
   (exists es,
      lookup_path walk_png_is_directory (output_path_of "walk") =
        Some (Dir es) /\
      IsADirectoryError (output_path_of "walk") =
        IsADirectoryError (output_path_of "walk"))).
Proof.
  apply (create_spritesheet_raises_only (mkWorld walk_png_is_directory [])
           (snd (create_spritesheet "walk" "walk" (output_path_of "walk")
                   (mkWorld walk_png_is_directory [])))
           "walk" "walk" (IsADirectoryError (output_path_of "walk"))).
  vm_compute. reflexivity.
Defined.

Lemma create_spritesheet_ret name src out w ok wa :
  create_spritesheet name src out w = (Ret ok, wa) ->
  match verdict (fs w) name src with
  | Skipped _ => ok = false /\ fs wa = fs w
  | Failed _ _ => False
  | Composed sheet _ =>
      ok = true /\ writable (fs w) out = true /\ fs wa = saved (fs w) out sheet
  end.
Proof.
  rewrite create_spritesheet_run.
  destruct (verdict (fs w) name src) as [lg|e lg|sheet lg].
  - by intros [= <- <-].
  - discriminate.
  - destruct (writable (fs w) out) eqn:Hw.
    + rewrite save_run_writable by exact Hw. by intros [= <- <-].
    + destruct (save_run_unwritable sheet out
                  (mkWorld (fs w) (stdout w ++ lg)) Hw) as (e & w' & -> & _).
      discriminate.
Qed.

Lemma writable_back root name name' sheet :
  name <> name' ->
  writable root (output_path_of name) = true ->
  writable (saved root (output_path_of name) sheet) (output_path_of name') = true ->
  writable root (output_path_of name') = true.
Proof.
  rewrite !output_path_of_eq. intros Hne Hw Hw'.
  apply writable_inv in Hw as (es & es' & -> & Hd & Hf).
  destruct (saved_shape es es' (name ++ ".png") sheet Hd Hf) as [_ Hs].
  rewrite Hs in Hw'.
  apply writable_inv in Hw' as (es0 & es0' & [= <-] & Hd' & Hf').
  rewrite lookup_insert_eq in Hd'. injection Hd' as <-.
  refine (proj1 (saved_shape es es' _ sheet Hd _)).
  intros x Hx. apply (Hf' x). rewrite lookup_insert_ne; [done|].
  intros H. by apply append_cancel_r in H.
Qed.

Lemma batch_independent anims cnt w0 w r w1 :
  NoDup (map fst anims) ->
  same_inputs (fs w0) (fs w) ->
  (forall a, a ∈ anims ->
     lookup_path (fs w) (output_path_of (fst a)) =
     lookup_path (fs w0) (output_path_of (fst a))) ->
  (forall a, a ∈ anims ->
     writable (fs w) (output_path_of (fst a)) = true ->
     writable (fs w0) (output_path_of (fst a)) = true) ->
  for_each process_animation cnt anims w = (Ret r, w1) ->
  forall a, a ∈ anims ->
    exists ok,
      fst (create_spritesheet (fst a) (snd a) (output_path_of (fst a)) w0) =
        Ret ok /\
      lookup_path (fs w1) (output_path_of (fst a)) =
      lookup_path
        (fs (snd (create_spritesheet (fst a) (snd a)
                    (output_path_of (fst a)) w0)))
        (output_path_of (fst a)).
Proof.
  revert cnt w. induction anims as [|[name src] anims IH];
    intros cnt w Hnd Hin Hlk Hwr Hrun a Ha; [by apply elem_of_nil in Ha|].
  apply NoDup_cons in Hnd as [Hname Hnd]. cbn [map fst] in Hname, Hnd.
  rewrite batch_step in Hrun.
  destruct (create_spritesheet name src (output_path_of name) w)
    as [[ok|e] wa] eqn:Hcs; [|discriminate Hrun].
  assert (forall a', a' ∈ anims -> name <> fst a') as Hother.
  { intros a' Ha' Heq. apply Hname, list_elem_of_fmap. by exists a'. }
  pose proof (create_spritesheet_ret _ _ _ _ _ _ Hcs) as Hret.
  apply elem_of_cons in Ha as [->|Ha].
  - cbn [fst snd].
    rewrite (batch_effect _ _ _ _ _ Hrun (output_path_of name)).
    2: { intros a' Ha'. apply output_not_prefix_output.
         intros Heq. by apply (Hother a' Ha'). }
    rewrite create_spritesheet_run, (verdict_same_inputs _ _ name src Hin).
    destruct (verdict (fs w) name src) as [lg|e lg|sheet lg]; [| done |].
    + destruct Hret as [_ ->]. exists false. split; [done|].
      apply (Hlk (name, src)). left.
    + destruct Hret as (_ & Hw & ->). exists true.
      pose proof (Hwr (name, src) ltac:(left) Hw) as Hw0. cbn [fst] in Hw0.
      rewrite save_run_writable by exact Hw0. cbn [fst snd fs].
      split; [done|]. by rewrite !saved_lookup.
  - apply (IH (if ok then cnt + 1 else cnt) wa Hnd); [| | |exact Hrun|exact Ha].
    + intros q. rewrite (Hin q). symmetry.
      apply (create_spritesheet_effect _ _ _ _ _ Hcs),
        inputs_not_prefix_output.
    + intros a' Ha'. rewrite <- (Hlk a') by (by right).
      apply (create_spritesheet_effect _ _ _ _ _ Hcs).
      apply output_not_prefix_output. by apply Hother.
    + intros a' Ha' Hw'. apply (Hwr a'); [by right|].
      destruct (verdict (fs w) name src) as [lg|e lg|sheet lg]; [| done |].
      * destruct Hret as [_ Hfs]. by rewrite <- Hfs.
      * destruct Hret as (_ & Hw & Hfs). rewrite Hfs in Hw'.
        apply (writable_back _ name _ sheet); [by apply Hother|done..].
Qed.

(** X10.  The animations do not influence each other.  When [main]
    returns, the output file of each animation is, at the end, what a
    single call of [create_spritesheet] for that animation on the initial
    tree leaves there, and that call returns too: a sheet saved earlier in
    the loop changes nothing for the animations after it, and is not
    touched by them. *)
Theorem animations_are_independent (w : World) (name src : string) :
  fst (main w) = Ret () ->
  (name, src) ∈ ANIMATIONS ->
  exists ok,
    fst (create_spritesheet name src (output_path_of name) w) = Ret ok /\
    lookup_path (fs (snd (main w))) (output_path_of name) =
    lookup_path
      (fs (snd (create_spritesheet name src (output_path_of name) w)))
      (output_path_of name).
Proof.
  intros Hret Ha. destruct (main_outcome w) as [Hfst Hfs].
  rewrite Hfs. rewrite Hret in Hfst. clear Hret Hfs.
  destruct (for_each process_animation 0 ANIMATIONS
              (mkWorld (fs w) (stdout w ++ banner))) as [[cnt|e] w1] eqn:Hrun;
    [|discriminate Hfst].
  clear Hfst. cbn [snd].
  apply (batch_independent ANIMATIONS 0 w
           (mkWorld (fs w) (stdout w ++ banner)) cnt w1 ANIMATIONS_NoDup)
    with (a := (name, src)); [done..|exact Hrun|exact Ha].
Qed.

(** At [two_white_frames], for the animation [walk]. *)
Lemma animations_are_independent_two_white_frames :
  exists ok,
    fst (create_spritesheet "walk" "walk" (output_path_of "walk")
           (mkWorld two_white_frames [])) = Ret ok /\
    lookup_path (fs (snd (main (mkWorld two_white_frames []))))
      (output_path_of "walk") =
    lookup_path
      (fs (snd (create_spritesheet "walk" "walk" (output_path_of "walk")
                  (mkWorld two_white_frames []))))
      (output_path_of "walk").
Proof.
  apply (animations_are_independent (mkWorld two_white_frames [])).
  - vm_compute. reflexivity.
  - right. left.
Defined.

Lemma makedirs_keeps n p q n' p' x :
  makedirs n p q = inr n' -> lookup_path n p' = Some x ->
  exists x', lookup_path n' p' = Some x' /\ is_dir x' = is_dir x.
Proof.
  revert n n' p' x. induction p as [|c p IH]; intros n n' p' x H Hl;
    simpl in H.
  - destruct n; [done|]. injection H as <-. eauto.
  - destruct n as [?|es]; [done|].
    destruct (makedirs (default (Dir ∅) (es !! c)) p q) as [e|child] eqn:Hm;
      [done|].
    injection H as <-.
    destruct p' as [|c' p']; simpl in Hl |- *.
    { injection Hl as <-. eauto. }
    destruct (es !! c') as [ch|] eqn:Hc'; [|done].
    destruct (decide (c = c')) as [<-|Hne].
    + rewrite lookup_insert_eq. rewrite Hc' in Hm. by apply (IH _ _ _ _ Hm).
    + rewrite lookup_insert_ne, Hc' by done. eauto.
Qed.

Lemma write_file_keeps n p q data n' p' x :
  write_file n p q data = inr n' -> lookup_path n p' = Some x ->
  exists x', lookup_path n' p' = Some x' /\ is_dir x' = is_dir x.
Proof.
  revert n n' p' x. induction p as [|c p IH]; intros n n' p' x H Hl;
    simpl in H.
  - destruct n as [c0|]; [|done]. injection H as <-.
    destruct p' as [|c' p']; [|done]. injection Hl as <-. eauto.
  - destruct n as [?|es]; [done|].
    destruct p' as [|c' p'].
    { injection Hl as <-.
      destruct (es !! c) as [child|].
      - destruct (write_file child p q data); [done|]. injection H as <-. eauto.
      - destruct p; [|done]. injection H as <-. eauto. }
    simpl in Hl. destruct (es !! c') as [ch|] eqn:Hc'; [|done].
    destruct (decide (c = c')) as [<-|Hne].
    + rewrite Hc' in H.
      destruct (write_file ch p q data) as [e|child'] eqn:Hw; [done|].
      injection H as <-. simpl. rewrite lookup_insert_eq.
      by apply (IH _ _ _ _ Hw).
    + assert (exists es', n' = Dir es' /\ es' !! c' = Some ch) as (es' & -> & Hes').
      { destruct (es !! c) as [child|].
        - destruct (write_file child p q data); [done|]. injection H as <-.
          eexists. split; [done|]. by rewrite lookup_insert_ne.
        - destruct p; [|done]. injection H as <-.
          eexists. split; [done|]. by rewrite lookup_insert_ne. }
      simpl. rewrite Hes'. eauto.
Qed.

Lemma create_spritesheet_keeps name src out w r w' p x :
  create_spritesheet name src out w = (r, w') ->
  lookup_path (fs w) p = Some x ->
  exists x', lookup_path (fs w') p = Some x' /\ is_dir x' = is_dir x.
Proof.
  rewrite create_spritesheet_run.
  destruct (verdict (fs w) name src) as [lg|e lg|sheet lg].
  - intros [= <- <-] Hl. eauto.
  - intros [= <- <-] Hl. eauto.
  - rewrite save_run. cbn [fs stdout].
    destruct (makedirs (fs w) (dirname out) (dirname out)) as [e|n] eqn:Hm.
    { intros [= <- <-] Hl. eauto. }
    intros Hrun Hl.
    destruct (makedirs_keeps _ _ _ _ _ _ Hm Hl) as (x1 & Hl1 & Hk1).
    destruct (write_file n out out (Some sheet)) as [e|n'] eqn:Hw.
    + injection Hrun as <- <-. eauto.
    + injection Hrun as <- <-. cbn [fs].
      destruct (write_file_keeps _ _ _ _ _ _ _ Hw Hl1) as (x2 & Hl2 & Hk2).
      exists x2. split; [done|congruence].
Qed.

Lemma batch_keeps anims cnt w r w1 p x :
  for_each process_animation cnt anims w = (r, w1) ->
  lookup_path (fs w) p = Some x ->
  exists x', lookup_path (fs w1) p = Some x' /\ is_dir x' = is_dir x.
Proof.
  revert cnt w x. induction anims as [|[name src] anims IH];
    intros cnt w x Hrun Hl.
  - injection Hrun as _ <-. eauto.
  - rewrite batch_step in Hrun.
    destruct (create_spritesheet name src (output_path_of name) w)
      as [[ok|e] wa] eqn:Hcs.
    + destruct (create_spritesheet_keeps _ _ _ _ _ _ _ _ Hcs Hl)
        as (x1 & Hl1 & Hk1).
      destruct (IH _ _ _ Hrun Hl1) as (x2 & Hl2 & Hk2).
      exists x2. split; [done|congruence].
    + injection Hrun as _ <-.
      apply (create_spritesheet_keeps _ _ _ _ _ _ _ _ Hcs Hl).
Qed.

(** X11.  Nothing is removed.  Every file and directory of the tree is
    still there after [main], however the run ends, and a directory is
    still a directory and a file still a file: the script deletes nothing
    and replaces no directory by a file. *)
Theorem main_keeps_entries (w : World) (p : Path) (x : Node) :
  lookup_path (fs w) p = Some x ->
  exists x', lookup_path (fs (snd (main w))) p = Some x' /\
             is_dir x' = is_dir x.
Proof.
  intros Hl. rewrite (proj2 (main_outcome w)).
  destruct (for_each process_animation 0 ANIMATIONS
              (mkWorld (fs w) (stdout w ++ banner))) as [r w1] eqn:Hrun.
  apply (batch_keeps _ _ _ _ _ _ _ Hrun Hl).
Qed.

(** At [walk_png_is_directory]: the directory [spritesheets/walk.png]. *)
Lemma main_keeps_entries_walk_png :
  exists x',
    lookup_path (fs (snd (main (mkWorld walk_png_is_directory []))))
      (output_path_of "walk") = Some x' /\
    is_dir x' = is_dir (Dir ∅).
Proof.
  apply (main_keeps_entries (mkWorld walk_png_is_directory [])).
  vm_compute. reflexivity.
Defined.

(** X12.  What the result of [create_spritesheet] tells.  When it
    returns [True] the output path holds an image of eight rows of cells
    whose width is a positive multiple of the cell width; when it returns
    [False] the tree is as it was. *)
Theorem result_tells_whether_saved (w w' : World) (name src : string)
    (out : Path) (ok : bool) :
  create_spritesheet name src out w = (Ret ok, w') ->
  if ok then
    exists sheet n,
      lookup_path (fs w') out = Some (File (Some sheet)) /\
      0 < n /\ width sheet = n * FRAME_WIDTH /\
      height sheet = 8 * FRAME_HEIGHT
  else fs w' = fs w.
Proof.
  intros Hrun. pose proof (create_spritesheet_ret _ _ _ _ _ _ Hrun) as Hret.
  unfold verdict in Hret.
  destruct (lookup_path (fs w) (animation_path_of src));
    [|by destruct Hret as [-> ->]].
  destruct (scan_failure (fs w) (animation_path_of src) DIRECTIONS)
    as [[e lines]|]; [done|].
  destruct (Z.eqb_spec (max_frames_of (fs w) (animation_path_of src)) 0)
    as [Hz|Hnz]; [by destruct Hret as [-> ->]|].
  destruct Hret as (-> & Hw & ->).
  exists (sheet_of (fs w) (animation_path_of src)),
         (max_frames_of (fs w) (animation_path_of src)).
  split_and!.
  - by apply saved_lookup.
  - pose proof (max_count_ge (fs w) (animation_path_of src) DIRECTIONS 0).
    unfold max_frames_of in *. lia.
  - apply sheet_of_width.
  - apply sheet_of_height.
Qed.

(** At [walk_only], where the sheet of [walk] is saved. *)
Lemma result_tells_whether_saved_walk_only :
  exists sheet n,
    lookup_path
      (fs (snd (create_spritesheet "walk" "walk" (output_path_of "walk")
                  (mkWorld walk_only []))))
      (output_path_of "walk") = Some (File (Some sheet)) /\
    0 < n /\ width sheet = n * FRAME_WIDTH /\
    height sheet = 8 * FRAME_HEIGHT.
Proof.
  apply (result_tells_whether_saved (mkWorld walk_only [])
           (snd (create_spritesheet "walk" "walk" (output_path_of "walk")
                   (mkWorld walk_only []))) "walk" "walk"
           (output_path_of "walk") true).
  vm_compute. reflexivity.
Defined.

Lemma skips_run name src out w :
  skips (fs w) src ->
  exists lines,
    create_spritesheet name src out w =
      (Ret false, mkWorld (fs w) (stdout w ++ lines)) /\
    List.filter is_saved_line lines = [].
Proof.
  intros [Hl|(Hex & Hls & Hmax)].
  - rewrite create_spritesheet_missing by done. by eexists.
  - rewrite create_spritesheet_empty by done. eexists. split; [reflexivity|].
    cbn [app List.filter is_saved_line].
    rewrite List.filter_app, scan_lines_not_saved. reflexivity.
Qed.

Lemma batch_all_skip anims cnt w :
  (forall a, a ∈ anims -> skips (fs w) (snd a)) ->
  exists lines,
    for_each process_animation cnt anims w =
      (Ret cnt, mkWorld (fs w) (stdout w ++ lines)) /\
    List.filter is_saved_line lines = [].
Proof.
  revert w. induction anims as [|[name src] anims IH]; intros w Hs.
  - exists []. simpl. unfold ret. by rewrite world_app_nil.
  - destruct (skips_run name src (output_path_of name) w
                (Hs (name, src) ltac:(left))) as (l1 & Hrun & Hl1).
    rewrite batch_step, Hrun.
    destruct (IH (mkWorld (fs w) (stdout w ++ l1))) as (l2 & Hrest & Hl2).
    { intros a Ha. cbn [fs]. apply Hs. by right. }
    exists (l1 ++ l2). rewrite Hrest. cbn [fs stdout].
    split; [by rewrite app_assoc|]. by rewrite List.filter_app, Hl1, Hl2.
Qed.

(** X13.  Nothing to do.  When every animation folder is missing or
    holds no frame, [main] returns with the count 0 and leaves the tree
    exactly as it was: [spritesheets] is not created, since
    [os.makedirs] comes after both checks of [create_spritesheet]. *)
Theorem nothing_to_do (w : World) :
  (forall name src, (name, src) ∈ ANIMATIONS -> skips (fs w) src) ->
  exists lines,
    main w =
      (Ret (), mkWorld (fs w) (stdout w ++ banner ++ lines ++ summary 0)) /\
    List.filter is_saved_line lines = [].
Proof.
  intros Hs. rewrite main_run.
  destruct (batch_all_skip ANIMATIONS 0 (mkWorld (fs w) (stdout w ++ banner)))
    as (lines & -> & Hl).
  { intros [name src] Ha. by apply (Hs name src). }
  exists lines. cbn [fs stdout]. by rewrite <- !app_assoc.
Qed.

(** At [no_animations]: [spritesheets] does not exist after [main]. *)
Lemma nothing_to_do_no_animations :
  exists lines,
    main (mkWorld no_animations []) =
      (Ret (), mkWorld no_animations ([] ++ banner ++ lines ++ summary 0)) /\
    List.filter is_saved_line lines = [].
Proof.
  apply (nothing_to_do (mkWorld no_animations [])).
  intros name src _. left. vm_compute. reflexivity.
Defined.

Lemma frame_names_elem root dir_path f :
  f ∈ frame_names root dir_path <->
  is_frame_name f = true /\ is_Some (lookup_path root (path_join dir_path f)).
Proof.
  unfold path_join. rewrite lookup_path_app.
  destruct (lookup_path root dir_path) as [[c|es]|] eqn:Hl.
  - unfold frame_names. rewrite Hl, elem_of_nil. simpl.
    split; [done|]. intros [_ [x Hx]]. discriminate Hx.
  - rewrite (frame_names_elem_of _ _ _ _ Hl). simpl.
    destruct (es !! f) as [n|]; split; intros [H1 H2]; split; try done;
      try (by eauto); by destruct H2.
  - unfold frame_names. rewrite Hl, elem_of_nil. simpl.
    split; [done|]. intros [_ [x Hx]]. discriminate Hx.
Qed.

Section relevant.
Variables (root root' : Node) (ap : Path).
Hypothesis Hsame : same_frames root root' ap.

Lemma same_frame_names d :
  d ∈ DIRECTIONS ->
  frame_names root (path_join ap d) = frame_names root' (path_join ap d).
Proof.
  intros Hd. destruct Hsame as (_ & _ & Hframe).
  apply (StronglySorted_unique str_le); try apply frame_names_sorted.
  apply NoDup_Permutation; try apply frame_names_NoDup.
  intros f. rewrite !frame_names_elem.
  split; intros [Hf Hx]; (split; [done|]);
    destruct (Hframe d f Hd Hf) as [Hk _].
  - destruct Hx as [x Hx]. rewrite Hx in Hk.
    destruct (lookup_path root' (path_join (path_join ap d) f));
      [by eauto | discriminate Hk].
  - destruct Hx as [x Hx]. rewrite Hx in Hk.
    destruct (lookup_path root (path_join (path_join ap d) f));
      [by eauto | discriminate Hk].
Qed.

Lemma same_frames_at d :
  d ∈ DIRECTIONS -> frames_at root ap d = frames_at root' ap d.
Proof. intros Hd. unfold frames_at. by rewrite same_frame_names. Qed.

Lemma same_scan_line d :
  d ∈ DIRECTIONS -> scan_line root ap d = scan_line root' ap d.
Proof.
  intros Hd. unfold scan_line. rewrite (same_frames_at d Hd).
  destruct Hsame as (_ & Hdir & _). pose proof (Hdir d Hd) as Hk.
  destruct (lookup_path root (path_join ap d)),
           (lookup_path root' (path_join ap d)); done.
Qed.

Lemma same_scan_lines l :
  (forall d, d ∈ l -> d ∈ DIRECTIONS) ->
  scan_lines root ap l = scan_lines root' ap l.
Proof.
  unfold scan_lines. induction l as [|d l IH]; intros Hl; simpl; [done|].
  rewrite IH by (intros; apply Hl; by right).
  by rewrite same_scan_line by (apply Hl; left).
Qed.

Lemma same_max_count l m :
  (forall d, d ∈ l -> d ∈ DIRECTIONS) ->
  max_count root ap l m = max_count root' ap l m.
Proof.
  revert m. induction l as [|d l IH]; intros m Hl; simpl; [done|].
  rewrite IH by (intros; apply Hl; by right).
  by rewrite same_frames_at by (apply Hl; left).
Qed.

Lemma same_scan_failure l :
  (forall d, d ∈ l -> d ∈ DIRECTIONS) ->
  scan_failure root ap l = scan_failure root' ap l.
Proof.
  induction l as [|d l IH]; intros Hl; simpl; [done|].
  rewrite IH by (intros; apply Hl; by right).
  rewrite same_scan_line by (apply Hl; left).
  destruct Hsame as (_ & Hdir & _).
  pose proof (Hdir d (Hl d ltac:(left))) as Hk.
  destruct (lookup_path root (path_join ap d)) as [[c|es]|],
           (lookup_path root' (path_join ap d)) as [[c'|es']|];
    done.
Qed.

Lemma same_jobs_from rows :
  (forall rd, rd ∈ rows -> snd rd ∈ DIRECTIONS) ->
  jobs_from root ap rows = jobs_from root' ap rows.
Proof.
  unfold jobs_from. induction rows as [|rd rows IH]; intros Hl; simpl; [done|].
  rewrite IH by (intros; apply Hl; by right).
  by rewrite same_frames_at by (apply Hl; left).
Qed.

Lemma same_job_path j :
  j ∈ jobs_of root ap -> decode root (snd j) = decode root' (snd j) /\
                         open_error root (snd j) = open_error root' (snd j).
Proof.
  intros Hj. apply elem_of_jobs_of in Hj as (r & d & i & p & -> & Hr & Hp).
  apply list_elem_of_lookup_2 in Hr, Hp.
  unfold frames_at in Hp. apply list_elem_of_fmap in Hp as [f [-> Hf]].
  apply frame_names_elem in Hf as [Hf _].
  destruct Hsame as (_ & _ & Hframe).
  destruct (Hframe d f Hr Hf) as [Hk Hdec]. cbn [snd]. split; [done|].
  unfold open_error.
  destruct (lookup_path root (path_join (path_join ap d) f)) as [[c|es]|],
           (lookup_path root' (path_join (path_join ap d) f)) as [[c'|es']|];
    done.
Qed.

Lemma same_fold_jobs jobs sheet :
  (forall j, j ∈ jobs -> j ∈ jobs_of root ap) ->
  fold_left (apply_job root) jobs sheet = fold_left (apply_job root') jobs sheet
  /\ flat_map (job_line root) jobs = flat_map (job_line root') jobs.
Proof.
  revert sheet. induction jobs as [|j jobs IH]; intros sheet Hj; [done|].
  cbn [fold_left flat_map].
  destruct (same_job_path j (Hj j ltac:(left))) as [Hd He].
  assert (apply_job root sheet j = apply_job root' sheet j) as ->
      by (destruct j as [[r c] p]; simpl in *; by rewrite Hd).
  assert (job_line root j = job_line root' j) as ->
      by (destruct j as [[r c] p]; simpl in *; by rewrite Hd, He).
  destruct (IH (apply_job root' sheet j)) as [-> ->];
    [intros; apply Hj; by right | done].
Qed.

Lemma same_jobs_of : jobs_of root ap = jobs_of root' ap.
Proof.
  unfold jobs_of. apply same_jobs_from. apply enumerate_snd_elem_of.
Qed.

Lemma same_max_frames_of : max_frames_of root ap = max_frames_of root' ap.
Proof. by apply same_max_count. Qed.

Lemma same_sheet_of : sheet_of root ap = sheet_of root' ap.
Proof.
  unfold sheet_of. rewrite <- same_max_frames_of.
  destruct (same_fold_jobs (jobs_of root ap)
              (blank_sheet (max_frames_of root ap))) as [-> _]; [done|].
  by rewrite same_jobs_of.
Qed.

Lemma same_job_lines :
  flat_map (job_line root) (jobs_of root ap) =
  flat_map (job_line root') (jobs_of root' ap).
Proof.
  destruct (same_fold_jobs (jobs_of root ap) (blank_sheet 0)) as [_ ->];
    [done|].
  by rewrite same_jobs_of.
Qed.
End relevant.

Lemma verdict_same_frames root root' name src :
  same_frames root root' (animation_path_of src) ->
  verdict root name src = verdict root' name src.
Proof.
  intros H. unfold verdict, compose_lines. cbn zeta.
  rewrite (same_scan_failure _ _ _ H), (same_max_frames_of _ _ _ H),
    (same_scan_lines _ _ _ H), (same_sheet_of _ _ _ H),
    (same_job_lines _ _ _ H) by done.
  destruct H as (Hex & _).
  destruct (lookup_path root (animation_path_of src)) as [n|],
           (lookup_path root' (animation_path_of src)) as [n'|];
    try done.
  - destruct (proj1 Hex) as [? [=]]. by eauto.
  - destruct (proj2 Hex) as [? [=]]. by eauto.
Qed.


Lemma south_frames_agree f :
  is_frame_name f = true -> walk_south !! f = plain_south !! f.
Proof.
  intros Hf. unfold walk_south, plain_south.
  destruct (decide (f = "frame_00.png")) as [->|H0]; [reflexivity|].
  destruct (decide (f = "frame_01.png")) as [->|H1]; [reflexivity|].
  assert (f <> "notes.txt") as H2 by (intros ->; discriminate Hf).
  assert (f <> "frame_02.jpg") as H3 by (intros ->; discriminate Hf).
  rewrite !lookup_insert_ne by done.
  by rewrite !lookup_singleton_ne by done.
Qed.

